(** * csv-diff-tool: the tabular dataset and the comparison engine

    A shallow embedding of [csv_parser.py] (classes [CSVParser] and
    [NullCSVParser]), [comparer.py] (class [CSVComparer]) and
    [csv_compare_output.py] (class [CSVCompareOutput]).

    Conventions of the embedding:
    - Python [str] is [string] (a sequence of ASCII characters); a cell is a
      [value], either a [str] or Python's [None] (what [csv.DictReader]
      stores for a field missing from a short line).
    - a Python [set] is a [gset], a [defaultdict(int)] is a [gmap] read with
      the total lookup [!!!] (default [0]), a row [dict] is an
      insertion-ordered association list (module [Dict]).
    - a method that can raise returns an [outcome]; a method that mutates
      [self] returns the new object.
    - the [csv] tokenizer, [repr] of a list, and the file system are
      collaborators of the program and are parameters of section [World];
      each of them can raise where the library call can. *)

From stdpp Require Import gmap strings list pretty.

#[local] Set Warnings "-clear-no-such-hyp".
Set Default Proof Using "Type".

(** ** Python values *)

(** A cell value: [str] or [None]. *)
Inductive value : Type :=
  | VStr (s : string)
  | VNone.

Global Instance value_eq_dec : EqDecision value.
Proof. solve_decision. Defined.

Definition value_to_option (v : value) : option string :=
  match v with VStr s => Some s | VNone => None end.

Definition value_of_option (o : option string) : value :=
  match o with Some s => VStr s | None => VNone end.

Global Instance value_countable : Countable value.
Proof.
  apply (inj_countable' value_to_option value_of_option).
  intros []; reflexivity.
Defined.

(** [str(v)], as an f-string renders [{v}]. *)
Definition py_str (v : value) : string :=
  match v with VStr s => s | VNone => "None" end.

(** [isinstance(v, str)]. *)
Definition is_str (v : value) : bool :=
  match v with VStr _ => true | VNone => false end.

(** [str.isspace] on one ASCII character: tab, line feed, vertical tab, form
    feed, carriage return, the four separators 28..31, and space. *)
Definition py_isspace (a : Ascii.ascii) : bool :=
  let n := Ascii.nat_of_ascii a in
  ((9 <=? n)%nat && (n <=? 13)%nat) || ((28 <=? n)%nat && (n <=? 32)%nat).

Fixpoint lstrip (s : string) : string :=
  match s with
  | EmptyString => EmptyString
  | String a s' => if py_isspace a then lstrip s' else s
  end.

Definition rstrip (s : string) : string := String.rev (lstrip (String.rev s)).

(** [s.strip()]. *)
Definition strip (s : string) : string := rstrip (lstrip s).

(** [value.strip() if isinstance(value, str) else value]. *)
Definition strip_value (v : value) : value :=
  match v with VStr s => VStr (strip s) | VNone => VNone end.

(** ** Outcomes of a call *)

Inductive exn : Type :=
  | ValueError (msg : string)
  | TypeError (msg : string)
  | IndexError (msg : string)
  | FileNotFoundError (msg : string)
  | UnicodeDecodeError (encoding object : string) (start stop : nat) (reason : string)
  | KeyError (key : string)
  | OSError (msg : string)
  | LookupError (msg : string)
  | PermissionError (msg : string)
  | UnicodeEncodeError (encoding object : string) (start stop : nat) (reason : string)
  | CsvError (msg : string).

(** [isinstance(e, OSError)]: [FileNotFoundError] and [PermissionError] are
    subclasses of [OSError]. *)
Definition is_OSError (e : exn) : bool :=
  match e with
  | OSError _ | FileNotFoundError _ | PermissionError _ => true
  | _ => false
  end.

(** [isinstance(e, LookupError)]: [KeyError] and [IndexError] are
    subclasses of [LookupError]. *)
Definition is_LookupError (e : exn) : bool :=
  match e with
  | LookupError _ | KeyError _ | IndexError _ => true
  | _ => false
  end.

(** [Ok a]: the call returns [a]. [Raise e]: it raises [e]. [Unfinished]: a
    [while True] loop was cut off by the model's iteration bound (shown
    below never to happen). *)
Inductive outcome (A : Type) : Type :=
  | Ok (a : A)
  | Raise (e : exn)
  | Unfinished.
Arguments Ok {A} a.
Arguments Raise {A} e.
Arguments Unfinished {A}.

Global Instance outcome_ret : MRet outcome := λ A a, Ok a.
Global Instance outcome_bind : MBind outcome := λ A B f m,
  match m with
  | Ok a => f a
  | Raise e => Raise e
  | Unfinished => Unfinished
  end.

(** A list comprehension [[f(x) for x in xs]] whose [f] may raise. *)
Fixpoint map_outcome {A B : Type} (f : A → outcome B) (xs : list A)
    : outcome (list B) :=
  match xs with
  | [] => Ok []
  | x :: xs' => y ← f x; ys ← map_outcome f xs'; Ok (y :: ys)
  end.

(** [[x for x in xs if keep(x)]] whose [keep] may raise. *)
Fixpoint filter_outcome {A : Type} (keep : A → outcome bool) (xs : list A)
    : outcome (list A) :=
  match xs with
  | [] => Ok []
  | x :: xs' =>
      b ← keep x; ys ← filter_outcome keep xs';
      Ok (if b : bool then x :: ys else ys)
  end.

(** [for x in xs: s = body(x, s)], stopping at the first exception. *)
Fixpoint for_each {A S : Type} (xs : list A) (body : A → S → outcome S) (s : S)
    : outcome S :=
  match xs with
  | [] => Ok s
  | x :: xs' => s' ← body x s; for_each xs' body s'
  end.

(** ** [CSVParser._unique_vals] *)

(** The two locals of [_unique_vals] that live across iterations. *)
Record uv_state : Type := UvState {
  unique_values : gset value;
  suffix_counts : gmap value nat
}.

(** [f"{val}.{n}"]. *)
Definition suffixed (val : value) (n : nat) : value :=
  VStr (py_str val +:+ "." +:+ pretty n).

(** The [while True] loop of the [else] branch, cut off after [fuel]
    iterations. Each iteration bumps [suffix_counts[val]] and probes the
    name built from it. *)
Fixpoint rename_loop (fuel : nat) (val : value) (st : uv_state)
    : option (value * uv_state) :=
  match fuel with
  | O => None
  | S fuel' =>
      let counts := <[val := S (suffix_counts st !!! val)]> (suffix_counts st) in
      let new_val := suffixed val (counts !!! val) in
      if decide (new_val ∉ unique_values st)
      then Some (new_val, UvState ({[new_val]} ∪ unique_values st) counts)
      else rename_loop fuel' val (UvState (unique_values st) counts)
  end.

(** The [for idx, val in enumerate(result)] loop; the list returned is
    [result] after the loop. *)
Fixpoint unique_walk (values : list value) (st : uv_state) : outcome (list value) :=
  match values with
  | [] => Ok []
  | val :: rest =>
      if decide (val ∉ unique_values st)
      then
        out ← unique_walk rest (UvState ({[val]} ∪ unique_values st) (suffix_counts st));
        Ok (val :: out)
      else
        match rename_loop (S (size (unique_values st))) val st with
        | None => Unfinished
        | Some (new_val, st') =>
            out ← unique_walk rest st'; Ok (new_val :: out)
        end
  end.

Definition _unique_vals (values : list value) : outcome (list value) :=
  unique_walk values (UvState ∅ ∅).

(** ** Row dictionaries

    A Python [dict] keeps its keys in insertion order; the order decides
    which of two colliding keys survives a dict comprehension. *)
Module Dict.

Definition t : Type := list (string * value).

(** [d.get(k)] as an option: [None] when the key is absent. *)
Fixpoint get (d : t) (k : string) : option value :=
  match d with
  | [] => None
  | (k', v) :: d' => if decide (k' = k) then Some v else get d' k
  end.

(** [d[k] = v]: an existing key keeps its place, a new key goes last. *)
Fixpoint setitem (d : t) (k : string) (v : value) : t :=
  match d with
  | [] => [(k, v)]
  | (k', v') :: d' =>
      if decide (k' = k) then (k, v) :: d' else (k', v') :: setitem d' k v
  end.

(** [dict(items)], and a dict comprehension over [items]. *)
Definition of_items (items : list (string * value)) : t :=
  foldl (λ d kv, setitem d kv.1 kv.2) [] items.

Definition keys (d : t) : list string := d.*1.

(** [k in d]. *)
Definition contains (d : t) (k : string) : bool := bool_decide (is_Some (get d k)).

End Dict.

(** One row of [list_of_dicts]. [cells] are the entries under [str] keys.
    [restkey] is the entry [csv.DictReader] files under the key [None] (its
    default [restkey]) when a line has more fields than there are field
    names: the surplus fields, as a list. No method of the program reads or
    writes the [None] key, and no column name can equal it. *)
Record dict_row : Type := DictRow {
  cells : Dict.t;
  restkey : option (list string)
}.

(** [{}]. *)
Definition empty_row : dict_row := DictRow [] None.

(** [bool(row)]: a dict is truthy when it has an entry. *)
Definition row_truthy (r : dict_row) : bool :=
  match cells r, restkey r with
  | [], None => false
  | _, _ => true
  end.

(** [row.get(column_name)]: [None] when the key is absent. *)
Definition row_get (r : dict_row) (column_name : string) : value :=
  default VNone (Dict.get (cells r) column_name).

(** [row.get(column_name, d)]. *)
Definition row_get_default (r : dict_row) (column_name : string) (d : value) : value :=
  default d (Dict.get (cells r) column_name).

(** ** The parser objects *)

(** The class of an object decides which method body a call runs. *)
Inductive parser_class : Type :=
  | CSVParser_class
  | NullCSVParser_class.

Global Instance parser_class_eq_dec : EqDecision parser_class.
Proof. solve_decision. Defined.

Record CSVParser : Type := MkParser {
  class_of : parser_class;
  list_of_dicts : list dict_row;
  column_names : list string;
  file_text : string;
  _index_column : string;
  file_path : string;
  _encoding : string
}.

(** [CSVParser.__init__]. *)
Definition CSVParser_init : CSVParser :=
  MkParser CSVParser_class [] [] "" "" "" "utf-8".

(** [NullCSVParser.__init__]. *)
Definition NullCSVParser_init : CSVParser :=
  MkParser NullCSVParser_class [] [] "" "" "null" "utf-8".

Definition with_rows (p : CSVParser) (rows : list dict_row) : CSVParser :=
  MkParser (class_of p) rows (column_names p) (file_text p) (_index_column p)
           (file_path p) (_encoding p).

(** ** Methods of [CSVParser] and their [NullCSVParser] overrides *)

Definition strip_row (item : dict_row) : dict_row :=
  DictRow (Dict.of_items ((λ kv, (strip kv.1, strip_value kv.2)) <$> cells item))
          (restkey item).

(** [strip_whitespace]. Column names and [_index_column] are [str] here, so
    the two [isinstance] tests of the source always pass. *)
Definition strip_whitespace (self : CSVParser) : CSVParser :=
  match class_of self with
  | NullCSVParser_class => self
  | CSVParser_class =>
      MkParser (class_of self)
               (strip_row <$> list_of_dicts self)
               (strip <$> column_names self)
               (file_text self)
               (strip (_index_column self))
               (file_path self) (_encoding self)
  end.

(** [apply_transform]; the caller's [func] may raise. *)
Definition apply_transform (self : CSVParser) (column_name : string)
    (func : dict_row → outcome value) : outcome CSVParser :=
  match class_of self with
  | NullCSVParser_class => Ok self
  | CSVParser_class =>
      rows ← map_outcome
        (λ item, v ← func item;
                 Ok (DictRow (Dict.setitem (cells item) column_name v) (restkey item)))
        (list_of_dicts self);
      Ok (MkParser (class_of self) rows
            (if decide (column_name ∉ column_names self)
             then column_names self ++ [column_name]
             else column_names self)
            (file_text self) (_index_column self) (file_path self) (_encoding self))
  end.

(** [get_rows] (not overridden by [NullCSVParser]). *)
Definition get_rows (self : CSVParser) (column_name : string) (row_value : value)
    : list dict_row :=
  if decide (column_name ∈ column_names self)
  then filter (λ row, row_get row column_name = row_value) (list_of_dicts self)
  else [].

(** [get_row] (not overridden by [NullCSVParser]). *)
Definition get_row (self : CSVParser) (column_name : string) (row_value : value)
    : dict_row :=
  match get_rows self column_name row_value with
  | [] => empty_row
  | row :: _ => row
  end.

Definition drop_columns (self : CSVParser) (names : list string) : CSVParser :=
  match class_of self with
  | NullCSVParser_class => self
  | CSVParser_class =>
      MkParser (class_of self)
        ((λ row,
            DictRow (Dict.of_items (filter (λ kv, kv.1 ∉ names) (cells row)))
                    (restkey row)) <$> list_of_dicts self)
        (filter (λ col_name, col_name ∉ names) (column_names self))
        (file_text self) (_index_column self) (file_path self) (_encoding self)
  end.

(** [drop_rows_by]; the caller's [predicate] may raise. *)
Definition drop_rows_by (self : CSVParser) (predicate : dict_row → outcome bool)
    : outcome CSVParser :=
  match class_of self with
  | NullCSVParser_class => Ok self
  | CSVParser_class =>
      rows ← filter_outcome (λ row, b ← predicate row; Ok (negb b))
                            (list_of_dicts self);
      Ok (with_rows self rows)
  end.

(** [drop_rows]. Its lambda subscripts the row, so a row without the column
    raises [KeyError]. *)
Definition drop_rows (self : CSVParser) (column_name : string)
    (row_values : list value) : outcome CSVParser :=
  match class_of self with
  | NullCSVParser_class => Ok self
  | CSVParser_class =>
      if decide (column_name ∉ column_names self) then Ok self
      else
        drop_rows_by self
          (λ x, match Dict.get (cells x) column_name with
                | Some v => Ok (bool_decide (v ∈ row_values))
                | None => Raise (KeyError column_name)
                end)
  end.

Definition row_values_in_column (self : CSVParser) (column_name : string)
    : list value :=
  match class_of self with
  | NullCSVParser_class => []
  | CSVParser_class =>
      if decide (column_name ∈ column_names self)
      then (λ x, row_get_default x column_name (VStr "")) <$> list_of_dicts self
      else []
  end.

(** The getter of the property [index_column]. *)
Definition index_column (self : CSVParser) : outcome string :=
  match class_of self with
  | NullCSVParser_class => Ok (_index_column self)
  | CSVParser_class =>
      match column_names self with
      | [] => Raise (ValueError "No columns available to set or get the index column")
      | first_column :: _ =>
          Ok (if decide (_index_column self = "") then first_column
              else _index_column self)
      end
  end.

(** The loop [for idx, row in enumerate(self.list_of_dicts):
    row[self.index_column] = row_vals[idx]] of the setter, from index [idx]
    on; [self] is read for the getter only. *)
Fixpoint rewrite_index_cells (self : CSVParser) (rows : list dict_row) (idx : nat)
    (row_vals : list value) : outcome (list dict_row) :=
  match rows with
  | [] => Ok []
  | row :: rows' =>
      match row_vals !! idx with
      | None => Raise (IndexError "list index out of range")
      | Some v =>
          key ← index_column self;
          rest ← rewrite_index_cells self rows' (S idx) row_vals;
          Ok (DictRow (Dict.setitem (cells row) key v) (restkey row) :: rest)
      end
  end.

(** The setter of the property [index_column]. *)
Definition set_index_column (self : CSVParser) (value : string) : outcome CSVParser :=
  match class_of self with
  | NullCSVParser_class => Ok self
  | CSVParser_class =>
      if decide (column_names self = [])
      then Raise (ValueError "No columns available to set the index column")
      else if decide (value ∉ column_names self)
      then Raise (ValueError ("Column '" +:+ value +:+ "' not found in column names"))
      else
        let self1 :=
          MkParser (class_of self) (list_of_dicts self) (column_names self)
                   (file_text self) value (file_path self) (_encoding self) in
        row_vals ← _unique_vals (row_values_in_column self1 (_index_column self1));
        rows ← rewrite_index_cells self1 (list_of_dicts self1) 0 row_vals;
        Ok (with_rows self1 rows)
  end.

Definition get_value (self : CSVParser) (row_value_in_index_column : value)
    (column_name : string) : outcome value :=
  match class_of self with
  | NullCSVParser_class => Ok (VStr "")
  | CSVParser_class =>
      key ← index_column self;
      let row := get_row self key row_value_in_index_column in
      Ok (row_get_default row column_name (VStr ""))
  end.

(** Applies [f] to the first element that satisfies [P]: [get_row] hands
    out the first matching row object, and [set_value] writes into it. *)
Fixpoint update_first {A : Type} (P : A → Prop) `{∀ x, Decision (P x)}
    (f : A → A) (xs : list A) : list A :=
  match xs with
  | [] => []
  | x :: xs' => if decide (P x) then f x :: xs' else x :: update_first P f xs'
  end.

Definition set_value (self : CSVParser) (row_value_in_index_column : value)
    (column_name : string) (new_value : value) : outcome CSVParser :=
  match class_of self with
  | NullCSVParser_class => Ok self
  | CSVParser_class =>
      key ← index_column self;
      if decide (key ∈ column_names self)
      then
        Ok (with_rows self
              (update_first
                 (λ row, row_get row key = row_value_in_index_column)
                 (λ row,
                    if row_truthy row && Dict.contains (cells row) column_name
                    then DictRow (Dict.setitem (cells row) column_name new_value)
                                 (restkey row)
                    else row)
                 (list_of_dicts self)))
      else Ok self
  end.

(** ** [CSVCompareOutput] *)
Module CSVCompareOutput.

(** One entry of [mismatched_rows]: the dict with the keys ["row"],
    ["column"], ["first"] and ["second"]. *)
Record mismatch : Type := Mismatch {
  row : value;
  column : string;
  first : value;
  second : value
}.

Record t : Type := Make {
  match_result : bool;
  first_file : string;
  second_file : string;
  extra_cols_in_first_file : list string;
  extra_cols_in_second_file : list string;
  extra_rows_in_first_file : list value;
  extra_rows_in_second_file : list value;
  mismatched_rows : list mismatch
}.

End CSVCompareOutput.

(** [bool(l)] for a list. *)
Definition truthy {A : Type} (l : list A) : bool :=
  match l with [] => false | _ :: _ => true end.

(** [any(bs)]. *)
Definition any (bs : list bool) : bool := existsb id bs.

(** What [write_to_file] hands to [csv.DictWriter]: the file, its encoding,
    the header and the rows cut down to the header's keys. *)
Record file_write : Type := FileWrite {
  fw_path : string;
  fw_encoding : string;
  fw_fieldnames : list string;
  fw_rows : list Dict.t
}.

(** ["\n"]. *)
Definition newline : string := String (Ascii.ascii_of_nat 10) EmptyString.

(** The tab character. *)
Definition tab : string := String (Ascii.ascii_of_nat 9) EmptyString.

(** [str(b)] for a [bool]. *)
Definition bool_str (b : bool) : string := if b then "True" else "False".

(** One optional part of [CSVCompareOutput.__str__]: nothing for an empty
    collection, else the heading and one line per element. *)
Definition report_section {A : Type} (heading : string) (line : A → string)
    (items : list A) : list string :=
  if truthy items then heading :: (line <$> items) else [].

(** The line of one mismatch; the four keys are always present in the
    dicts [compare] builds, so the defaults of [x.get] are never used. *)
Definition mismatch_line (x : CSVCompareOutput.mismatch) : string :=
  tab +:+ "row: " +:+ py_str (CSVCompareOutput.row x)
  +:+ ", column: " +:+ CSVCompareOutput.column x
  +:+ ", first: " +:+ py_str (CSVCompareOutput.first x)
  +:+ ", second: " +:+ py_str (CSVCompareOutput.second x).

(** The list [lines] of [CSVCompareOutput.__str__]. *)
Definition report_lines (self : CSVCompareOutput.t) : list string :=
  ["First file: " +:+ CSVCompareOutput.first_file self;
   "Second file: " +:+ CSVCompareOutput.second_file self;
   "Match result: " +:+ bool_str (CSVCompareOutput.match_result self)]
  ++ report_section "Extra columns in first file" (λ x, tab +:+ x)
       (CSVCompareOutput.extra_cols_in_first_file self)
  ++ report_section "Extra columns in second file" (λ x, tab +:+ x)
       (CSVCompareOutput.extra_cols_in_second_file self)
  ++ report_section "Extra rows in first file" (λ x, tab +:+ py_str x)
       (CSVCompareOutput.extra_rows_in_first_file self)
  ++ report_section "Extra rows in second file" (λ x, tab +:+ py_str x)
       (CSVCompareOutput.extra_rows_in_second_file self)
  ++ report_section "Mismatched rows" mismatch_line
       (CSVCompareOutput.mismatched_rows self).

(** [CSVCompareOutput.__str__]. *)
Definition __str__ (self : CSVCompareOutput.t) : string :=
  String.concat newline (report_lines self).

(** What iterating a fresh [csv.reader(io.StringIO(text))] does: it yields
    the lines of [stream_lines], each a list of fields (an empty line
    yields the empty list), and then stops, or raises [csv.Error] with the
    message [stream_error] (a field over the size limit, a line feed or
    carriage return inside an unquoted field, ...). The lines before the
    one that fails are yielded first: the reader tokenizes one line per
    [next]. *)
Record csv_stream : Type := CsvStream {
  stream_lines : list (list string);
  stream_error : option string
}.

(** What the reader does once [stream_lines] is used up. *)
Definition stream_end {A : Type} (r : csv_stream) (at_stop : A) : outcome A :=
  match stream_error r with
  | Some msg => Raise (CsvError msg)
  | None => Ok at_stop
  end.

(** [list(reader)], and any loop that runs the reader to its end. *)
Definition stream_all (r : csv_stream) : outcome (list (list string)) :=
  stream_end r (stream_lines r).

(** [csv.DictReader.__next__] on one tokenized line: the dict of the zipped
    pairs, then the surplus fields under [restkey], or [restval] ([None])
    under each field name the line is too short for. *)
Definition dict_reader_row (fieldnames : list string) (line : list string) : dict_row :=
  let d := Dict.of_items (zip fieldnames (VStr <$> line)) in
  let lf := length fieldnames in
  let lr := length line in
  if decide (lf < lr) then DictRow d (Some (drop lf line))
  else if decide (lr < lf)
  then DictRow (foldl (λ d key, Dict.setitem d key VNone) d (drop lr fieldnames)) None
  else DictRow d None.

(** The rows [csv.DictReader(file, fieldnames)] makes of the tokenized
    lines: with [fieldnames=None] the first line gives the field names;
    empty lines among the data lines are skipped. *)
Definition DictReader (lines : list (list string)) (fieldnames : option (list string))
    : list dict_row :=
  match fieldnames with
  | Some names => dict_reader_row names <$> filter (λ line, line ≠ []) lines
  | None =>
      match lines with
      | [] => []
      | header :: rest => dict_reader_row header <$> filter (λ line, line ≠ []) rest
      end
  end.

(** [list(csv.DictReader(file, fieldnames))]: the reader is run to its
    end, so the call raises when the tokenizer does. *)
Definition list_DictReader (r : csv_stream) (fieldnames : option (list string))
    : outcome (list dict_row) :=
  lines ← stream_all r; Ok (DictReader lines fieldnames).

(** The names [_unique_vals] returns for a header line are [str]
    ([unique_vals_of_strs] below); [as_str] reads them as such. *)
Definition as_str (v : value) : string := py_str v.

Record CSVComparer : Type := MkComparer {
  first_file : CSVParser;
  second_file : CSVParser
}.

(** [CSVComparer.__init__]. *)
Definition CSVComparer_init : CSVComparer :=
  MkComparer NullCSVParser_init NullCSVParser_init.

(** [CSVComparer.from_csv_parsers], for two distinct parser objects. *)
Definition from_csv_parsers (first_file_parser second_file_parser : CSVParser)
    : CSVComparer :=
  MkComparer first_file_parser second_file_parser.

(** The pass-through mutators of [CSVComparer]: the first file's method,
    then the second file's. *)
Definition comparer_strip_whitespace (self : CSVComparer) : CSVComparer :=
  MkComparer (strip_whitespace (first_file self)) (strip_whitespace (second_file self)).

Definition comparer_drop_columns (self : CSVComparer) (names : list string)
    : CSVComparer :=
  MkComparer (drop_columns (first_file self) names)
             (drop_columns (second_file self) names).

Definition comparer_drop_rows (self : CSVComparer) (index_column : string)
    (row_values : list value) : outcome CSVComparer :=
  a ← drop_rows (first_file self) index_column row_values;
  b ← drop_rows (second_file self) index_column row_values;
  Ok (MkComparer a b).

Definition comparer_drop_rows_by (self : CSVComparer)
    (predicate : dict_row → outcome bool) : outcome CSVComparer :=
  a ← drop_rows_by (first_file self) predicate;
  b ← drop_rows_by (second_file self) predicate;
  Ok (MkComparer a b).

Definition comparer_apply_transform (self : CSVComparer) (column_name : string)
    (func : dict_row → outcome value) : outcome CSVComparer :=
  a ← apply_transform (first_file self) column_name func;
  b ← apply_transform (second_file self) column_name func;
  Ok (MkComparer a b).

(** ** A tokenizer and a [repr] for plain text

    For running the program on concrete inputs: on text without quotes,
    carriage returns or non-printing characters, and with fields below
    the size limit of 131072 characters, [csv.reader] does not raise; it
    splits the text at line feeds and each line at commas, and [repr] of a
    list of such [str] wraps each in single quotes. *)

(** [s.split(sep)] for a one-character separator, scanning [s] with the
    current piece [cur] held reversed. *)
Fixpoint split_go (sep : Ascii.ascii) (cur : string) (s : string) : list string :=
  match s with
  | EmptyString => [String.rev cur]
  | String a s' =>
      if decide (a = sep) then String.rev cur :: split_go sep EmptyString s'
      else split_go sep (String a cur) s'
  end.

Definition split (sep : Ascii.ascii) (s : string) : list string :=
  split_go sep EmptyString s.

(** The lines of a text stream: a final line feed ends the last line. *)
Definition text_lines (text : string) : list string :=
  let parts := split (Ascii.ascii_of_nat 10) text in
  match last parts with
  | Some "" => removelast parts
  | _ => parts
  end.

Definition plain_csv_reader (text : string) : csv_stream :=
  CsvStream
    ((λ line, if decide (line = "") then [] else split (Ascii.ascii_of_nat 44) line)
       <$> text_lines text)
    None.

Definition plain_repr_list (names : list string) : string :=
  "[" +:+ String.concat ", " ((λ n, "'" +:+ n +:+ "'") <$> names) +:+ "]".

(** A file system in which every file is read-only: opening a file for
    writing raises [PermissionError]. *)
Definition read_only_write (w : file_write) : outcome unit :=
  Raise (PermissionError ("[Errno 13] Permission denied: '" +:+ fw_path w +:+ "'")).

(** ** The collaborators, and the code that calls them

    - [csv_reader text]: what iterating [csv.reader(io.StringIO(text))]
      does, the lines it yields and the error it may end with;
    - [repr_list names]: [repr] of a list of [str], as an f-string renders
      [{self.first_file.column_names}];
    - [os_path_isfile], [get_encoding] ([chardet] over the file's bytes),
      [read_text path encoding] ([open(path, encoding=encoding).read()])
      and [write_csv w] (opening the file for writing and handing header
      and rows to [csv.DictWriter]): the file system at the time of the
      call. The last three can raise, as the calls they stand for can. *)
Section World.

Context (csv_reader : string → csv_stream).
Context (repr_list : list string → string).
Context (os_path_isfile : string → bool).
Context (get_encoding : string → outcome (option string)).
Context (read_text : string → string → outcome string).
Context (write_csv : file_write → outcome unit).

(** The property [has_error] (not overridden by [NullCSVParser]). The
    loop returns at the first line of another length than the header, so an
    error of the tokenizer is raised only when no line before it has
    another length. *)
Definition has_error (self : CSVParser) : outcome bool :=
  let reader := csv_reader (file_text self) in
  match stream_lines reader with
  | [] => stream_end reader false
  | header :: rows =>
      if existsb (λ row, negb (bool_decide (length row = length header))) rows
      then Ok true
      else stream_end reader false
  end.

(** What [write_to_file] hands to the file system once its guard has
    passed. *)
Definition the_write (self : CSVParser) : file_write :=
  FileWrite (file_path self) (_encoding self) (column_names self)
    ((λ row, Dict.of_items (filter (λ kv, kv.1 ∈ column_names self) (cells row)))
       <$> list_of_dicts self).

(** [write_to_file]: the write it performs, if any; [self] is not changed.
    After the guard the file is opened for writing and the rows are
    written; either step can raise, and the exception leaves the method
    as it is. What a failed write leaves in the file is not modelled. *)
Definition write_to_file (self : CSVParser) : outcome (option file_write) :=
  match class_of self with
  | NullCSVParser_class => Ok None
  | CSVParser_class =>
      if negb (os_path_isfile (file_path self))
      then Raise (ValueError
             ("Cannot write: '" +:+ file_path self +:+ "' is not a valid file path. "
              +:+ "write_to_file is only supported when initialized via from_file."))
      else
        _ ← write_csv (the_write self);
        Ok (Some (the_write self))
  end.

(** [_get_column_names_from_header_row]: one [next] on a fresh reader;
    only [StopIteration] is caught. *)
Definition _get_column_names_from_header_row (file_text : string)
    : outcome (list string) :=
  match stream_lines (csv_reader file_text) with
  | [] => stream_end (csv_reader file_text) []
  | header_row :: _ =>
      names ← _unique_vals (VStr <$> header_row); Ok (as_str <$> (names : list value))
  end.

(** [CSVParser.from_csv_text], called on the class [CSVParser] (as
    [from_lines] and [from_file] call it). The caller's [column_names] is
    [None] or a list whose elements may or may not be [str];
    [csv.DictReader] gets it as it was passed. *)
Definition from_csv_text (file_text : string) (column_names : option (list value))
    : outcome CSVParser :=
  match column_names with
  | Some ((_ :: _) as names) =>
      if forallb is_str names
      then
        rows ← list_DictReader (csv_reader file_text) (Some (as_str <$> names));
        Ok (MkParser CSVParser_class rows
              (as_str <$> names) file_text "" "init from text" "utf-8")
      else Raise (TypeError "All column names must be strings")
  | _ =>
      header_names ← _get_column_names_from_header_row file_text;
      rows ← list_DictReader (csv_reader file_text)
               (fmap (M := list) as_str <$> column_names);
      Ok (MkParser CSVParser_class rows
            header_names file_text "" "init from text" "utf-8")
  end.

Definition with_origin (p : CSVParser) (path encoding : string) : CSVParser :=
  MkParser (class_of p) (list_of_dicts p) (column_names p) (file_text p)
           (_index_column p) path encoding.

(** [CSVParser.from_lines]. *)
Definition from_lines (csv_lines : list string) (column_names : option (list value))
    : outcome CSVParser :=
  csv_parser ← from_csv_text (String.concat newline csv_lines) column_names;
  Ok (with_origin csv_parser "init from lines" (_encoding csv_parser)).

(** [CSVParser.from_file]. The clause [except (OSError, LookupError)]
    catches these two classes and their subclasses. *)
Definition from_file (path : string) (column_names : option (list value))
    : outcome CSVParser :=
  if negb (os_path_isfile path)
  then Raise (FileNotFoundError ("File not found: " +:+ path))
  else
    encoding ←
      match get_encoding path with
      | Ok (Some e) => Ok (if decide (e = "") then "utf-8" else e)
      | Ok None => Ok "utf-8"
      | Raise e => if is_OSError e || is_LookupError e then Ok "utf-8" else Raise e
      | Unfinished => Unfinished
      end;
    text ←
      match read_text path encoding with
      | Raise (UnicodeDecodeError enc obj start stop reason) =>
          Raise (UnicodeDecodeError enc obj start stop
                   ("Failed to decode " +:+ path +:+ " with encoding " +:+ encoding
                    +:+ ": " +:+ reason))
      | r => r
      end;
    csv_parser ← from_csv_text text column_names;
    Ok (with_origin csv_parser path encoding).

(** ** [CSVComparer] *)

(** [CSVComparer.from_files]. *)
Definition comparer_from_files (first second : string) : outcome CSVComparer :=
  a ← from_file first None; b ← from_file second None; Ok (MkComparer a b).

(** [CSVComparer.from_lines]. *)
Definition comparer_from_lines (first_file_lines second_file_lines : list string)
    : outcome CSVComparer :=
  a ← from_lines first_file_lines None;
  b ← from_lines second_file_lines None;
  Ok (MkComparer a b).

(** The loop over [common_columns] for one [row] of [common_rows]. *)
Definition compare_row (first second : CSVParser) (common_columns : list string)
    (row : value) (mismatched_rows : list CSVCompareOutput.mismatch)
    : outcome (list CSVCompareOutput.mismatch) :=
  for_each common_columns
    (λ column mismatched_rows,
       first_val ← get_value first row column;
       second_val ← get_value second row column;
       if decide (first_val ≠ second_val)
       then Ok (mismatched_rows
                  ++ [CSVCompareOutput.Mismatch row column first_val second_val])
       else Ok mismatched_rows)
    mismatched_rows.

(** [CSVComparer.compare], for a comparer whose two parsers are distinct
    objects. It returns the report and the comparer with both parsers
    re-indexed. [elements] fixes one order for [list(some_set)]; Python
    leaves that order open. *)
Definition compare (self : CSVComparer) (index_column : string)
    : outcome (CSVCompareOutput.t * CSVComparer) :=
  if decide (index_column ∉ column_names (first_file self))
  then Raise (ValueError
         ("Index column '" +:+ index_column
          +:+ "' not found in first file. Available columns: "
          +:+ repr_list (column_names (first_file self))))
  else if decide (index_column ∉ column_names (second_file self))
  then Raise (ValueError
         ("Index column '" +:+ index_column
          +:+ "' not found in second file. Available columns: "
          +:+ repr_list (column_names (second_file self))))
  else
    first ← set_index_column (first_file self) index_column;
    second ← set_index_column (second_file self) index_column;
    let first_cols : gset string := list_to_set (column_names first) in
    let second_cols : gset string := list_to_set (column_names second) in
    let first_rows : gset value :=
      list_to_set (row_values_in_column first index_column) in
    let second_rows : gset value :=
      list_to_set (row_values_in_column second index_column) in
    let extra_cols_in_first_file := elements (first_cols ∖ second_cols) in
    let extra_cols_in_second_file := elements (second_cols ∖ first_cols) in
    let extra_rows_in_first_file := elements (first_rows ∖ second_rows) in
    let extra_rows_in_second_file := elements (second_rows ∖ first_rows) in
    let common_columns := elements (first_cols ∩ second_cols) in
    let common_rows := elements (first_rows ∩ second_rows) in
    mismatched_rows ←
      for_each common_rows (compare_row first second common_columns) [];
    let match_result :=
      negb (any [truthy extra_cols_in_first_file;
                 truthy extra_cols_in_second_file;
                 truthy extra_rows_in_first_file;
                 truthy extra_rows_in_second_file;
                 truthy mismatched_rows]) in
    Ok (CSVCompareOutput.Make match_result
          (file_path first) (file_path second)
          extra_cols_in_first_file extra_cols_in_second_file
          extra_rows_in_first_file extra_rows_in_second_file
          mismatched_rows,
        MkComparer first second).

(** The three factory paths of [CSVParser], as one call. *)
Inductive factory_input : Type :=
  | FromFile (path : string)
  | FromLines (csv_lines : list string)
  | FromText (file_text : string).

Definition construct (input : factory_input) (supplied : option (list value))
    : outcome CSVParser :=
  match input with
  | FromFile path => from_file path supplied
  | FromLines csv_lines => from_lines csv_lines supplied
  | FromText file_text => from_csv_text file_text supplied
  end.

(** ** Notions used in the statements *)

(** The seen set when index [i] is visited: the names written to the
    result at the indices before [i] (each iteration adds to
    [unique_values] exactly the name it leaves in [result]). *)
Definition seen_before (out : list value) (i : nat) : gset value :=
  list_to_set (take i out).

(** Every name already probed for [val] is in the seen set. *)
Definition uv_inv (st : uv_state) : Prop :=
  ∀ val k, 0 < k ≤ suffix_counts st !!! val → suffixed val k ∈ unique_values st.

(** * Properties of [_unique_vals] *)

Global Instance suffixed_inj val : Inj (=) (=) (suffixed val).
Proof.
  intros n m Hnm. unfold suffixed in Hnm.
  injection Hnm as Hnm.
  apply (inj (String.app (py_str val))) in Hnm.
  apply (inj (String.app ".")) in Hnm.
  by apply (inj pretty) in Hnm.
Qed.

Lemma probed_bound val (seen : gset value) c :
  (∀ k, 0 < k ≤ c → suffixed val k ∈ seen) → c ≤ size seen.
Proof.
  intros Hin.
  set (l := suffixed val <$> seq 1 c).
  assert (NoDup l) as Hnd.
  { apply NoDup_fmap_2; [apply _ | apply NoDup_seq]. }
  assert (length l = c) as Hlen.
  { unfold l. by rewrite length_fmap, length_seq. }
  rewrite <- Hlen, <- (size_list_to_set (C := gset value) l Hnd).
  apply subseteq_size. intros x Hx.
  apply elem_of_list_to_set, list_elem_of_fmap in Hx as (k & -> & Hk).
  apply elem_of_seq in Hk. apply Hin. lia.
Qed.

Lemma uv_inv_empty : uv_inv (UvState ∅ ∅).
Proof. intros val k. simpl. rewrite lookup_total_empty. simpl. lia. Qed.

Lemma uv_inv_keep st val :
  uv_inv st → uv_inv (UvState ({[val]} ∪ unique_values st) (suffix_counts st)).
Proof. intros Hinv v k Hk. simpl in *. apply elem_of_union_r. by apply Hinv. Qed.

Lemma uv_inv_bump st val n (seen' : gset value) :
  uv_inv st →
  unique_values st ⊆ seen' →
  (∀ m, 0 < m ≤ n → suffixed val m ∈ seen') →
  uv_inv (UvState seen' (<[val := n]> (suffix_counts st))).
Proof.
  intros Hinv Hsub Hn v k Hk. simpl in *.
  destruct (decide (v = val)) as [->|Hne].
  - rewrite lookup_total_insert_eq in Hk. by apply Hn.
  - rewrite lookup_total_insert_ne in Hk by done. by apply Hsub, Hinv.
Qed.

Lemma rename_loop_spec fuel val st :
  uv_inv st →
  size (unique_values st) < fuel + suffix_counts st !!! val →
  ∃ n, suffix_counts st !!! val < n
    ∧ rename_loop fuel val st =
        Some (suffixed val n,
              UvState ({[suffixed val n]} ∪ unique_values st)
                      (<[val := n]> (suffix_counts st)))
    ∧ (suffixed val n ∉ unique_values st)
    ∧ (∀ m, 0 < m < n → suffixed val m ∈ unique_values st).
Proof.
  revert st. induction fuel as [|fuel IH]; intros [seen counts] Hinv Hfuel; simpl in *.
  - pose proof (probed_bound val seen (counts !!! val) (Hinv val)). lia.
  - rewrite lookup_total_insert_eq.
    destruct (decide (suffixed val (S (counts !!! val)) ∉ seen)) as [Hfree|Hused].
    + exists (S (counts !!! val)). split_and!; [lia | done | done |].
      intros m Hm. apply (Hinv val). simpl. lia.
    + apply dec_stable in Hused.
      destruct (IH (UvState seen (<[val := S (counts !!! val)]> counts)))
        as (n & Hlt & Hrun & Hfree & Hmin); simpl.
      * apply (uv_inv_bump (UvState seen counts)); [done | done |].
        intros m Hm. destruct (decide (m = S (counts !!! val))) as [->|]; [done|].
        apply (Hinv val). simpl. lia.
      * rewrite lookup_total_insert_eq. lia.
      * simpl in *. rewrite lookup_total_insert_eq in Hlt.
        rewrite insert_insert_eq in Hrun.
        exists n. split_and!; [lia | done | done | done].
Qed.

Lemma union_move_singleton (v : value) (X Y : gset value) :
  X ∪ ({[v]} ∪ Y) = {[v]} ∪ X ∪ Y.
Proof. by rewrite (assoc_L (∪)), (comm_L (∪) X). Qed.

Lemma unique_walk_cons val rest st :
  unique_walk (val :: rest) st =
    if decide (val ∉ unique_values st)
    then
      out ← unique_walk rest (UvState ({[val]} ∪ unique_values st) (suffix_counts st));
      Ok (val :: out)
    else
      match rename_loop (S (size (unique_values st))) val st with
      | None => Unfinished
      | Some (new_val, st') => out ← unique_walk rest st'; Ok (new_val :: out)
      end.
Proof. reflexivity. Qed.

Lemma unique_walk_spec values st :
  uv_inv st →
  ∃ out, unique_walk values st = Ok out
    ∧ length out = length values
    ∧ ∀ i val, values !! i = Some val →
        let seen := unique_values st ∪ seen_before out i in
        (val ∉ seen → out !! i = Some val)
        ∧ (val ∈ seen →
            ∃ n, 0 < n ∧ out !! i = Some (suffixed val n)
              ∧ (suffixed val n ∉ seen)
              ∧ ∀ m, 0 < m < n → suffixed val m ∈ seen).
Proof.
  revert st. induction values as [|val rest IH]; intros st Hinv.
  { exists []. split_and!; [done..|]. intros i v Hi. by rewrite lookup_nil in Hi. }
  rewrite unique_walk_cons.
  destruct (decide (val ∉ unique_values st)) as [Hnew|Hold].
  - destruct (IH _ (uv_inv_keep st val Hinv)) as (out & -> & Hlen & Hspec).
    exists (val :: out). split_and!; [done | simpl; by rewrite Hlen |].
    intros [|i] v Hi; simpl in *.
    + injection Hi as <-. unfold seen_before. simpl.
      rewrite (right_id_L ∅ (∪)).
      split; [done|]. intros Hin. by destruct Hnew.
    + specialize (Hspec i v Hi). unfold seen_before in *. simpl.
      rewrite union_move_singleton. exact Hspec.
  - apply dec_stable in Hold.
    destruct (rename_loop_spec (S (size (unique_values st))) val st Hinv)
      as (n & Hlt & -> & Hfree & Hmin); [lia|].
    edestruct (IH (UvState ({[suffixed val n]} ∪ unique_values st)
                   (<[val:=n]> (suffix_counts st)))) as (out & -> & Hlen & Hspec).
    { apply uv_inv_bump; [done | apply union_subseteq_r |].
      intros m Hm. destruct (decide (m = n)) as [->|].
      - apply elem_of_union_l, elem_of_singleton. reflexivity.
      - apply elem_of_union_r, Hmin. lia. }
    exists (suffixed val n :: out).
    split_and!; [done | simpl; by rewrite Hlen |].
    intros [|i] v Hi; simpl in *.
    + injection Hi as <-. unfold seen_before. simpl.
      rewrite (right_id_L ∅ (∪)).
      split; [done|]. intros _. exists n. split_and!; [lia | done | done | done].
    + specialize (Hspec i v Hi). unfold seen_before in *. simpl.
      rewrite union_move_singleton. exact Hspec.
Qed.

Lemma seen_before_mono (out : list value) i j :
  i ≤ j → seen_before out i ⊆ seen_before out j.
Proof.
  intros Hij x. unfold seen_before. rewrite !elem_of_list_to_set.
  intros Hx. apply list_elem_of_lookup in Hx as [n Hn].
  apply lookup_take_Some in Hn as [Hn Hlt].
  apply list_elem_of_lookup. exists n. rewrite lookup_take_lt by lia. done.
Qed.

(** The walk, index by index: an earlier occurrence of a name puts the name
    in the seen set; a name outside the seen set is kept; a name inside it
    is renamed with the least free suffix. *)
Lemma unique_vals_spec (values : list value) :
  ∃ out, _unique_vals values = Ok out
    ∧ length out = length values
    ∧ ∀ i val, values !! i = Some val →
        (val ∈ take i values → val ∈ seen_before out i)
        ∧ (val ∉ seen_before out i → out !! i = Some val)
        ∧ (val ∈ seen_before out i →
            ∃ n, 0 < n ∧ out !! i = Some (suffixed val n)
              ∧ (suffixed val n ∉ seen_before out i)
              ∧ ∀ m, 0 < m < n → suffixed val m ∈ seen_before out i).
Proof.
  destruct (unique_walk_spec values (UvState ∅ ∅) uv_inv_empty)
    as (out & Hrun & Hlen & Hspec).
  assert (∀ i val, values !! i = Some val →
            (val ∉ seen_before out i → out !! i = Some val)
            ∧ (val ∈ seen_before out i →
                ∃ n, 0 < n ∧ out !! i = Some (suffixed val n)
                  ∧ (suffixed val n ∉ seen_before out i)
                  ∧ ∀ m, 0 < m < n → suffixed val m ∈ seen_before out i)) as Hspec'.
  { intros i val Hi. specialize (Hspec i val Hi). simpl in Hspec.
    by rewrite (left_id_L ∅ (∪)) in Hspec. }
  exists out. split_and!; [done | done |].
  intros i val Hi. split; [|by apply Hspec'].
  intros Hrepeat. apply list_elem_of_lookup in Hrepeat as [j Hj].
  apply lookup_take_Some in Hj as [Hj Hlt].
  destruct (Hspec' j val Hj) as [Hkeep _].
  destruct (decide (val ∈ seen_before out j)) as [Hin|Hout].
  - by apply (seen_before_mono out j i); [lia|].
  - unfold seen_before. apply elem_of_list_to_set, list_elem_of_lookup.
    exists j. rewrite lookup_take_lt by done. by apply Hkeep.
Qed.

(** C1, as the code has it. [_unique_vals] always returns, with one name
    per input name. A name that is not in the seen set when it is visited
    is kept as it is; a name that is in the seen set, as every repeat
    occurrence is, is replaced by [f"{name}.{n}"] for the least positive
    [n] whose name is not in the seen set. The two runs [["a","a","a"]] and
    [["a","a.1","a"]] both give [["a","a.1","a.2"]]. *)
Theorem unique_vals_keeps_unseen_renames_seen :
  (∀ values : list value,
    ∃ out, _unique_vals values = Ok out
      ∧ length out = length values
      ∧ ∀ i val, values !! i = Some val →
          (val ∈ take i values → val ∈ seen_before out i)
          ∧ (val ∉ seen_before out i → out !! i = Some val)
          ∧ (val ∈ seen_before out i →
              ∃ n, 0 < n ∧ out !! i = Some (suffixed val n)
                ∧ (suffixed val n ∉ seen_before out i)
                ∧ ∀ m, 0 < m < n → suffixed val m ∈ seen_before out i))
  ∧ _unique_vals [VStr "a"; VStr "a"; VStr "a"]
      = Ok [VStr "a"; VStr "a.1"; VStr "a.2"]
  ∧ _unique_vals [VStr "a"; VStr "a.1"; VStr "a"]
      = Ok [VStr "a"; VStr "a.1"; VStr "a.2"].
Proof.
  split; [apply unique_vals_spec|].
  split; vm_compute; reflexivity.
Qed.

(** ** Consequences for the callers of [_unique_vals] *)

Lemma NoDup_fresh_prefix {A : Type} (l : list A) :
  (∀ i x, l !! i = Some x → x ∉ take i l) → NoDup l.
Proof.
  intros Hfresh. apply NoDup_alt. intros i j x Hi Hj.
  destruct (Nat.lt_trichotomy i j) as [Hlt|[->|Hlt]]; [|done|]; exfalso.
  - apply (Hfresh j x Hj). apply list_elem_of_lookup. exists i.
    by rewrite lookup_take_lt.
  - apply (Hfresh i x Hi). apply list_elem_of_lookup. exists j.
    by rewrite lookup_take_lt.
Qed.

(** [_unique_vals] returns; its result is as long as its argument and has
    no repeated name. *)
Lemma unique_vals_total values :
  ∃ out, _unique_vals values = Ok out
    ∧ length out = length values
    ∧ NoDup out
    ∧ ∀ i val, values !! i = Some val →
        out !! i = Some val ∨ ∃ n, out !! i = Some (suffixed val n).
Proof.
  destruct (unique_walk_spec values (UvState ∅ ∅) uv_inv_empty)
    as (out & Hrun & Hlen & Hspec).
  exists out. split_and!; [done | done | |].
  - apply NoDup_fresh_prefix. intros i x Hi.
    destruct (values !! i) as [val|] eqn:Hval.
    2:{ apply lookup_ge_None in Hval. apply lookup_lt_Some in Hi. lia. }
    destruct (Hspec i val Hval) as [Hkeep Hren]. simpl in *.
    rewrite (left_id_L ∅ (∪)) in Hkeep, Hren. unfold seen_before in *.
    destruct (decide (val ∈ (list_to_set (take i out) : gset value))) as [Hin|Hout].
    + destruct (Hren Hin) as (n & _ & Hn & Hfree & _).
      rewrite Hi in Hn. injection Hn as ->.
      by rewrite elem_of_list_to_set in Hfree.
    + rewrite (Hkeep Hout) in Hi. injection Hi as ->.
      by rewrite elem_of_list_to_set in Hout.
  - intros i val Hval. destruct (Hspec i val Hval) as [Hkeep Hren]. simpl in *.
    destruct (decide (val ∈ ∅ ∪ seen_before out i)) as [Hin|Hout].
    + destruct (Hren Hin) as (n & _ & Hn & _). right. by exists n.
    + left. by apply Hkeep.
Qed.

(** On a list of [str], the names returned are [str]. *)
Lemma unique_vals_of_strs (names : list string) :
  ∃ out : list string,
    _unique_vals (VStr <$> names) = Ok (VStr <$> out)
    ∧ length out = length names ∧ NoDup out.
Proof.
  destruct (unique_vals_total (VStr <$> names)) as (out & Hrun & Hlen & Hnd & Hshape).
  assert (out = VStr <$> (as_str <$> out)) as Hstr.
  { apply list_eq. intros i. rewrite !list_lookup_fmap.
    destruct (out !! i) as [x|] eqn:Hx; [|done]. simpl. f_equal.
    destruct ((VStr <$> names) !! i) as [val|] eqn:Hval.
    2:{ apply lookup_ge_None in Hval. apply lookup_lt_Some in Hx. lia. }
    destruct (Hshape i val Hval) as [Hk|[n Hk]]; rewrite Hx in Hk;
      injection Hk as ->; [|done].
    rewrite list_lookup_fmap in Hval.
    destruct (names !! i); [|done]. by injection Hval as <-. }
  exists (as_str <$> out). split_and!.
  - by rewrite <- Hstr.
  - by rewrite length_fmap, Hlen, length_fmap.
  - rewrite Hstr in Hnd. by apply NoDup_fmap_1 in Hnd.
Qed.

(** ** Row dictionaries *)

Lemma dict_get_setitem_eq (d : Dict.t) k v :
  Dict.get (Dict.setitem d k v) k = Some v.
Proof.
  induction d as [|[k' v'] d IH]; simpl.
  - by rewrite decide_True.
  - destruct (decide (k' = k)) as [->|Hne]; simpl.
    + by rewrite decide_True.
    + by rewrite decide_False.
Qed.

Lemma dict_get_setitem_ne (d : Dict.t) k k' v :
  k ≠ k' → Dict.get (Dict.setitem d k v) k' = Dict.get d k'.
Proof.
  intros Hne. induction d as [|[k0 v0] d IH]; simpl.
  - by rewrite decide_False.
  - destruct (decide (k0 = k)) as [->|Hne0]; simpl.
    + by rewrite !decide_False.
    + by rewrite IH.
Qed.

(** ** The key column *)

Lemma rewrite_index_cells_spec self key rows idx row_vals :
  index_column self = Ok key →
  idx + length rows ≤ length row_vals →
  ∃ rows', rewrite_index_cells self rows idx row_vals = Ok rows'
    ∧ length rows' = length rows
    ∧ ∀ n r', rows' !! n = Some r' →
        ∃ r v, rows !! n = Some r ∧ row_vals !! (idx + n) = Some v
          ∧ r' = DictRow (Dict.setitem (cells r) key v) (restkey r).
Proof.
  intros Hkey. revert idx. induction rows as [|row rows IH]; intros idx Hlen; simpl in *.
  { exists []. split_and!; [done..|]. intros n r' Hn. by rewrite lookup_nil in Hn. }
  destruct (row_vals !! idx) as [v|] eqn:Hv.
  2:{ apply lookup_ge_None in Hv. lia. }
  rewrite Hkey. simpl.
  destruct (IH (S idx)) as (rows' & -> & Hlen' & Hrows); [lia|]. simpl.
  eexists. split_and!; [done | simpl; by rewrite Hlen' |].
  intros [|n] r' Hn; simpl in *.
  - injection Hn as <-. exists row, v. by rewrite Nat.add_0_r.
  - destruct (Hrows n r' Hn) as (r & v' & Hr & Hv' & ->).
    exists r, v'. split_and!; [done | | done].
    by replace (idx + S n) with (S idx + n) by lia.
Qed.

(** What the setter does to a [CSVParser] when the name is a column. *)
Lemma set_index_column_spec self value :
  class_of self = CSVParser_class →
  value ∈ column_names self →
  ∃ key row_vals rows',
    index_column (MkParser (class_of self) (list_of_dicts self) (column_names self)
                    (file_text self) value (file_path self) (_encoding self)) = Ok key
    ∧ _unique_vals (row_values_in_column self value) = Ok row_vals
    ∧ NoDup row_vals
    ∧ length row_vals = length (list_of_dicts self)
    ∧ length rows' = length (list_of_dicts self)
    ∧ (∀ n r', rows' !! n = Some r' →
         ∃ r v, list_of_dicts self !! n = Some r ∧ row_vals !! n = Some v
           ∧ r' = DictRow (Dict.setitem (cells r) key v) (restkey r))
    ∧ set_index_column self value =
        Ok (MkParser (class_of self) rows' (column_names self) (file_text self)
                     value (file_path self) (_encoding self)).
Proof.
  intros Hcls Hin. unfold set_index_column. rewrite Hcls.
  destruct (decide (column_names self = [])) as [Hnil|Hcols].
  { rewrite Hnil in Hin. by apply not_elem_of_nil in Hin. }
  rewrite decide_False by (by intros ?).
  simpl.
  assert (row_values_in_column
            (MkParser CSVParser_class (list_of_dicts self) (column_names self)
               (file_text self) value (file_path self) (_encoding self)) value
          = row_values_in_column self value) as ->.
  { unfold row_values_in_column. simpl. by rewrite Hcls. }
  destruct (unique_vals_total (row_values_in_column self value))
    as (row_vals & Hrun & Hlen & Hnd & _).
  assert (length row_vals = length (list_of_dicts self)) as Hlen'.
  { rewrite Hlen. unfold row_values_in_column. rewrite Hcls.
    rewrite decide_True by done. by rewrite length_fmap. }
  set (self1 := MkParser CSVParser_class (list_of_dicts self) (column_names self)
                  (file_text self) value (file_path self) (_encoding self)).
  assert (∃ key, index_column self1 = Ok key) as [key Hkey].
  { unfold index_column. simpl. destruct (column_names self); [done|]. eauto. }
  destruct (rewrite_index_cells_spec self1 key (list_of_dicts self) 0 row_vals Hkey)
    as (rows' & Hrw & Hlenr & Hrows); [simpl; lia|].
  exists key, row_vals, rows'. rewrite Hrun. simpl.
  split_and!; [done | done | done | done | done | exact Hrows |].
  by rewrite Hrw.
Qed.

(** ** Outcomes *)

Lemma bind_Ok_inv {A B : Type} (m : outcome A) (f : A → outcome B) (b : B) :
  m ≫= f = Ok b → ∃ a, m = Ok a ∧ f a = Ok b.
Proof. destruct m as [a| |]; simpl; [eauto | done | done]. Qed.

Lemma for_each_ok {A S : Type} (xs : list A) (body : A → S → outcome S) (s : S) :
  (∀ x s, ∃ s', body x s = Ok s') → ∃ s', for_each xs body s = Ok s'.
Proof.
  intros Hbody. revert s. induction xs as [|x xs IH]; intros s; simpl; [eauto|].
  destruct (Hbody x s) as [s' ->]. simpl. apply IH.
Qed.

Lemma for_each_unchanged {A S : Type} (xs : list A) (body : A → S → outcome S) (s : S) :
  (∀ x s, body x s = Ok s) → for_each xs body s = Ok s.
Proof.
  intros Hbody. revert s. induction xs as [|x xs IH]; intros s; simpl; [done|].
  rewrite Hbody. simpl. apply IH.
Qed.

(** ** Reading a cell *)

Lemma index_column_ok self :
  class_of self = NullCSVParser_class ∨ column_names self ≠ [] →
  ∃ key, index_column self = Ok key.
Proof.
  intros Hself. unfold index_column.
  destruct (class_of self); [|eauto].
  destruct Hself as [?|Hcols]; [done|].
  destruct (column_names self); [done|eauto].
Qed.

Lemma get_value_ok self k c :
  class_of self = NullCSVParser_class ∨ column_names self ≠ [] →
  ∃ v, get_value self k c = Ok v.
Proof.
  intros Hself. unfold get_value.
  destruct (class_of self) eqn:Hcls; [|eauto].
  destruct (index_column_ok self) as [key ->]; [by rewrite Hcls|]. simpl. eauto.
Qed.

(** ** Setting the key column keeps everything but the rows *)

Lemma set_index_column_frame self value self' :
  set_index_column self value = Ok self' →
  class_of self' = class_of self
  ∧ column_names self' = column_names self
  ∧ file_path self' = file_path self
  ∧ file_text self' = file_text self
  ∧ length (list_of_dicts self') = length (list_of_dicts self).
Proof.
  destruct (class_of self) eqn:Hcls.
  - destruct (decide (value ∈ column_names self)) as [Hin|Hout].
    + destruct (set_index_column_spec self value Hcls Hin)
        as (key & row_vals & rows' & _ & _ & _ & _ & Hlen & _ & ->).
      intros [= <-]. simpl. by rewrite Hcls.
    + unfold set_index_column. rewrite Hcls.
      destruct (decide (column_names self = [])); [done|].
      by rewrite decide_True.
  - unfold set_index_column. rewrite Hcls. by intros [= <-].
Qed.

Lemma set_index_column_ok self value :
  value ∈ column_names self → ∃ self', set_index_column self value = Ok self'.
Proof.
  intros Hin. destruct (class_of self) eqn:Hcls.
  - destruct (set_index_column_spec self value Hcls Hin)
      as (key & row_vals & rows' & _ & _ & _ & _ & _ & _ & ->). eauto.
  - unfold set_index_column. rewrite Hcls. eauto.
Qed.

(** ** [compare] *)

Lemma compare_row_ok first second common_columns row acc :
  (class_of first = NullCSVParser_class ∨ column_names first ≠ []) →
  (class_of second = NullCSVParser_class ∨ column_names second ≠ []) →
  ∃ acc', compare_row first second common_columns row acc = Ok acc'.
Proof.
  intros H1 H2. unfold compare_row. apply for_each_ok. intros column mm.
  destruct (get_value_ok first row column H1) as [v1 ->].
  destruct (get_value_ok second row column H2) as [v2 ->]. simpl.
  destruct (decide (v1 ≠ v2)); eauto.
Qed.

Lemma compare_row_same p common_columns row acc :
  (class_of p = NullCSVParser_class ∨ column_names p ≠ []) →
  compare_row p p common_columns row acc = Ok acc.
Proof.
  intros Hp. unfold compare_row. apply for_each_unchanged. intros column mm.
  destruct (get_value_ok p row column Hp) as [v ->]. simpl.
  by rewrite decide_False by (by intros ?).
Qed.

(** The report of a [compare] that returns, read off its body. *)
Lemma compare_Ok_inv self index_column r self' :
  compare self index_column = Ok (r, self') →
  index_column ∈ column_names (first_file self)
  ∧ index_column ∈ column_names (second_file self)
  ∧ ∃ first second mismatched_rows,
      set_index_column (first_file self) index_column = Ok first
      ∧ set_index_column (second_file self) index_column = Ok second
      ∧ self' = MkComparer first second
      ∧ CSVCompareOutput.extra_cols_in_first_file r =
          elements ((list_to_set (column_names first) : gset string)
                    ∖ list_to_set (column_names second))
      ∧ CSVCompareOutput.extra_cols_in_second_file r =
          elements ((list_to_set (column_names second) : gset string)
                    ∖ list_to_set (column_names first))
      ∧ CSVCompareOutput.extra_rows_in_first_file r =
          elements ((list_to_set (row_values_in_column first index_column) : gset value)
                    ∖ list_to_set (row_values_in_column second index_column))
      ∧ CSVCompareOutput.extra_rows_in_second_file r =
          elements ((list_to_set (row_values_in_column second index_column) : gset value)
                    ∖ list_to_set (row_values_in_column first index_column))
      ∧ CSVCompareOutput.mismatched_rows r = mismatched_rows
      ∧ for_each
          (elements ((list_to_set (row_values_in_column first index_column) : gset value)
                     ∩ list_to_set (row_values_in_column second index_column)))
          (compare_row first second
             (elements ((list_to_set (column_names first) : gset string)
                        ∩ list_to_set (column_names second))))
          [] = Ok mismatched_rows
      ∧ CSVCompareOutput.first_file r = file_path first
      ∧ CSVCompareOutput.second_file r = file_path second
      ∧ CSVCompareOutput.match_result r =
          negb (any [truthy (CSVCompareOutput.extra_cols_in_first_file r);
                     truthy (CSVCompareOutput.extra_cols_in_second_file r);
                     truthy (CSVCompareOutput.extra_rows_in_first_file r);
                     truthy (CSVCompareOutput.extra_rows_in_second_file r);
                     truthy (CSVCompareOutput.mismatched_rows r)]).
Proof.
  unfold compare. intros Hrun.
  destruct (decide (index_column ∉ column_names (first_file self))) as [|H1]; [done|].
  destruct (decide (index_column ∉ column_names (second_file self))) as [|H2]; [done|].
  apply dec_stable in H1, H2.
  apply bind_Ok_inv in Hrun as (first & Hfirst & Hrun).
  apply bind_Ok_inv in Hrun as (second & Hsecond & Hrun).
  apply bind_Ok_inv in Hrun as (mm & Hmm & Hrun).
  injection Hrun as <- <-.
  split_and!; [done | done |].
  exists first, second, mm. by split_and!.
Qed.

Lemma compare_ok self index_column :
  index_column ∈ column_names (first_file self) →
  index_column ∈ column_names (second_file self) →
  ∃ r self', compare self index_column = Ok (r, self').
Proof.
  intros H1 H2. unfold compare.
  rewrite !decide_False by (by intros ?).
  destruct (set_index_column_ok _ _ H1) as [first Hfirst].
  destruct (set_index_column_ok _ _ H2) as [second Hsecond].
  rewrite Hfirst, Hsecond. simpl.
  destruct (set_index_column_frame _ _ _ Hfirst) as (_ & Hc1 & _).
  destruct (set_index_column_frame _ _ _ Hsecond) as (_ & Hc2 & _).
  edestruct (for_each_ok
    (elements ((list_to_set (row_values_in_column first index_column) : gset value)
               ∩ list_to_set (row_values_in_column second index_column)))
    (compare_row first second
       (elements ((list_to_set (column_names first) : gset string)
                  ∩ list_to_set (column_names second)))) []) as [mm Hmm].
  { intros row acc. apply compare_row_ok; right.
    - rewrite Hc1. intros Hnil. rewrite Hnil in H1. by apply not_elem_of_nil in H1.
    - rewrite Hc2. intros Hnil. rewrite Hnil in H2. by apply not_elem_of_nil in H2. }
  rewrite Hmm. simpl. eauto.
Qed.

(** C2. In every report [compare] returns, [match_result] is true exactly
    when the two extra-column lists, the two extra-row lists and the list
    of mismatches are all empty. *)
Theorem compare_match_result_iff_all_empty self index_column r self' :
  compare self index_column = Ok (r, self') →
  CSVCompareOutput.match_result r = true
  ↔ CSVCompareOutput.extra_cols_in_first_file r = []
    ∧ CSVCompareOutput.extra_cols_in_second_file r = []
    ∧ CSVCompareOutput.extra_rows_in_first_file r = []
    ∧ CSVCompareOutput.extra_rows_in_second_file r = []
    ∧ CSVCompareOutput.mismatched_rows r = [].
Proof.
  intros Hrun. apply compare_Ok_inv in Hrun
    as (_ & _ & first & second & mm & _ & _ & _ & _ & _ & _ & _ & _ & _ & _ & _ & ->).
  destruct (CSVCompareOutput.extra_cols_in_first_file r),
    (CSVCompareOutput.extra_cols_in_second_file r),
    (CSVCompareOutput.extra_rows_in_first_file r),
    (CSVCompareOutput.extra_rows_in_second_file r),
    (CSVCompareOutput.mismatched_rows r); simpl;
    (split; [intros Htrue | intros (? & ? & ? & ? & ?)]; done).
Qed.

(** C3. [compare] raises exactly when the key column is missing from the
    first or from the second parser's columns. The error is a [ValueError]
    whose message names the side (the first one when both lack the column)
    and lists that side's columns. When the column is in both, [compare]
    returns a report. *)
Theorem compare_raises_iff_key_missing self index_column :
  (index_column ∉ column_names (first_file self) →
     compare self index_column =
       Raise (ValueError
         ("Index column '" +:+ index_column
          +:+ "' not found in first file. Available columns: "
          +:+ repr_list (column_names (first_file self)))))
  ∧ (index_column ∈ column_names (first_file self) →
     index_column ∉ column_names (second_file self) →
     compare self index_column =
       Raise (ValueError
         ("Index column '" +:+ index_column
          +:+ "' not found in second file. Available columns: "
          +:+ repr_list (column_names (second_file self)))))
  ∧ (index_column ∈ column_names (first_file self) →
     index_column ∈ column_names (second_file self) →
     ∃ r self', compare self index_column = Ok (r, self'))
  ∧ ((∃ e, compare self index_column = Raise e)
     ↔ index_column ∉ column_names (first_file self)
       ∨ index_column ∉ column_names (second_file self)).
Proof.
  assert (index_column ∉ column_names (first_file self) →
          compare self index_column =
            Raise (ValueError
              ("Index column '" +:+ index_column
               +:+ "' not found in first file. Available columns: "
               +:+ repr_list (column_names (first_file self))))) as Hfirst.
  { intros H1. unfold compare. by rewrite decide_True. }
  assert (index_column ∈ column_names (first_file self) →
          index_column ∉ column_names (second_file self) →
          compare self index_column =
            Raise (ValueError
              ("Index column '" +:+ index_column
               +:+ "' not found in second file. Available columns: "
               +:+ repr_list (column_names (second_file self))))) as Hsecond.
  { intros H1 H2. unfold compare.
    rewrite decide_False by (by intros ?). by rewrite decide_True. }
  split_and!; [done | done | apply compare_ok |].
  split.
  - intros [e He].
    destruct (decide (index_column ∈ column_names (first_file self))) as [H1|]; [|by left].
    destruct (decide (index_column ∈ column_names (second_file self))) as [H2|]; [|by right].
    destruct (compare_ok self index_column H1 H2) as (r & self' & Hok). congruence.
  - intros [H1|H2].
    + rewrite (Hfirst H1). eauto.
    + destruct (decide (index_column ∈ column_names (first_file self))) as [H1|H1].
      * rewrite (Hsecond H1 H2). eauto.
      * rewrite (Hfirst H1). eauto.
Qed.

(** C4. In every report [compare] returns, the extra columns of the first
    file are the columns of the first parser that the second one lacks, the
    extra columns of the second file are the columns of the second parser
    that the first one lacks, each list names a column once, and no column
    is in both lists. *)
Theorem compare_extra_cols_are_set_differences self index_column r self' :
  compare self index_column = Ok (r, self') →
  (∀ c, c ∈ CSVCompareOutput.extra_cols_in_first_file r
        ↔ c ∈ column_names (first_file self) ∧ c ∉ column_names (second_file self))
  ∧ (∀ c, c ∈ CSVCompareOutput.extra_cols_in_second_file r
        ↔ c ∈ column_names (second_file self) ∧ c ∉ column_names (first_file self))
  ∧ NoDup (CSVCompareOutput.extra_cols_in_first_file r)
  ∧ NoDup (CSVCompareOutput.extra_cols_in_second_file r)
  ∧ (∀ c, c ∈ CSVCompareOutput.extra_cols_in_first_file r →
          c ∉ CSVCompareOutput.extra_cols_in_second_file r).
Proof.
  intros Hrun. apply compare_Ok_inv in Hrun
    as (_ & _ & first & second & mm & Hfirst & Hsecond & _ & -> & -> & _).
  destruct (set_index_column_frame _ _ _ Hfirst) as (_ & -> & _).
  destruct (set_index_column_frame _ _ _ Hsecond) as (_ & -> & _).
  split_and!.
  - intros c. by rewrite elem_of_elements, elem_of_difference, !elem_of_list_to_set.
  - intros c. by rewrite elem_of_elements, elem_of_difference, !elem_of_list_to_set.
  - apply NoDup_elements.
  - apply NoDup_elements.
  - intros c. rewrite !elem_of_elements, !elem_of_difference.
    by intros [_ Hout] [Hin _].
Qed.

(** ** The factories *)

Lemma as_str_VStr (names : list value) :
  forallb is_str names = true → VStr <$> (as_str <$> names) = names.
Proof.
  induction names as [|name names IH]; [done|].
  intros Hall. simpl in Hall. apply andb_prop in Hall as [Hname Hall].
  rewrite !fmap_cons, (IH Hall). by destruct name.
Qed.

Lemma header_names_NoDup file_text names :
  _get_column_names_from_header_row file_text = Ok names → NoDup names.
Proof.
  unfold _get_column_names_from_header_row, stream_end.
  destruct (stream_lines (csv_reader file_text)) as [|header_row rest].
  { destruct (stream_error (csv_reader file_text)); [done|].
    intros [= <-]. apply NoDup_nil_2. }
  destruct (unique_vals_of_strs header_row) as (out & -> & _ & Hnd). simpl.
  intros [= <-]. rewrite <- list_fmap_compose.
  by rewrite (list_fmap_ext (as_str ∘ VStr) id out), list_fmap_id.
Qed.

Lemma from_csv_text_columns file_text supplied d :
  from_csv_text file_text supplied = Ok d →
  (supplied = None ∨ supplied = Some [] → NoDup (column_names d))
  ∧ (∀ names, supplied = Some names → names ≠ [] →
       VStr <$> column_names d = names).
Proof.
  unfold from_csv_text. intros Hrun.
  destruct supplied as [[|name names]|].
  - apply bind_Ok_inv in Hrun as (header_names & Hhead & Hrun).
    apply bind_Ok_inv in Hrun as (rows & _ & [= <-]). simpl.
    split; [intros _; by eapply header_names_NoDup|]. intros names [= Hs] Hne. by destruct Hne.
  - destruct (forallb is_str (name :: names)) eqn:Hall; [|done].
    apply bind_Ok_inv in Hrun as (rows & _ & [= <-]). simpl. split; [by intros [|]|].
    intros ? [= <-] _. by apply (as_str_VStr (name :: names)).
  - apply bind_Ok_inv in Hrun as (header_names & Hhead & Hrun).
    apply bind_Ok_inv in Hrun as (rows & _ & [= <-]). simpl.
    split; [intros _; by eapply header_names_NoDup|]. done.
Qed.

Lemma construct_columns input supplied d :
  construct input supplied = Ok d →
  ∃ file_text d0, from_csv_text file_text supplied = Ok d0
    ∧ column_names d = column_names d0
    ∧ list_of_dicts d = list_of_dicts d0
    ∧ class_of d = class_of d0.
Proof.
  destruct input as [path|csv_lines|file_text]; simpl.
  - unfold from_file. destruct (negb (os_path_isfile path)); [done|].
    intros Hrun.
    apply bind_Ok_inv in Hrun as (encoding & _ & Hrun).
    apply bind_Ok_inv in Hrun as (text & _ & Hrun).
    apply bind_Ok_inv in Hrun as (d0 & Hd0 & [= <-]).
    by exists text, d0.
  - unfold from_lines. intros Hrun.
    apply bind_Ok_inv in Hrun as (d0 & Hd0 & [= <-]).
    by exists (String.concat newline csv_lines), d0.
  - intros Hrun. by exists file_text, d.
Qed.

(** C6, as the code has it. A parser built by one of the three factories
    with no column names supplied ([None] or the empty list) has no
    repeated name in [column_names]; with a non-empty list supplied,
    [column_names] is that list, as given. *)
Theorem constructed_columns_unique_unless_supplied input supplied d :
  construct input supplied = Ok d →
  (supplied = None ∨ supplied = Some [] → NoDup (column_names d))
  ∧ (∀ names, supplied = Some names → names ≠ [] →
       VStr <$> column_names d = names).
Proof.
  intros Hrun.
  destruct (construct_columns input supplied d Hrun) as (text & d0 & Hd0 & -> & _).
  by apply (from_csv_text_columns text).
Qed.

(** ** Comparing a parser with its twin *)

Lemma compare_twins d index_column :
  index_column ∈ column_names d →
  ∃ r self', compare (from_csv_parsers d d) index_column = Ok (r, self')
    ∧ CSVCompareOutput.match_result r = true
    ∧ CSVCompareOutput.extra_cols_in_first_file r = []
    ∧ CSVCompareOutput.extra_cols_in_second_file r = []
    ∧ CSVCompareOutput.extra_rows_in_first_file r = []
    ∧ CSVCompareOutput.extra_rows_in_second_file r = []
    ∧ CSVCompareOutput.mismatched_rows r = [].
Proof.
  intros Hin.
  destruct (compare_ok (from_csv_parsers d d) index_column Hin Hin) as (r & self' & Hrun).
  exists r, self'. split; [done|].
  pose proof (compare_match_result_iff_all_empty _ _ _ _ Hrun) as Hmatch.
  apply compare_Ok_inv in Hrun
    as (_ & _ & first & second & mm & Hfirst & Hsecond & _
        & Hc1 & Hc2 & Hr1 & Hr2 & Hmm & Hloop & _).
  simpl in Hfirst, Hsecond. rewrite Hfirst in Hsecond. injection Hsecond as <-.
  rewrite difference_diag_L, elements_empty in Hc1.
  rewrite difference_diag_L, elements_empty in Hc2.
  rewrite difference_diag_L, elements_empty in Hr1.
  rewrite difference_diag_L, elements_empty in Hr2.
  destruct (set_index_column_frame _ _ _ Hfirst) as (_ & Hcols & _).
  rewrite for_each_unchanged in Hloop.
  2:{ intros row acc. apply compare_row_same. right. rewrite Hcols.
      intros Hnil. rewrite Hnil in Hin. by apply not_elem_of_nil in Hin. }
  injection Hloop as <-.
  assert (CSVCompareOutput.match_result r = true) by (by apply Hmatch).
  by split_and!.
Qed.

(** C7. Two parsers built by the same factory call (the same input, the
    same supplied names), compared on a column of theirs: [compare]
    returns, [match_result] is true, and the four difference lists and the
    mismatch list are empty. *)
Theorem compare_same_input_matches input supplied d1 d2 index_column :
  construct input supplied = Ok d1 →
  construct input supplied = Ok d2 →
  index_column ∈ column_names d1 →
  ∃ r self', compare (from_csv_parsers d1 d2) index_column = Ok (r, self')
    ∧ CSVCompareOutput.match_result r = true
    ∧ CSVCompareOutput.extra_cols_in_first_file r = []
    ∧ CSVCompareOutput.extra_cols_in_second_file r = []
    ∧ CSVCompareOutput.extra_rows_in_first_file r = []
    ∧ CSVCompareOutput.extra_rows_in_second_file r = []
    ∧ CSVCompareOutput.mismatched_rows r = [].
Proof.
  intros H1 H2 Hin. rewrite H1 in H2. injection H2 as <-.
  by apply compare_twins.
Qed.

(** ** Reading a cell, continued *)

Lemma get_rows_nil_of_no_match self key k :
  (∀ row, row ∈ list_of_dicts self → row_get row key ≠ k) →
  get_rows self key k = [].
Proof.
  intros Hno. unfold get_rows. case_decide; [|done].
  induction (list_of_dicts self) as [|row rows IH]; [done|].
  rewrite filter_cons_False.
  - apply IH. intros r Hr. apply Hno. by apply list_elem_of_further.
  - apply Hno. apply list_elem_of_here.
Qed.

(** C8, as the code has it. On a parser with at least one column, and on
    the null parser, [get_value] returns. It returns the empty text when
    no row has the key value in the current key column, and when the row
    it finds has no cell for the column asked. On a [CSVParser] with no
    column, [get_value] raises the getter's [ValueError], whatever the key
    value and the column asked. *)
Theorem get_value_returns_when_columns self k column_name :
  (class_of self = NullCSVParser_class ∨ column_names self ≠ [] →
   ∃ v, get_value self k column_name = Ok v
     ∧ (∀ key, index_column self = Ok key →
          (∀ row, row ∈ list_of_dicts self → row_get row key ≠ k) → v = VStr "")
     ∧ (∀ key, index_column self = Ok key →
          Dict.get (cells (get_row self key k)) column_name = None → v = VStr ""))
  ∧ (class_of self = CSVParser_class → column_names self = [] →
     get_value self k column_name
     = Raise (ValueError "No columns available to set or get the index column")).
Proof.
  split.
  - intros Hself. unfold get_value.
    destruct (class_of self) eqn:Hcls.
    + destruct (index_column_ok self) as [key Hkey]; [by rewrite Hcls|].
      rewrite Hkey. simpl. eexists. split; [done|]. split.
      * intros key' [= <-] Hno. unfold get_row.
        by rewrite get_rows_nil_of_no_match.
      * intros key' [= <-] Hnone. unfold row_get_default. by rewrite Hnone.
    + exists (VStr ""). by split_and!.
  - intros Hcls Hcols. unfold get_value, index_column. by rewrite Hcls, Hcols.
Qed.

(** C9. On a null parser every mutating method returns the object as it
    was and every read returns an empty value; the null parser as
    constructed has the origin ["null"], and its key-column getter returns
    the empty text. *)
Theorem null_parser_is_inert :
  (∀ p, class_of p = NullCSVParser_class →
     strip_whitespace p = p
     ∧ (∀ column_name func, apply_transform p column_name func = Ok p)
     ∧ (∀ names, drop_columns p names = p)
     ∧ (∀ predicate, drop_rows_by p predicate = Ok p)
     ∧ (∀ column_name row_values, drop_rows p column_name row_values = Ok p)
     ∧ (∀ k column_name new_value, set_value p k column_name new_value = Ok p)
     ∧ (∀ value, set_index_column p value = Ok p)
     ∧ write_to_file p = Ok None
     ∧ (∀ column_name, row_values_in_column p column_name = [])
     ∧ (∀ k column_name, get_value p k column_name = Ok (VStr ""))
     ∧ index_column p = Ok (_index_column p))
  ∧ class_of NullCSVParser_init = NullCSVParser_class
  ∧ list_of_dicts NullCSVParser_init = []
  ∧ column_names NullCSVParser_init = []
  ∧ file_path NullCSVParser_init = "null"
  ∧ index_column NullCSVParser_init = Ok "".
Proof.
  split; [|by split_and!].
  intros p Hcls.
  unfold strip_whitespace, apply_transform, drop_columns, drop_rows_by, drop_rows,
    set_value, set_index_column, write_to_file, row_values_in_column, get_value,
    index_column.
  rewrite Hcls. by split_and!.
Qed.

(** ** The key column, continued *)

(** When the name passed to the setter is the name the getter then returns
    (any non-empty name, or the first column), the setter leaves pairwise
    distinct values in that column. *)
Lemma set_index_column_values_unique self value self' :
  class_of self = CSVParser_class →
  value ∈ column_names self →
  value ≠ "" ∨ head (column_names self) = Some value →
  set_index_column self value = Ok self' →
  NoDup (row_values_in_column self' value).
Proof.
  intros Hcls Hin Hname Hrun.
  destruct (set_index_column_spec self value Hcls Hin)
    as (key & row_vals & rows' & Hkey & _ & Hnd & Hlenv & Hlenr & Hrows & Hset).
  rewrite Hset in Hrun. injection Hrun as <-.
  assert (key = value) as ->.
  { unfold index_column in Hkey. simpl in Hkey. rewrite Hcls in Hkey.
    destruct (column_names self) as [|first_column rest]; [done|].
    injection Hkey as <-. case_decide; [|done].
    destruct Hname as [?|[= ->]]; done. }
  assert (row_values_in_column
            (MkParser (class_of self) rows' (column_names self) (file_text self)
               value (file_path self) (_encoding self)) value = row_vals) as ->; [|done].
  unfold row_values_in_column. simpl. rewrite Hcls, decide_True by done.
  apply list_eq. intros n. rewrite list_lookup_fmap.
  destruct (rows' !! n) as [r'|] eqn:Hr'; simpl.
  - destruct (Hrows n r' Hr') as (r & v & _ & Hv & ->).
    unfold row_get_default. simpl. by rewrite dict_get_setitem_eq.
  - symmetry. apply lookup_ge_None. apply lookup_ge_None in Hr'. lia.
Qed.

(** ** Dict comprehensions *)

Lemma dict_keys_setitem (d : Dict.t) k v :
  Dict.keys (Dict.setitem d k v) =
    if decide (k ∈ Dict.keys d) then Dict.keys d else Dict.keys d ++ [k].
Proof.
  unfold Dict.keys. induction d as [|[k' v'] d IH]; csimpl.
  - done.
  - destruct (decide (k' = k)) as [->|Hne]; csimpl.
    + destruct (decide (k ∈ k :: d.*1)) as [Hin|Hout]; [done|].
      destruct Hout. apply list_elem_of_here.
    + rewrite IH.
      destruct (decide (k ∈ d.*1)) as [Hin|Hout];
        destruct (decide (k ∈ k' :: d.*1)) as [Hin'|Hout']; try done.
      * destruct Hout'. by apply list_elem_of_further.
      * apply elem_of_cons in Hin' as [->|?]; done.
Qed.

Lemma dict_length_keys (d : Dict.t) : length (Dict.keys d) = length d.
Proof. unfold Dict.keys. apply length_fmap. Qed.

Lemma dict_keys_foldl_NoDup (items : list (string * value)) (d : Dict.t) :
  NoDup (Dict.keys d) →
  NoDup (Dict.keys (foldl (λ d kv, Dict.setitem d kv.1 kv.2) d items)).
Proof.
  revert d. induction items as [|[k v] items IH]; intros d Hd; simpl; [done|].
  apply IH. rewrite dict_keys_setitem. case_decide; [done|].
  apply NoDup_app. split_and!; [done | | apply NoDup_singleton].
  intros x Hx ->%list_elem_of_singleton. done.
Qed.

Lemma dict_keys_foldl_mono (items : list (string * value)) (d : Dict.t) k :
  k ∈ Dict.keys d ∨ k ∈ items.*1 →
  k ∈ Dict.keys (foldl (λ d kv, Dict.setitem d kv.1 kv.2) d items).
Proof.
  revert d. induction items as [|[k' v'] items IH]; intros d Hk; simpl.
  { destruct Hk as [?|Hk]; [done|]. by apply not_elem_of_nil in Hk. }
  apply IH. rewrite dict_keys_setitem. simpl in *.
  destruct Hk as [Hk|[->|Hk]%elem_of_cons].
  - left. case_decide; [done|]. apply elem_of_app. by left.
  - left. case_decide; [done|]. apply elem_of_app. right. apply list_elem_of_here.
  - by right.
Qed.

Lemma dict_length_foldl (items : list (string * value)) (d : Dict.t) :
  length (foldl (λ d kv, Dict.setitem d kv.1 kv.2) d items) ≤ length d + length items.
Proof.
  revert d. induction items as [|[k v] items IH]; intros d; simpl; [lia|].
  specialize (IH (Dict.setitem d k v)).
  pose proof (dict_keys_setitem d k v) as Hkeys.
  apply (f_equal length) in Hkeys. rewrite dict_length_keys in Hkeys.
  destruct (decide (k ∈ Dict.keys d));
    rewrite ?length_app, dict_length_keys in Hkeys; simpl in Hkeys; lia.
Qed.

Lemma dict_get_foldl_other (items : list (string * value)) (d : Dict.t) k :
  (∀ kv, kv ∈ items → kv.1 ≠ k) →
  Dict.get (foldl (λ d kv, Dict.setitem d kv.1 kv.2) d items) k = Dict.get d k.
Proof.
  revert d. induction items as [|[k' v'] items IH]; intros d Hne; simpl; [done|].
  rewrite IH.
  - apply dict_get_setitem_ne. apply (Hne (k', v')). apply list_elem_of_here.
  - intros kv Hkv. apply Hne. by apply list_elem_of_further.
Qed.

(** In a dict built from [items], a key holds the value of its last item. *)
Lemma dict_get_of_items_last pre k v post :
  (∀ kv, kv ∈ post → kv.1 ≠ k) →
  Dict.get (Dict.of_items (pre ++ (k, v) :: post)) k = Some v.
Proof.
  intros Hpost. unfold Dict.of_items. rewrite foldl_app. simpl.
  rewrite dict_get_foldl_other by done. apply dict_get_setitem_eq.
Qed.

(** Two items with one key leave fewer entries than items. *)
Lemma dict_length_of_items_collision pre k v post :
  k ∈ pre.*1 →
  length (Dict.of_items (pre ++ (k, v) :: post)) < length (pre ++ (k, v) :: post).
Proof.
  intros Hk. unfold Dict.of_items. rewrite foldl_app. simpl.
  set (d1 := foldl (λ d kv, Dict.setitem d kv.1 kv.2) [] pre).
  assert (k ∈ Dict.keys d1) as Hin by (apply dict_keys_foldl_mono; by right).
  pose proof (dict_length_foldl pre []) as Hd1. fold d1 in Hd1. simpl in Hd1.
  pose proof (dict_length_foldl post (Dict.setitem d1 k v)) as Hd2.
  pose proof (dict_keys_setitem d1 k v) as Hkeys.
  rewrite decide_True in Hkeys by done.
  apply (f_equal length) in Hkeys. rewrite !dict_length_keys in Hkeys.
  rewrite length_app. simpl. lia.
Qed.

(** C10, as the code has it. Let two columns have different names that
    strip to the same name. After [strip_whitespace] the column list holds
    the stripped name at both places, so it has a repeated name. In a row
    that has a cell for the first column and whose cell for the second
    column is its last cell whose name strips to that name, the two cells
    become one, under the stripped name, holding the stripped value of the
    second column's cell. *)
Theorem strip_whitespace_merges_colliding_columns self i j c1 c2 :
  class_of self = CSVParser_class →
  column_names self !! i = Some c1 →
  column_names self !! j = Some c2 →
  i < j → c1 ≠ c2 → strip c1 = strip c2 →
  column_names (strip_whitespace self) !! i = Some (strip c1)
  ∧ column_names (strip_whitespace self) !! j = Some (strip c1)
  ∧ ¬ NoDup (column_names (strip_whitespace self))
  ∧ ∀ n r pre v2 post,
      list_of_dicts self !! n = Some r →
      c1 ∈ Dict.keys (cells r) →
      cells r = pre ++ (c2, v2) :: post →
      (∀ kv, kv ∈ post → strip kv.1 ≠ strip c2) →
      ∃ r', list_of_dicts (strip_whitespace self) !! n = Some r'
        ∧ Dict.get (cells r') (strip c1) = Some (strip_value v2)
        ∧ NoDup (Dict.keys (cells r'))
        ∧ length (cells r') < length (cells r).
Proof.
  intros Hcls Hi Hj Hij Hne Hstrip. unfold strip_whitespace. rewrite Hcls. simpl.
  assert ((strip <$> column_names self) !! i = Some (strip c1)) as Hi'.
  { by rewrite list_lookup_fmap, Hi. }
  assert ((strip <$> column_names self) !! j = Some (strip c1)) as Hj'.
  { by rewrite list_lookup_fmap, Hj, Hstrip. }
  split_and!; [done | done | |].
  { intros Hnd. pose proof (NoDup_lookup _ _ _ _ Hnd Hi' Hj'). lia. }
  intros n r pre v2 post Hr Hc1 Hcells Hpost.
  exists (strip_row r). split_and!.
  - by rewrite list_lookup_fmap, Hr.
  - unfold strip_row. simpl. rewrite Hcells, fmap_app, fmap_cons. simpl.
    rewrite Hstrip. apply dict_get_of_items_last.
    intros kv Hkv. apply list_elem_of_fmap in Hkv as (kv' & -> & Hkv'). simpl.
    by apply Hpost.
  - unfold strip_row. simpl. apply dict_keys_foldl_NoDup. apply NoDup_nil_2.
  - unfold strip_row. simpl. rewrite Hcells, fmap_app, fmap_cons. simpl.
    rewrite <- (length_fmap (λ kv : string * value, (strip kv.1, strip_value kv.2))
                  (pre ++ (c2, v2) :: post)).
    rewrite fmap_app, fmap_cons. simpl.
    apply dict_length_of_items_collision.
    rewrite Hcells in Hc1. unfold Dict.keys in Hc1.
    rewrite fmap_app, fmap_cons in Hc1. simpl in Hc1.
    apply elem_of_app in Hc1 as [Hc1|[Heq|Hc1]%elem_of_cons].
    + rewrite <- Hstrip. apply list_elem_of_fmap in Hc1 as (kv & -> & Hkv).
      apply list_elem_of_fmap. exists (strip kv.1, strip_value kv.2).
      split; [done|]. apply list_elem_of_fmap. by exists kv.
    + done.
    + apply list_elem_of_fmap in Hc1 as (kv & -> & Hkv).
      by destruct (Hpost kv Hkv).
Qed.

(** * Further properties

    ** [_unique_vals], continued *)

(** X1. [_unique_vals] returns for every list; the result has one name per
    input name, no name twice, and each name is the input name or the input
    name with a numeric suffix. *)
Theorem unique_vals_distinct_names (values : list value) :
  ∃ out, _unique_vals values = Ok out
    ∧ length out = length values
    ∧ NoDup out
    ∧ ∀ i val, values !! i = Some val →
        out !! i = Some val ∨ ∃ n, 0 < n ∧ out !! i = Some (suffixed val n).
Proof.
  destruct (unique_vals_total values) as (out & Hrun & Hlen & Hnd & _).
  destruct (unique_vals_spec values) as (out' & Hrun' & _ & Hspec).
  rewrite Hrun in Hrun'. injection Hrun' as <-.
  exists out. split_and!; [done..|].
  intros i val Hi. destruct (Hspec i val Hi) as (_ & Hkeep & Hren).
  destruct (decide (val ∈ seen_before out i)) as [Hin|Hout].
  - right. destruct (Hren Hin) as (n & Hn & Hout & _). eauto.
  - left. by apply Hkeep.
Qed.

Lemma unique_vals_NoDup_id (values : list value) :
  NoDup values → _unique_vals values = Ok values.
Proof.
  intros Hnd. destruct (unique_vals_spec values) as (out & Hrun & Hlen & Hspec).
  rewrite Hrun. f_equal.
  assert (∀ i, i ≤ length values → take i out = take i values) as Htake.
  { induction i as [|i IH]; intros Hi; [done|].
    destruct (lookup_lt_is_Some_2 values i) as [val Hval]; [lia|].
    rewrite (take_S_r values i val Hval), (take_S_r out i val).
    - by rewrite IH by lia.
    - apply (Hspec i val Hval). unfold seen_before. rewrite IH by lia.
      rewrite elem_of_list_to_set. intros Hin.
      apply list_elem_of_lookup in Hin as [j Hj].
      apply lookup_take_Some in Hj as [Hj Hlt].
      pose proof (NoDup_lookup _ _ _ _ Hnd Hj Hval). lia. }
  specialize (Htake (length values) (reflexivity _)).
  by rewrite (take_ge out), (take_ge values) in Htake by lia.
Qed.

(** X2. De-duplication changes nothing in a list without repeated names,
    so running it on its own result gives that result again. *)
Theorem unique_vals_idempotent (values out : list value) :
  _unique_vals values = Ok out → _unique_vals out = Ok out.
Proof.
  intros Hrun. destruct (unique_vals_total values) as (out' & Hrun' & _ & Hnd & _).
  rewrite Hrun in Hrun'. injection Hrun' as <-.
  by apply unique_vals_NoDup_id.
Qed.

(** ** The key column: errors, frame, stability *)

Lemma dict_setitem_same (d : Dict.t) k v :
  Dict.get d k = Some v → Dict.setitem d k v = d.
Proof.
  induction d as [|[k' v'] d IH]; simpl; [done|].
  destruct (decide (k' = k)) as [->|Hne].
  - by intros [= ->].
  - intros Hget. by rewrite IH.
Qed.

(** The setter as a function of the rows, when the name it is given is
    the name its loop writes to. *)
Lemma set_index_column_rows self value self' :
  class_of self = CSVParser_class →
  value ≠ "" ∨ head (column_names self) = Some value →
  set_index_column self value = Ok self' →
  value ∈ column_names self
  ∧ ∃ row_vals,
      _unique_vals (row_values_in_column self value) = Ok row_vals
      ∧ NoDup row_vals
      ∧ length row_vals = length (list_of_dicts self)
      ∧ self' =
          MkParser (class_of self)
            (zip_with (λ r v, DictRow (Dict.setitem (cells r) value v) (restkey r))
                      (list_of_dicts self) row_vals)
            (column_names self) (file_text self) value (file_path self)
            (_encoding self).
Proof.
  intros Hcls Hname Hrun.
  assert (value ∈ column_names self) as Hin.
  { destruct (decide (value ∈ column_names self)) as [|Hout]; [done|].
    unfold set_index_column in Hrun. rewrite Hcls in Hrun.
    destruct (decide (column_names self = [])); [done|].
    by rewrite decide_True in Hrun. }
  split; [done|].
  destruct (set_index_column_spec self value Hcls Hin)
    as (key & row_vals & rows' & Hkey & Hvals & Hnd & Hlenv & Hlenr & Hrows & Hset).
  rewrite Hset in Hrun. injection Hrun as <-.
  assert (key = value) as ->.
  { unfold index_column in Hkey. simpl in Hkey. rewrite Hcls in Hkey.
    destruct (column_names self) as [|first_column rest]; [done|].
    injection Hkey as <-. case_decide; [|done].
    destruct Hname as [?|[= ->]]; done. }
  exists row_vals. split_and!; [done..|]. f_equal.
  apply list_eq. intros n. rewrite lookup_zip_with.
  destruct (rows' !! n) as [r'|] eqn:Hr'.
  - destruct (Hrows n r' Hr') as (r & v & -> & -> & ->). done.
  - apply lookup_ge_None in Hr'.
    destruct (list_of_dicts self !! n) eqn:Hr; [|done].
    apply lookup_lt_Some in Hr. lia.
Qed.

(** X3. On a [CSVParser] the key-column setter returns exactly when the
    name is one of the columns. With no column at all it raises the state
    error; with columns but not this one it raises the error that quotes
    the name. *)
Theorem set_index_column_returns_iff_column self value :
  class_of self = CSVParser_class →
  (column_names self = [] →
     set_index_column self value
       = Raise (ValueError "No columns available to set the index column"))
  ∧ (column_names self ≠ [] → value ∉ column_names self →
       set_index_column self value
         = Raise (ValueError ("Column '" +:+ value +:+ "' not found in column names")))
  ∧ (value ∈ column_names self → ∃ self', set_index_column self value = Ok self')
  ∧ ((∃ self', set_index_column self value = Ok self') → value ∈ column_names self).
Proof.
  intros Hcls. split_and!.
  - intros Hnil. unfold set_index_column. by rewrite Hcls, decide_True.
  - intros Hcols Hout. unfold set_index_column.
    by rewrite Hcls, decide_False, decide_True.
  - apply set_index_column_ok.
  - intros [self' Hrun].
    destruct (decide (value ∈ column_names self)) as [|Hout]; [done|].
    unfold set_index_column in Hrun. rewrite Hcls in Hrun.
    destruct (decide (column_names self = [])); [done|].
    by rewrite decide_True in Hrun.
Qed.

(** X5. Setting the key column to a non-empty name (or to the first
    column) changes nothing but the cell under that name in each row: the
    columns, the number of rows, every other cell and the surplus fields
    stay, the getter then returns the name, and each key cell holds its old
    value or that value with a numeric suffix. *)
Theorem set_index_column_changes_key_cells_only self value self' :
  class_of self = CSVParser_class →
  value ≠ "" ∨ head (column_names self) = Some value →
  set_index_column self value = Ok self' →
  index_column self' = Ok value
  ∧ column_names self' = column_names self
  ∧ length (list_of_dicts self') = length (list_of_dicts self)
  ∧ ∀ n r', list_of_dicts self' !! n = Some r' →
      ∃ r, list_of_dicts self !! n = Some r
        ∧ restkey r' = restkey r
        ∧ (∀ c, c ≠ value → Dict.get (cells r') c = Dict.get (cells r) c)
        ∧ (row_get_default r' value (VStr "") = row_get_default r value (VStr "")
           ∨ ∃ m, row_get_default r' value (VStr "")
                  = suffixed (row_get_default r value (VStr "")) m).
Proof.
  intros Hcls Hname Hrun.
  destruct (set_index_column_rows self value self' Hcls Hname Hrun)
    as (Hin & row_vals & Hvals & Hnd & Hlen & ->). simpl.
  split_and!.
  - unfold index_column. simpl. rewrite Hcls.
    destruct (column_names self) as [|first_column rest] eqn:Hcols.
    { by apply not_elem_of_nil in Hin. }
    case_decide as Hempty; [|done].
    destruct Hname as [?|[= ->]]; done.
  - done.
  - rewrite length_zip_with. lia.
  - intros n r' Hr'. apply lookup_zip_with_Some in Hr' as (r & v & -> & Hr & Hv).
    exists r. simpl. split_and!; [done | done | |].
    + intros c Hc. by apply dict_get_setitem_ne.
    + unfold row_get_default at 1 3. simpl. rewrite dict_get_setitem_eq. simpl.
      destruct (unique_vals_total (row_values_in_column self value))
        as (out & Hrun' & _ & _ & Hshape).
      rewrite Hvals in Hrun'. injection Hrun' as <-.
      assert (row_values_in_column self value !! n
              = Some (row_get_default r value (VStr ""))) as Hold.
      { unfold row_values_in_column. rewrite Hcls, decide_True by done.
        by rewrite list_lookup_fmap, Hr. }
      destruct (Hshape n _ Hold) as [Hk|[m Hk]]; rewrite Hv in Hk;
        injection Hk as ->; eauto.
Qed.

Lemma set_index_column_again self value self' :
  value ≠ "" ∨ head (column_names self) = Some value →
  set_index_column self value = Ok self' →
  set_index_column self' value = Ok self'.
Proof.
  intros Hname Hrun. destruct (class_of self) eqn:Hcls.
  2:{ unfold set_index_column in Hrun. rewrite Hcls in Hrun. injection Hrun as <-.
      unfold set_index_column. by rewrite Hcls. }
  destruct (set_index_column_rows self value self' Hcls Hname Hrun)
    as (Hin & row_vals & Hvals & Hnd & Hlen & ->).
  set (rows' := zip_with (λ r v, DictRow (Dict.setitem (cells r) value v) (restkey r))
                         (list_of_dicts self) row_vals).
  set (self' := MkParser (class_of self) rows' (column_names self) (file_text self)
                  value (file_path self) (_encoding self)).
  assert (class_of self' = CSVParser_class) as Hcls' by done.
  assert (row_values_in_column self' value = row_vals) as Hvals'.
  { unfold row_values_in_column. simpl. rewrite Hcls, decide_True by done.
    apply list_eq. intros n. rewrite list_lookup_fmap. unfold rows'.
    rewrite lookup_zip_with.
    destruct (list_of_dicts self !! n) as [r|] eqn:Hr; simpl.
    - destruct (row_vals !! n) as [v|] eqn:Hv; simpl.
      + unfold row_get_default. simpl. by rewrite dict_get_setitem_eq.
      + apply lookup_ge_None in Hv. apply lookup_lt_Some in Hr. lia.
    - symmetry. apply lookup_ge_None. apply lookup_ge_None in Hr. lia. }
  destruct (set_index_column_ok self' value Hin) as [self'' Hrun2].
  rewrite Hrun2. f_equal.
  destruct (set_index_column_rows self' value self'' Hcls' Hname Hrun2)
    as (_ & row_vals2 & Hvals2 & _ & _ & ->).
  rewrite Hvals', (unique_vals_NoDup_id row_vals Hnd) in Hvals2.
  injection Hvals2 as <-. unfold self'. simpl. f_equal.
  apply list_eq. intros n. rewrite lookup_zip_with.
  destruct (rows' !! n) as [r'|] eqn:Hr'; simpl; [|done].
  unfold rows' in Hr'. apply lookup_zip_with_Some in Hr' as (r & v & -> & Hr & Hv).
  rewrite Hv. simpl. f_equal. f_equal.
  apply dict_setitem_same, dict_get_setitem_eq.
Qed.

Lemma row_values_in_column_eq self column_name :
  class_of self = CSVParser_class →
  column_name ∈ column_names self →
  row_values_in_column self column_name
  = (λ x, row_get_default x column_name (VStr "")) <$> list_of_dicts self.
Proof. intros Hcls Hin. unfold row_values_in_column. by rewrite Hcls, decide_True. Qed.

(** The column the setter reads, after the setter: the values it wrote when
    it writes to the column it reads, the values it read otherwise. Either
    way de-duplication gives the values it wrote. *)
Lemma set_index_column_values_again self value key row_vals rows' :
  class_of self = CSVParser_class →
  value ∈ column_names self →
  _unique_vals (row_values_in_column self value) = Ok row_vals →
  NoDup row_vals →
  length row_vals = length (list_of_dicts self) →
  length rows' = length (list_of_dicts self) →
  (∀ n r', rows' !! n = Some r' →
     ∃ r v, list_of_dicts self !! n = Some r ∧ row_vals !! n = Some v
       ∧ r' = DictRow (Dict.setitem (cells r) key v) (restkey r)) →
  _unique_vals
    (row_values_in_column
       (MkParser (class_of self) rows' (column_names self) (file_text self) value
          (file_path self) (_encoding self)) value) = Ok row_vals.
Proof.
  intros Hcls Hin Hvals Hnd Hlenv Hlenr Hrows.
  destruct (decide (key = value)) as [->|Hne].
  - assert (row_values_in_column
              (MkParser (class_of self) rows' (column_names self) (file_text self)
                 value (file_path self) (_encoding self)) value = row_vals) as ->.
    { rewrite row_values_in_column_eq by done. simpl.
      apply list_eq. intros n. rewrite list_lookup_fmap.
      destruct (rows' !! n) as [r'|] eqn:Hr'; simpl.
      - destruct (Hrows n r' Hr') as (r & v & _ & Hv & ->).
        unfold row_get_default. simpl. by rewrite dict_get_setitem_eq.
      - symmetry. apply lookup_ge_None. apply lookup_ge_None in Hr'. lia. }
    by apply unique_vals_NoDup_id.
  - assert (row_values_in_column
              (MkParser (class_of self) rows' (column_names self) (file_text self)
                 value (file_path self) (_encoding self)) value
            = row_values_in_column self value) as ->; [|done].
    rewrite !row_values_in_column_eq by done. simpl.
    apply list_eq. intros n. rewrite !list_lookup_fmap.
    destruct (rows' !! n) as [r'|] eqn:Hr'.
    + destruct (Hrows n r' Hr') as (r & v & Hr & _ & ->). rewrite Hr. simpl.
      unfold row_get_default. simpl. by rewrite dict_get_setitem_ne.
    + apply lookup_ge_None in Hr'.
      destruct (list_of_dicts self !! n) eqn:Hr; [|done].
      apply lookup_lt_Some in Hr. lia.
Qed.

(** X6. Setting the same key column again changes nothing: the key values
    are already pairwise distinct, so none of them is renamed. This holds
    for every name, the empty name of a later column included (there the
    loop writes to the first column, and writes the same values again). *)
Theorem set_index_column_idempotent self value self' :
  set_index_column self value = Ok self' →
  set_index_column self' value = Ok self'.
Proof.
  intros Hrun. destruct (class_of self) eqn:Hcls.
  2:{ unfold set_index_column in Hrun. rewrite Hcls in Hrun. injection Hrun as <-.
      unfold set_index_column. by rewrite Hcls. }
  assert (value ∈ column_names self) as Hin.
  { destruct (decide (value ∈ column_names self)) as [|Hout]; [done|].
    unfold set_index_column in Hrun. rewrite Hcls in Hrun.
    destruct (decide (column_names self = [])); [done|].
    by rewrite decide_True in Hrun. }
  destruct (set_index_column_spec self value Hcls Hin)
    as (key & row_vals & rows' & Hkey & Hvals & Hnd & Hlenv & Hlenr & Hrows & Hset).
  rewrite Hset in Hrun. injection Hrun as <-.
  pose proof (set_index_column_values_again self value key row_vals rows'
                Hcls Hin Hvals Hnd Hlenv Hlenr Hrows) as Hvals'.
  destruct (set_index_column_spec
              (MkParser (class_of self) rows' (column_names self) (file_text self)
                 value (file_path self) (_encoding self)) value Hcls Hin)
    as (key2 & row_vals2 & rows2 & Hkey2 & Hvals2 & _ & _ & Hlenr2 & Hrows2 & Hset2).
  rewrite Hset2. simpl in *.
  assert (key2 = key) as ->.
  { unfold index_column in Hkey, Hkey2. simpl in Hkey, Hkey2.
    rewrite Hkey in Hkey2. by injection Hkey2. }
  rewrite Hvals' in Hvals2. injection Hvals2 as <-.
  do 2 f_equal. apply list_eq. intros n.
  destruct (rows2 !! n) as [r2|] eqn:Hr2.
  - destruct (Hrows2 n r2 Hr2) as (r' & v2 & Hr' & Hv2 & ->).
    destruct (Hrows n r' Hr') as (r & v & Hr & Hv & ->). simpl.
    rewrite Hv in Hv2. injection Hv2 as <-. rewrite Hr'. do 2 f_equal.
    apply dict_setitem_same, dict_get_setitem_eq.
  - symmetry. apply lookup_ge_None. apply lookup_ge_None in Hr2. lia.
Qed.

(** ** Writing a cell *)

Lemma head_filter_update_first {A : Type} (P : A → Prop) `{∀ x, Decision (P x)}
    (f : A → A) (l : list A) :
  (∀ x, P x → P (f x)) →
  head (filter P (update_first P f l)) = f <$> head (filter P l).
Proof.
  intros Hf. induction l as [|x l IH]; simpl; [done|].
  destruct (decide (P x)) as [Hx|Hx].
  - rewrite !filter_cons_True by auto. done.
  - by rewrite !filter_cons_False.
Qed.

Lemma update_first_id {A : Type} (P : A → Prop) `{∀ x, Decision (P x)}
    (f : A → A) (l : list A) :
  (∀ x, head (filter P l) = Some x → f x = x) → update_first P f l = l.
Proof.
  induction l as [|x l IH]; simpl; [done|]. intros Hf.
  destruct (decide (P x)) as [Hx|Hx].
  - rewrite Hf; [done|]. by rewrite filter_cons_True.
  - rewrite IH; [done|]. intros y Hy. apply Hf. by rewrite filter_cons_False.
Qed.

Lemma length_update_first {A : Type} (P : A → Prop) `{∀ x, Decision (P x)}
    (f : A → A) (l : list A) :
  length (update_first P f l) = length l.
Proof.
  induction l as [|x l IH]; simpl; [done|].
  destruct (decide (P x)); simpl; by rewrite ?IH.
Qed.

Lemma get_row_head self column_name row_value :
  get_row self column_name row_value
  = default empty_row (head (get_rows self column_name row_value)).
Proof. unfold get_row. by destruct (get_rows self column_name row_value). Qed.

(** X7. Writing a cell and reading it back: when the row addressed by the
    key value has a cell for a column other than the key column,
    [set_value] stores the new value there and [get_value] then returns
    it; the columns and the number of rows stay. *)
Theorem set_value_then_get_value self key k column_name new_value old :
  class_of self = CSVParser_class →
  index_column self = Ok key →
  column_name ≠ key →
  Dict.get (cells (get_row self key k)) column_name = Some old →
  ∃ self', set_value self k column_name new_value = Ok self'
    ∧ get_value self' k column_name = Ok new_value
    ∧ column_names self' = column_names self
    ∧ length (list_of_dicts self') = length (list_of_dicts self).
Proof.
  intros Hcls Hkey Hne Hold.
  assert (key ∈ column_names self) as Hin.
  { destruct (decide (key ∈ column_names self)) as [|Hout]; [done|].
    unfold get_row, get_rows in Hold. by rewrite decide_False in Hold. }
  unfold set_value. rewrite Hcls, Hkey. simpl. rewrite decide_True by done.
  eexists. split; [done|].
  set (P := λ row, row_get row key = k).
  set (f := λ row,
         if row_truthy row && Dict.contains (cells row) column_name
         then DictRow (Dict.setitem (cells row) column_name new_value) (restkey row)
         else row).
  assert (∀ row, P row → P (f row)) as Hf.
  { intros row Hrow. unfold f, P in *.
    destruct (row_truthy row && Dict.contains (cells row) column_name); [|done].
    unfold row_get in *. simpl. by rewrite dict_get_setitem_ne. }
  split_and!; [| done | simpl; apply length_update_first].
  unfold get_value. simpl. rewrite Hcls.
  assert (index_column (with_rows self (update_first P f (list_of_dicts self)))
          = Ok key) as ->.
  { unfold index_column in *. simpl. by rewrite Hcls in *. }
  simpl. f_equal.
  rewrite get_row_head in Hold |- *. unfold get_rows in *. simpl.
  rewrite decide_True in Hold |- * by done.
  fold P in Hold |- *.
  rewrite (head_filter_update_first P f (list_of_dicts self) Hf).
  destruct (head (filter P (list_of_dicts self))) as [r0|]; simpl in *; [|done].
  unfold f. unfold Dict.contains. rewrite Hold.
  rewrite bool_decide_eq_true_2 by eauto.
  assert (row_truthy r0 = true) as ->.
  { unfold row_truthy. by destruct (cells r0). }
  simpl. unfold row_get_default. simpl. by rewrite dict_get_setitem_eq.
Qed.

(** X8. [set_value] changes nothing when no row has the key value, or when
    the row it finds has no cell for the column. *)
Theorem set_value_noop_without_cell self key k column_name new_value :
  class_of self = CSVParser_class →
  index_column self = Ok key →
  Dict.get (cells (get_row self key k)) column_name = None →
  set_value self k column_name new_value = Ok self.
Proof.
  intros Hcls Hkey Hnone. unfold set_value. rewrite Hcls, Hkey. simpl.
  destruct (decide (key ∈ column_names self)) as [Hin|]; [|done].
  f_equal. rewrite update_first_id; [by destruct self|].
  intros r0 Hr0. rewrite get_row_head in Hnone. unfold get_rows in Hnone.
  rewrite decide_True in Hnone by done. rewrite Hr0 in Hnone. simpl in Hnone.
  unfold Dict.contains. rewrite Hnone.
  rewrite bool_decide_eq_false_2 by (by intros [? ?]).
  by rewrite andb_false_r.
Qed.

(** ** Dropping columns and rows; transforms *)

Lemma dict_setitem_fresh (d : Dict.t) k v :
  k ∉ Dict.keys d → Dict.setitem d k v = d ++ [(k, v)].
Proof.
  unfold Dict.keys. induction d as [|[k' v'] d IH]; csimpl; [done|].
  intros Hk. apply not_elem_of_cons in Hk as [Hne Hk].
  rewrite decide_False by done. by rewrite IH.
Qed.

Lemma dict_foldl_NoDup_id (items acc : list (string * value)) :
  NoDup (Dict.keys (acc ++ items)) →
  foldl (λ d kv, Dict.setitem d kv.1 kv.2) acc items = acc ++ items.
Proof.
  revert acc. induction items as [|[k v] items IH]; intros acc Hnd; simpl.
  { by rewrite app_nil_r. }
  rewrite dict_setitem_fresh.
  - rewrite IH; rewrite <- (assoc_L (++)); done.
  - unfold Dict.keys in *. rewrite fmap_app, fmap_cons in Hnd.
    apply NoDup_app in Hnd as (_ & Hdisj & _). intros Hin.
    apply (Hdisj k Hin). apply list_elem_of_here.
Qed.

(** A dict built from items with distinct keys is those items. *)
Lemma dict_of_items_NoDup_id (items : list (string * value)) :
  NoDup (Dict.keys items) → Dict.of_items items = items.
Proof. intros Hnd. unfold Dict.of_items. by rewrite dict_foldl_NoDup_id. Qed.

Lemma dict_keys_filter_NoDup (P : string * value → Prop) `{∀ x, Decision (P x)}
    (d : list (string * value)) :
  NoDup (Dict.keys d) → NoDup (Dict.keys (filter P d)).
Proof.
  unfold Dict.keys. induction d as [|[k v] d IH]; [done|].
  rewrite fmap_cons. intros [Hk Hnd]%NoDup_cons. rewrite filter_cons.
  destruct (decide (P (k, v))); [|by apply IH].
  rewrite fmap_cons. apply NoDup_cons. split; [|by apply IH].
  intros Hin. apply Hk. apply list_elem_of_fmap in Hin as ([k' v'] & -> & Hin).
  apply list_elem_of_filter in Hin as [_ Hin].
  apply list_elem_of_fmap. by exists (k', v').
Qed.

Lemma dict_get_filter_keys (names : list string) (d : list (string * value)) c :
  Dict.get (filter (λ kv, kv.1 ∉ names) d) c
  = if decide (c ∈ names) then None else Dict.get d c.
Proof.
  induction d as [|[k v] d IH]; simpl.
  { by destruct (decide (c ∈ names)). }
  rewrite filter_cons. simpl.
  destruct (decide (k ∉ names)) as [Hk|Hk]; simpl.
  - destruct (decide (k = c)) as [->|Hne]; [|done].
    by rewrite decide_False.
  - apply dec_stable in Hk. rewrite IH.
    destruct (decide (k = c)) as [->|Hne]; [|done].
    by destruct (decide (c ∈ names)).
Qed.

(** X9. [drop_columns] removes the named columns from the column list and
    from every row, and leaves the rest as it was: the other columns in
    their order, every other cell, the surplus fields, the number of rows.
    Names that are not columns are ignored. *)
Theorem drop_columns_removes_named_only self names :
  class_of self = CSVParser_class →
  column_names (drop_columns self names)
    = filter (λ c, c ∉ names) (column_names self)
  ∧ (∀ c, c ∈ column_names (drop_columns self names)
          ↔ c ∈ column_names self ∧ c ∉ names)
  ∧ (NoDup (column_names self) → NoDup (column_names (drop_columns self names)))
  ∧ length (list_of_dicts (drop_columns self names)) = length (list_of_dicts self)
  ∧ ∀ n r, list_of_dicts self !! n = Some r → NoDup (Dict.keys (cells r)) →
      ∃ r', list_of_dicts (drop_columns self names) !! n = Some r'
        ∧ restkey r' = restkey r
        ∧ NoDup (Dict.keys (cells r'))
        ∧ ∀ c, Dict.get (cells r') c
               = if decide (c ∈ names) then None else Dict.get (cells r) c.
Proof.
  intros Hcls. unfold drop_columns. rewrite Hcls. simpl. split_and!.
  - done.
  - intros c. rewrite list_elem_of_filter. split; intros [? ?]; done.
  - apply NoDup_filter.
  - by rewrite length_fmap.
  - intros n r Hr Hnd. eexists. rewrite list_lookup_fmap, Hr. simpl.
    split; [done|]. simpl.
    rewrite dict_of_items_NoDup_id by (by apply dict_keys_filter_NoDup).
    split_and!; [done | by apply dict_keys_filter_NoDup |].
    intros c. apply dict_get_filter_keys.
Qed.

Lemma filter_outcome_total {A : Type} (keep : A → outcome bool) (b : A → bool)
    (l : list A) :
  (∀ x, x ∈ l → keep x = Ok (b x)) →
  filter_outcome keep l = Ok (filter (λ x, b x = true) l).
Proof.
  induction l as [|x l IH]; intros Hkeep; simpl; [done|].
  rewrite (Hkeep x) by apply list_elem_of_here. simpl.
  rewrite IH by (intros y Hy; apply Hkeep; by apply list_elem_of_further). simpl.
  rewrite filter_cons. by destruct (b x).
Qed.

Lemma filter_outcome_raises {A : Type} (keep : A → outcome bool) (e : exn)
    (l : list A) :
  (∀ x, x ∈ l → (∃ b, keep x = Ok b) ∨ keep x = Raise e) →
  (∃ x, x ∈ l ∧ keep x = Raise e) →
  filter_outcome keep l = Raise e.
Proof.
  induction l as [|x l IH]; intros Hkeep (y & Hy & Hraise); simpl.
  { by apply not_elem_of_nil in Hy. }
  destruct (Hkeep x) as [[b Hb]|Hx]; [apply list_elem_of_here | | by rewrite Hx].
  rewrite Hb. simpl. rewrite IH; [done | |].
  - intros z Hz. apply Hkeep. by apply list_elem_of_further.
  - apply elem_of_cons in Hy as [->|Hy]; [congruence|]. eauto.
Qed.

(** X10. [drop_rows_by] keeps, in their order, exactly the rows for which
    the predicate returns false; the columns stay. If the predicate raises
    on a row, the call raises the same error. *)
Theorem drop_rows_by_keeps_rejected_rows self predicate :
  class_of self = CSVParser_class →
  (∀ pred : dict_row → bool,
     (∀ row, row ∈ list_of_dicts self → predicate row = Ok (pred row)) →
     drop_rows_by self predicate
       = Ok (with_rows self (filter (λ row, pred row = false) (list_of_dicts self))))
  ∧ (∀ e,
       (∀ row, row ∈ list_of_dicts self →
          (∃ b, predicate row = Ok b) ∨ predicate row = Raise e) →
       (∃ row, row ∈ list_of_dicts self ∧ predicate row = Raise e) →
       drop_rows_by self predicate = Raise e).
Proof.
  intros Hcls. unfold drop_rows_by. rewrite Hcls. split.
  - intros pred Hpred.
    rewrite (filter_outcome_total _ (λ row, negb (pred row))).
    + simpl. f_equal. f_equal. apply list_filter_iff. intros row.
      by destruct (pred row).
    + intros row Hrow. by rewrite Hpred.
  - intros e Hall (row & Hrow & Hraise).
    rewrite (filter_outcome_raises _ e); [done | |].
    + intros x Hx. destruct (Hall x Hx) as [[b ->]| ->]; simpl; eauto.
    + exists row. by rewrite Hraise.
Qed.

(** X11. [drop_rows] does nothing for a name that is not a column. For a
    column that every row has a cell for, it keeps, in their order, exactly
    the rows whose cell is not one of the given values. If some row has no
    cell for the column, it raises [KeyError]. *)
Theorem drop_rows_by_value_set self column_name row_values :
  class_of self = CSVParser_class →
  (column_name ∉ column_names self →
     drop_rows self column_name row_values = Ok self)
  ∧ (column_name ∈ column_names self →
     (∀ row, row ∈ list_of_dicts self →
        is_Some (Dict.get (cells row) column_name)) →
     drop_rows self column_name row_values
       = Ok (with_rows self
               (filter (λ row, row_get row column_name ∉ row_values)
                       (list_of_dicts self))))
  ∧ (column_name ∈ column_names self →
     (∃ row, row ∈ list_of_dicts self ∧ Dict.get (cells row) column_name = None) →
     drop_rows self column_name row_values = Raise (KeyError column_name)).
Proof.
  intros Hcls. unfold drop_rows. rewrite Hcls. split_and!.
  - intros Hout. by rewrite decide_True.
  - intros Hin Hcells. rewrite decide_False by (by intros ?).
    unfold drop_rows_by. rewrite Hcls.
    rewrite (filter_outcome_total _
               (λ row, negb (bool_decide (row_get row column_name ∈ row_values)))).
    + simpl. f_equal. f_equal. apply list_filter_iff. intros row.
      rewrite negb_true_iff, bool_decide_eq_false. done.
    + intros row Hrow. destruct (Hcells row Hrow) as [v Hv].
      unfold row_get. by rewrite Hv.
  - intros Hin (row & Hrow & Hnone). rewrite decide_False by (by intros ?).
    unfold drop_rows_by. rewrite Hcls.
    rewrite (filter_outcome_raises _ (KeyError column_name)); [done | |].
    + intros x Hx. destruct (Dict.get (cells x) column_name); simpl; eauto.
    + exists row. by rewrite Hnone.
Qed.

Lemma map_outcome_total {A B : Type} (g : A → outcome B) (h : A → B) (l : list A) :
  (∀ x, x ∈ l → g x = Ok (h x)) → map_outcome g l = Ok (h <$> l).
Proof.
  induction l as [|x l IH]; intros Hg; simpl; [done|].
  rewrite (Hg x) by apply list_elem_of_here. simpl.
  by rewrite IH by (intros y Hy; apply Hg; by apply list_elem_of_further).
Qed.

(** X12. [apply_transform] with a function that returns on every row:
    each row gets the function's value for the row as it was, under the
    column name; its other cells stay. A new column name is appended to
    the column list once, a known one leaves the list as it is, so a list
    without repeats stays so. *)
Theorem apply_transform_sets_column self column_name func (f : dict_row → value) :
  class_of self = CSVParser_class →
  (∀ row, row ∈ list_of_dicts self → func row = Ok (f row)) →
  ∃ self', apply_transform self column_name func = Ok self'
    ∧ length (list_of_dicts self') = length (list_of_dicts self)
    ∧ column_names self'
        = (if decide (column_name ∈ column_names self) then column_names self
           else column_names self ++ [column_name])
    ∧ column_name ∈ column_names self'
    ∧ (NoDup (column_names self) → NoDup (column_names self'))
    ∧ ∀ n r, list_of_dicts self !! n = Some r →
        ∃ r', list_of_dicts self' !! n = Some r'
          ∧ Dict.get (cells r') column_name = Some (f r)
          ∧ restkey r' = restkey r
          ∧ ∀ c, c ≠ column_name → Dict.get (cells r') c = Dict.get (cells r) c.
Proof.
  intros Hcls Hfunc. unfold apply_transform. rewrite Hcls.
  rewrite (map_outcome_total _
             (λ item, DictRow (Dict.setitem (cells item) column_name (f item))
                              (restkey item))).
  2:{ intros row Hrow. by rewrite Hfunc. }
  simpl. eexists. split; [done|]. simpl. split_and!.
  - by rewrite length_fmap.
  - destruct (decide (column_name ∈ column_names self)) as [Hin|Hout].
    + by rewrite decide_False by (by intros ?).
    + by rewrite decide_True.
  - destruct (decide (column_name ∉ column_names self)) as [Hout|Hin].
    + apply elem_of_app. right. apply list_elem_of_here.
    + by apply dec_stable in Hin.
  - intros Hnd. destruct (decide (column_name ∉ column_names self)) as [Hout|]; [|done].
    apply NoDup_app. split_and!; [done | | apply NoDup_singleton].
    by intros x Hx ->%list_elem_of_singleton.
  - intros n r Hr. eexists. rewrite list_lookup_fmap, Hr. simpl.
    split; [done|]. simpl. split_and!; [apply dict_get_setitem_eq | done |].
    intros c Hc. by apply dict_get_setitem_ne.
Qed.

(** ** [compare]: rows, mismatches, symmetry, stability *)


Lemma compare_row_spec first second common_columns row acc acc' :
  compare_row first second common_columns row acc = Ok acc' →
  ∃ added, acc' = acc ++ added
    ∧ ∀ m, m ∈ added
        ↔ CSVCompareOutput.row m = row
          ∧ CSVCompareOutput.column m ∈ common_columns
          ∧ get_value first row (CSVCompareOutput.column m)
              = Ok (CSVCompareOutput.first m)
          ∧ get_value second row (CSVCompareOutput.column m)
              = Ok (CSVCompareOutput.second m)
          ∧ CSVCompareOutput.first m ≠ CSVCompareOutput.second m.
Proof.
  unfold compare_row. revert acc.
  induction common_columns as [|c cols IH]; intros acc Hrun; simpl in Hrun.
  { injection Hrun as <-. exists []. split; [by rewrite app_nil_r|].
    intros m. split; [by intros ?%not_elem_of_nil|].
    by intros (_ & ?%not_elem_of_nil & _). }
  apply bind_Ok_inv in Hrun as (acc1 & Hbody & Hrest).
  apply bind_Ok_inv in Hbody as (v1 & Hv1 & Hbody).
  apply bind_Ok_inv in Hbody as (v2 & Hv2 & Hbody).
  destruct (IH acc1 Hrest) as (added & -> & Hadded).
  destruct (decide (v1 ≠ v2)) as [Hne|Heq]; injection Hbody as <-.
  - exists (CSVCompareOutput.Mismatch row c v1 v2 :: added).
    split; [by rewrite <- (assoc_L (++))|].
    intros m. rewrite elem_of_cons, Hadded, elem_of_cons. split.
    + intros [->|(? & ? & ? & ? & ?)]; simpl; [by split_and!; [|left|..]|].
      by split_and!; [|right|..].
    + intros (Hrow & [Hc|Hc] & H1 & H2 & Hdiff); [left|right; by split_and!].
      rewrite Hc, Hv1 in H1. rewrite Hc, Hv2 in H2.
      injection H1 as H1. injection H2 as H2.
      destruct m; simpl in *. by subst.
  - apply dec_stable in Heq. subst v2. exists added. split; [done|].
    intros m. rewrite Hadded, elem_of_cons. split.
    + intros (? & ? & ? & ? & ?). by split_and!; [|right|..].
    + intros (Hrow & [Hc|Hc] & H1 & H2 & Hdiff); [|by split_and!].
      rewrite Hc, Hv1 in H1. rewrite Hc, Hv2 in H2. congruence.
Qed.

Lemma compare_rows_spec first second common_columns common_rows acc acc' :
  for_each common_rows (compare_row first second common_columns) acc = Ok acc' →
  ∃ added, acc' = acc ++ added
    ∧ ∀ m, m ∈ added
        ↔ CSVCompareOutput.row m ∈ common_rows
          ∧ CSVCompareOutput.column m ∈ common_columns
          ∧ get_value first (CSVCompareOutput.row m) (CSVCompareOutput.column m)
              = Ok (CSVCompareOutput.first m)
          ∧ get_value second (CSVCompareOutput.row m) (CSVCompareOutput.column m)
              = Ok (CSVCompareOutput.second m)
          ∧ CSVCompareOutput.first m ≠ CSVCompareOutput.second m.
Proof.
  revert acc. induction common_rows as [|row rows IH]; intros acc Hrun; simpl in Hrun.
  { injection Hrun as <-. exists []. split; [by rewrite app_nil_r|].
    intros m. split; [by intros ?%not_elem_of_nil|].
    by intros (?%not_elem_of_nil & _). }
  apply bind_Ok_inv in Hrun as (acc1 & Hrow & Hrest).
  apply compare_row_spec in Hrow as (added1 & -> & Hadded1).
  destruct (IH _ Hrest) as (added & -> & Hadded).
  exists (added1 ++ added). split; [by rewrite (assoc_L (++))|].
  intros m. rewrite elem_of_app, Hadded1, Hadded, elem_of_cons. split.
  - intros [(<- & ? & ? & ? & ?)|(? & ? & ? & ? & ?)].
    + by split_and!; [left|..].
    + by split_and!; [right|..].
  - intros ([->|Hrow] & ? & ? & ? & ?); [left|right]; by split_and!.
Qed.

(** X14. The mismatch list of a report holds exactly the cells that
    differ: a record is in it when, and only when, its row is a key value
    of both re-indexed parsers, its column is a column of both, its two
    values are what [get_value] reads from the two parsers, and they
    differ. *)
Theorem compare_mismatches_are_differing_cells self index_column r self' :
  compare self index_column = Ok (r, self') →
  ∀ m, m ∈ CSVCompareOutput.mismatched_rows r
    ↔ CSVCompareOutput.row m ∈ row_values_in_column (first_file self') index_column
      ∧ CSVCompareOutput.row m ∈ row_values_in_column (second_file self') index_column
      ∧ CSVCompareOutput.column m ∈ column_names (first_file self')
      ∧ CSVCompareOutput.column m ∈ column_names (second_file self')
      ∧ get_value (first_file self') (CSVCompareOutput.row m) (CSVCompareOutput.column m)
          = Ok (CSVCompareOutput.first m)
      ∧ get_value (second_file self') (CSVCompareOutput.row m) (CSVCompareOutput.column m)
          = Ok (CSVCompareOutput.second m)
      ∧ CSVCompareOutput.first m ≠ CSVCompareOutput.second m.
Proof.
  intros Hrun. apply compare_Ok_inv in Hrun
    as (_ & _ & first & second & mm & _ & _ & -> & _ & _ & _ & _ & -> & Hloop & _).
  apply compare_rows_spec in Hloop as (added & -> & Hadded). simpl.
  intros m. rewrite Hadded, !elem_of_elements, !elem_of_intersection,
    !elem_of_list_to_set.
  split; [intros ([? ?] & [? ?] & ? & ? & ?) | intros (? & ? & ? & ? & ? & ? & ?)];
    by split_and!.
Qed.

Lemma gset_intersection_comm `{Countable A} (X Y : gset A) : X ∩ Y = Y ∩ X.
Proof.
  apply set_eq. intros x. rewrite !elem_of_intersection.
  split; intros [? ?]; done.
Qed.

Lemma compare_row_swap first second common_columns row acc acc' :
  compare_row first second common_columns row acc = Ok acc' →
  compare_row second first common_columns row
    ((λ m, CSVCompareOutput.Mismatch (CSVCompareOutput.row m)
             (CSVCompareOutput.column m) (CSVCompareOutput.second m)
             (CSVCompareOutput.first m)) <$> acc)
  = Ok ((λ m, CSVCompareOutput.Mismatch (CSVCompareOutput.row m)
                (CSVCompareOutput.column m) (CSVCompareOutput.second m)
                (CSVCompareOutput.first m)) <$> acc').
Proof.
  unfold compare_row. revert acc.
  induction common_columns as [|c cols IH]; intros acc Hrun; simpl in *.
  { by injection Hrun as <-. }
  apply bind_Ok_inv in Hrun as (acc1 & Hbody & Hrest).
  apply bind_Ok_inv in Hbody as (v1 & Hv1 & Hbody).
  apply bind_Ok_inv in Hbody as (v2 & Hv2 & Hbody).
  rewrite Hv2, Hv1. simpl.
  destruct (decide (v1 ≠ v2)) as [Hne|Heq]; injection Hbody as <-.
  - rewrite decide_True by (by intros ->). simpl.
    specialize (IH _ Hrest). by rewrite fmap_app in IH.
  - rewrite decide_False by (apply dec_stable in Heq; by intros []). simpl.
    by apply IH.
Qed.

Lemma compare_rows_swap first second common_columns common_rows acc acc' :
  for_each common_rows (compare_row first second common_columns) acc = Ok acc' →
  for_each common_rows (compare_row second first common_columns)
    ((λ m, CSVCompareOutput.Mismatch (CSVCompareOutput.row m)
             (CSVCompareOutput.column m) (CSVCompareOutput.second m)
             (CSVCompareOutput.first m)) <$> acc)
  = Ok ((λ m, CSVCompareOutput.Mismatch (CSVCompareOutput.row m)
                (CSVCompareOutput.column m) (CSVCompareOutput.second m)
                (CSVCompareOutput.first m)) <$> acc').
Proof.
  revert acc. induction common_rows as [|row rows IH]; intros acc Hrun; simpl in *.
  { by injection Hrun as <-. }
  apply bind_Ok_inv in Hrun as (acc1 & Hrow & Hrest).
  rewrite (compare_row_swap _ _ _ _ _ _ Hrow). simpl. by apply IH.
Qed.

(** X15. Exchanging the two files exchanges the report: the same verdict,
    the extra columns and extra rows of each side under the other side's
    name, and the same mismatches with their two values exchanged (the
    lists up to order). The parsers come out re-indexed as before. *)
Theorem compare_swapped_files a b index_column r a' b' :
  compare (MkComparer a b) index_column = Ok (r, MkComparer a' b') →
  ∃ r', compare (MkComparer b a) index_column = Ok (r', MkComparer b' a')
    ∧ CSVCompareOutput.match_result r' = CSVCompareOutput.match_result r
    ∧ CSVCompareOutput.first_file r' = CSVCompareOutput.second_file r
    ∧ CSVCompareOutput.second_file r' = CSVCompareOutput.first_file r
    ∧ CSVCompareOutput.extra_cols_in_first_file r'
        ≡ₚ CSVCompareOutput.extra_cols_in_second_file r
    ∧ CSVCompareOutput.extra_cols_in_second_file r'
        ≡ₚ CSVCompareOutput.extra_cols_in_first_file r
    ∧ CSVCompareOutput.extra_rows_in_first_file r'
        ≡ₚ CSVCompareOutput.extra_rows_in_second_file r
    ∧ CSVCompareOutput.extra_rows_in_second_file r'
        ≡ₚ CSVCompareOutput.extra_rows_in_first_file r
    ∧ CSVCompareOutput.mismatched_rows r'
        ≡ₚ (λ m, CSVCompareOutput.Mismatch (CSVCompareOutput.row m)
                   (CSVCompareOutput.column m) (CSVCompareOutput.second m)
                   (CSVCompareOutput.first m))
             <$> CSVCompareOutput.mismatched_rows r.
Proof.
  intros Hrun. apply compare_Ok_inv in Hrun
    as (Hin1 & Hin2 & first & second & mm & Hfirst & Hsecond & [= <- <-]
        & Hc1 & Hc2 & Hr1 & Hr2 & Hmm & Hloop & Hf1 & Hf2 & Hmatch).
  simpl in *. unfold compare. simpl.
  rewrite !decide_False by (by intros ?). rewrite Hsecond, Hfirst. simpl.
  apply compare_rows_swap in Hloop. simpl in Hloop.
  rewrite (gset_intersection_comm (list_to_set (column_names b'))
                                  (list_to_set (column_names a'))).
  rewrite (gset_intersection_comm
             (list_to_set (row_values_in_column b' index_column))
             (list_to_set (row_values_in_column a' index_column))).
  rewrite Hloop. simpl. eexists. split; [done|]. simpl.
  rewrite Hmatch, Hc1, Hc2, Hr1, Hr2, Hf1, Hf2, Hmm.
  split_and!; try done.
  destruct (elements (list_to_set (column_names a') ∖ list_to_set (column_names b'))),
    (elements (list_to_set (column_names b') ∖ list_to_set (column_names a'))),
    (elements (list_to_set (row_values_in_column a' index_column)
               ∖ list_to_set (row_values_in_column b' index_column))),
    (elements (list_to_set (row_values_in_column b' index_column)
               ∖ list_to_set (row_values_in_column a' index_column))),
    mm; done.
Qed.

(** X16. Comparing again gives the same report: after a [compare] on a
    non-empty column name, the re-indexed parsers are left as they are by
    a second [compare] on that name, and the report is the same. *)
Theorem compare_again_same_report self index_column r self' :
  index_column ≠ "" →
  compare self index_column = Ok (r, self') →
  compare self' index_column = Ok (r, self').
Proof.
  intros Hname Hrun. pose proof Hrun as Hrun0. apply compare_Ok_inv in Hrun
    as (Hin1 & Hin2 & first & second & mm & Hfirst & Hsecond & -> & _).
  destruct (set_index_column_frame _ _ _ Hfirst) as (_ & Hcols1 & _).
  destruct (set_index_column_frame _ _ _ Hsecond) as (_ & Hcols2 & _).
  unfold compare in *. simpl.
  rewrite !decide_False in Hrun0 by (by intros ?).
  rewrite !decide_False by (rewrite ?Hcols1, ?Hcols2; by intros ?).
  rewrite (set_index_column_again _ _ _ (or_introl Hname) Hfirst).
  rewrite (set_index_column_again _ _ _ (or_introl Hname) Hsecond).
  by rewrite Hfirst, Hsecond in Hrun0.
Qed.

(** ** The factories: errors, rows, default key column *)

Lemma from_csv_text_fresh text supplied d :
  from_csv_text text supplied = Ok d →
  class_of d = CSVParser_class ∧ _index_column d = "" ∧ file_text d = text
  ∧ file_path d = "init from text" ∧ _encoding d = "utf-8".
Proof.
  unfold from_csv_text. intros Hrun.
  destruct supplied as [[|name names]|].
  - apply bind_Ok_inv in Hrun as (header_names & _ & Hrun).
    by apply bind_Ok_inv in Hrun as (rows & _ & [= <-]).
  - destruct (forallb is_str (name :: names)); [|done].
    by apply bind_Ok_inv in Hrun as (rows & _ & [= <-]).
  - apply bind_Ok_inv in Hrun as (header_names & _ & Hrun).
    by apply bind_Ok_inv in Hrun as (rows & _ & [= <-]).
Qed.

Lemma list_DictReader_ok r fieldnames :
  stream_error r = None →
  list_DictReader r fieldnames = Ok (DictReader (stream_lines r) fieldnames).
Proof. intros Hnone. unfold list_DictReader, stream_all, stream_end. by rewrite Hnone. Qed.

Lemma list_DictReader_raises r fieldnames msg :
  stream_error r = Some msg → list_DictReader r fieldnames = Raise (CsvError msg).
Proof. intros Herr. unfold list_DictReader, stream_all, stream_end. by rewrite Herr. Qed.

Lemma list_DictReader_Ok_inv r fieldnames rows :
  list_DictReader r fieldnames = Ok rows →
  stream_error r = None ∧ rows = DictReader (stream_lines r) fieldnames.
Proof.
  unfold list_DictReader, stream_all, stream_end.
  destruct (stream_error r); [done|]. simpl. by intros [= <-].
Qed.

(** A parser was returned: the tokenizer did not raise on the text, and the
    rows are those [csv.DictReader] makes of the lines. *)
Lemma from_csv_text_Ok_inv text supplied d :
  from_csv_text text supplied = Ok d →
  stream_error (csv_reader text) = None
  ∧ list_of_dicts d
    = DictReader (stream_lines (csv_reader text))
        (fmap (M := list) as_str <$> supplied).
Proof.
  unfold from_csv_text. intros Hrun.
  destruct supplied as [[|name names]|].
  - apply bind_Ok_inv in Hrun as (header_names & _ & Hrun).
    apply bind_Ok_inv in Hrun as (rows & Hrows & [= <-]).
    by apply list_DictReader_Ok_inv in Hrows as [? ->].
  - destruct (forallb is_str (name :: names)); [|done].
    apply bind_Ok_inv in Hrun as (rows & Hrows & [= <-]).
    by apply list_DictReader_Ok_inv in Hrows as [? ->].
  - apply bind_Ok_inv in Hrun as (header_names & _ & Hrun).
    apply bind_Ok_inv in Hrun as (rows & Hrows & [= <-]).
    by apply list_DictReader_Ok_inv in Hrows as [? ->].
Qed.

Lemma header_names_ok text :
  stream_error (csv_reader text) = None →
  ∃ names, _get_column_names_from_header_row text = Ok names.
Proof.
  intros Hnone. unfold _get_column_names_from_header_row, stream_end.
  destruct (stream_lines (csv_reader text)) as [|header_row rest].
  { rewrite Hnone. eauto. }
  destruct (unique_vals_of_strs header_row) as (out & -> & _). simpl. eauto.
Qed.

Lemma header_names_raises text msg :
  stream_error (csv_reader text) = Some msg →
  (∃ names, _get_column_names_from_header_row text = Ok names)
  ∨ _get_column_names_from_header_row text = Raise (CsvError msg).
Proof.
  intros Herr. unfold _get_column_names_from_header_row, stream_end.
  destruct (stream_lines (csv_reader text)) as [|header_row rest].
  { rewrite Herr. by right. }
  destruct (unique_vals_of_strs header_row) as (out & -> & _). simpl. eauto.
Qed.

Lemma from_csv_text_ok text supplied :
  (∀ names, supplied = Some names → forallb is_str names = true) →
  stream_error (csv_reader text) = None →
  ∃ d, from_csv_text text supplied = Ok d.
Proof.
  intros Hstr Hnone. unfold from_csv_text. destruct supplied as [[|name names]|].
  - destruct (header_names_ok text Hnone) as [names ->]. simpl.
    rewrite list_DictReader_ok by done. simpl. eauto.
  - rewrite (Hstr _ eq_refl), list_DictReader_ok by done. simpl. eauto.
  - destruct (header_names_ok text Hnone) as [names ->]. simpl.
    rewrite list_DictReader_ok by done. simpl. eauto.
Qed.

Lemma from_csv_text_tokenizer_raises text supplied msg :
  (∀ names, supplied = Some names → forallb is_str names = true) →
  stream_error (csv_reader text) = Some msg →
  from_csv_text text supplied = Raise (CsvError msg).
Proof.
  intros Hstr Herr. unfold from_csv_text. destruct supplied as [[|name names]|].
  - destruct (header_names_raises text msg Herr) as [[names ->]| ->]; [|done].
    simpl. by rewrite (list_DictReader_raises _ _ msg).
  - by rewrite (Hstr _ eq_refl), (list_DictReader_raises _ _ msg).
  - destruct (header_names_raises text msg Herr) as [[names ->]| ->]; [|done].
    simpl. by rewrite (list_DictReader_raises _ _ msg).
Qed.

(** X17. [from_csv_text] fails in two ways only. It raises [TypeError]
    when a non-empty list of column names is supplied and one of them is
    not a [str]; the text is not read then. With names that are all [str],
    or none, it raises the tokenizer's [csv.Error] when the tokenizer
    raises on the text, and otherwise returns a [CSVParser] that holds the
    text, has the origin ["init from text"] and no key column set. *)
Theorem from_csv_text_raises_type_error_or_csv_error text supplied :
  (∀ names, supplied = Some names → names ≠ [] → forallb is_str names = false →
     from_csv_text text supplied = Raise (TypeError "All column names must be strings"))
  ∧ ((∀ names, supplied = Some names → forallb is_str names = true) →
     (∀ msg, stream_error (csv_reader text) = Some msg →
        from_csv_text text supplied = Raise (CsvError msg))
     ∧ (stream_error (csv_reader text) = None →
        ∃ d, from_csv_text text supplied = Ok d
          ∧ class_of d = CSVParser_class
          ∧ file_text d = text
          ∧ file_path d = "init from text"
          ∧ _index_column d = ""))
  ∧ (∀ d, from_csv_text text supplied = Ok d →
       stream_error (csv_reader text) = None
       ∧ ∀ names, supplied = Some names → forallb is_str names = true).
Proof.
  split_and!.
  - intros names -> Hne Hstr. unfold from_csv_text.
    destruct names as [|name names]; [done|]. by rewrite Hstr.
  - intros Hstr. split.
    + intros msg Herr. by apply from_csv_text_tokenizer_raises.
    + intros Hnone. destruct (from_csv_text_ok text supplied Hstr Hnone) as [d Hd].
      exists d. destruct (from_csv_text_fresh _ _ _ Hd) as (? & ? & ? & ? & ?).
      by split_and!.
  - intros d Hd. split; [by apply from_csv_text_Ok_inv in Hd as [? _]|].
    intros names ->. unfold from_csv_text in Hd.
    destruct names as [|name names]; [done|].
    by destruct (forallb is_str (name :: names)).
Qed.

Lemma construct_fresh input supplied d :
  construct input supplied = Ok d →
  class_of d = CSVParser_class ∧ _index_column d = "".
Proof.
  destruct input as [path|csv_lines|text]; simpl.
  - unfold from_file. destruct (negb (os_path_isfile path)); [done|].
    intros Hrun.
    apply bind_Ok_inv in Hrun as (encoding & _ & Hrun).
    apply bind_Ok_inv in Hrun as (text & _ & Hrun).
    apply bind_Ok_inv in Hrun as (d0 & Hd0 & [= <-]).
    by destruct (from_csv_text_fresh _ _ _ Hd0) as (? & ? & _).
  - unfold from_lines. intros Hrun.
    apply bind_Ok_inv in Hrun as (d0 & Hd0 & [= <-]).
    by destruct (from_csv_text_fresh _ _ _ Hd0) as (? & ? & _).
  - intros Hrun. by destruct (from_csv_text_fresh _ _ _ Hrun) as (? & ? & _).
Qed.

(** X18. A parser fresh from any factory, with at least one column,
    addresses its rows by its first column: the getter returns that column,
    and [get_value] reads from the first row whose first-column cell is the
    key value. *)
Theorem constructed_parser_keyed_by_first_column input supplied d first_column rest :
  construct input supplied = Ok d →
  column_names d = first_column :: rest →
  index_column d = Ok first_column
  ∧ ∀ k column_name,
      get_value d k column_name
      = Ok (row_get_default (get_row d first_column k) column_name (VStr "")).
Proof.
  intros Hrun Hcols. destruct (construct_fresh _ _ _ Hrun) as [Hcls Hidx].
  assert (index_column d = Ok first_column) as Hkey.
  { unfold index_column. by rewrite Hcls, Hcols, Hidx. }
  split; [done|]. intros k column_name. unfold get_value. by rewrite Hcls, Hkey.
Qed.

(** *** Rows as [csv.DictReader] builds them *)

Global Instance VStr_inj : Inj (=) (=) VStr.
Proof. by intros s1 s2 [= ->]. Qed.




Lemma dict_keys_foldl_subset (items : list (string * value)) (d : Dict.t) k :
  k ∈ Dict.keys (foldl (λ d kv, Dict.setitem d kv.1 kv.2) d items) →
  k ∈ Dict.keys d ∨ k ∈ items.*1.
Proof.
  revert d. induction items as [|[k' v'] items IH]; intros d Hk; simpl in Hk; [by left|].
  rewrite fmap_cons. simpl.
  destruct (IH _ Hk) as [Hd|Hin]; [|right; by apply list_elem_of_further].
  rewrite dict_keys_setitem in Hd. case_decide; [by left|].
  apply elem_of_app in Hd as [?| ->%list_elem_of_singleton]; [by left|].
  right. apply list_elem_of_here.
Qed.





(** ** Writing back *)

Lemma dict_get_filter_by_key (Q : string → Prop) `{∀ c, Decision (Q c)}
    (d : list (string * value)) c :
  Dict.get (filter (λ kv, Q kv.1) d) c = if decide (Q c) then Dict.get d c else None.
Proof.
  induction d as [|[k v] d IH]; simpl.
  { by destruct (decide (Q c)). }
  rewrite filter_cons. simpl.
  destruct (decide (Q k)) as [Hk|Hk]; simpl.
  - destruct (decide (k = c)) as [->|Hne]; [|done]. by rewrite decide_True.
  - rewrite IH. destruct (decide (k = c)) as [->|Hne]; [|done].
    by destruct (decide (Q c)).
Qed.

(** X21. [write_to_file] fails with a [ValueError] when the origin is not
    a file. Otherwise it attempts one write: to the origin, with the
    parser's encoding, the column list as header and one row per row of
    the parser; a row to write has no key outside the header, and under
    every column it holds what the parser's row holds there. The method
    returns when that write returns, and raises what that write raises. *)
Theorem write_to_file_writes_header_columns_only self :
  class_of self = CSVParser_class →
  (os_path_isfile (file_path self) = false →
     ∃ msg, write_to_file self = Raise (ValueError msg))
  ∧ (os_path_isfile (file_path self) = true →
     ∃ w, (write_csv w = Ok tt → write_to_file self = Ok (Some w))
       ∧ (∀ e, write_csv w = Raise e → write_to_file self = Raise e)
       ∧ fw_path w = file_path self
       ∧ fw_encoding w = _encoding self
       ∧ fw_fieldnames w = column_names self
       ∧ length (fw_rows w) = length (list_of_dicts self)
       ∧ ∀ n r, list_of_dicts self !! n = Some r →
           ∃ row, fw_rows w !! n = Some row
             ∧ (∀ c, c ∈ Dict.keys row → c ∈ column_names self)
             ∧ (NoDup (Dict.keys (cells r)) →
                ∀ c, c ∈ column_names self → Dict.get row c = Dict.get (cells r) c)).
Proof.
  intros Hcls. unfold write_to_file. rewrite Hcls. split; intros ->; simpl; [eauto|].
  exists (the_write self). split_and!; [by intros -> | by intros e -> | done..| |].
  { unfold the_write. simpl. by rewrite length_fmap. }
  unfold the_write. simpl.
  intros n r Hr. eexists. rewrite list_lookup_fmap, Hr. simpl. split; [done|]. split.
  - intros c Hc. apply dict_keys_foldl_subset in Hc as [Hc|Hc].
    { by apply not_elem_of_nil in Hc. }
    apply list_elem_of_fmap in Hc as ([k v] & -> & Hkv).
    by apply list_elem_of_filter in Hkv as [Hk _].
  - intros Hnd c Hc.
    rewrite dict_of_items_NoDup_id by (by apply dict_keys_filter_NoDup).
    pose proof (dict_get_filter_by_key (λ k, k ∈ column_names self) (cells r) c) as Hget.
    rewrite decide_True in Hget by done. exact Hget.
Qed.

(** ** The text of a report *)

(** X22. The text of a report that [compare] returns: when the files
    match it is the three fixed lines, the last one saying [True]; when
    they do not, the third line says [False] and at least one section
    follows. *)
Theorem compare_report_lines self index_column r self' :
  compare self index_column = Ok (r, self') →
  (CSVCompareOutput.match_result r = true →
     report_lines r
     = ["First file: " +:+ file_path (first_file self');
        "Second file: " +:+ file_path (second_file self');
        "Match result: True"]
     ∧ __str__ r
       = "First file: " +:+ file_path (first_file self') +:+ newline
         +:+ "Second file: " +:+ file_path (second_file self') +:+ newline
         +:+ "Match result: True")
  ∧ (CSVCompareOutput.match_result r = false →
     ∃ more, more ≠ []
       ∧ report_lines r
         = ["First file: " +:+ file_path (first_file self');
            "Second file: " +:+ file_path (second_file self');
            "Match result: False"] ++ more).
Proof.
  intros Hrun. apply compare_Ok_inv in Hrun
    as (_ & _ & first & second & mm & _ & _ & -> & _ & _ & _ & _ & _ & _
        & Hf1 & Hf2 & Hmatch).
  unfold __str__, report_lines. rewrite Hf1, Hf2, Hmatch. simpl.
  destruct (CSVCompareOutput.extra_cols_in_first_file r) as [|c1 l1],
    (CSVCompareOutput.extra_cols_in_second_file r) as [|c2 l2],
    (CSVCompareOutput.extra_rows_in_first_file r) as [|r1 l3],
    (CSVCompareOutput.extra_rows_in_second_file r) as [|r2 l4],
    (CSVCompareOutput.mismatched_rows r) as [|m l5]; simpl;
    (split; [intros Htrue; try done | intros Hfalse; try done]);
    eexists; (split; [|reflexivity]); done.
Qed.

(** ** Writing back, by origin *)

Lemma from_file_fresh path supplied d :
  from_file path supplied = Ok d →
  class_of d = CSVParser_class ∧ file_path d = path
  ∧ ∃ d0, column_names d = column_names d0 ∧ list_of_dicts d = list_of_dicts d0.
Proof.
  unfold from_file. destruct (negb (os_path_isfile path)); [done|]. intros Hrun.
  apply bind_Ok_inv in Hrun as (encoding & _ & Hrun).
  apply bind_Ok_inv in Hrun as (text & _ & Hrun).
  apply bind_Ok_inv in Hrun as (d0 & Hd0 & [= <-]).
  destruct (from_csv_text_fresh _ _ _ Hd0) as (Hcls & _). simpl. eauto.
Qed.

Lemma from_lines_fresh csv_lines supplied d :
  from_lines csv_lines supplied = Ok d →
  class_of d = CSVParser_class ∧ file_path d = "init from lines".
Proof.
  unfold from_lines. intros Hrun.
  apply bind_Ok_inv in Hrun as (d0 & Hd0 & [= <-]).
  by destruct (from_csv_text_fresh _ _ _ Hd0) as (Hcls & _).
Qed.

Lemma write_to_file_by_origin self :
  class_of self = CSVParser_class →
  (os_path_isfile (file_path self) = false →
     ∃ msg, write_to_file self = Raise (ValueError msg))
  ∧ (os_path_isfile (file_path self) = true →
     (write_csv (the_write self) = Ok tt →
        write_to_file self = Ok (Some (the_write self)))
     ∧ ∀ e, write_csv (the_write self) = Raise e → write_to_file self = Raise e).
Proof.
  intros Hcls. unfold write_to_file. rewrite Hcls. split; intros ->; simpl; [eauto|].
  split; [by intros ->|by intros e ->].
Qed.

(** ** Stripping twice *)

Lemma string_app_cons a (s t : string) : String a s +:+ t = String a (s +:+ t).
Proof. reflexivity. Qed.

Lemma string_app_nil_l (t : string) : "" +:+ t = t.
Proof. reflexivity. Qed.

Lemma string_app_nil_r (s : string) : s +:+ "" = s.
Proof. induction s as [|a s IH]; [done|]. by rewrite string_app_cons, IH. Qed.

Lemma string_app_assoc (s t u : string) : (s +:+ t) +:+ u = s +:+ (t +:+ u).
Proof. induction s as [|a s IH]; [done|]. by rewrite !string_app_cons, IH. Qed.

Lemma string_rev_app_spec (s t : string) :
  String.rev_app s t = String.rev s +:+ t.
Proof.
  revert t. unfold String.rev. induction s as [|a s IH]; intros t; simpl; [done|].
  rewrite (IH (String a t)), (IH (String a "")).
  by rewrite string_app_assoc.
Qed.

Lemma string_rev_cons a (s : string) :
  String.rev (String a s) = String.rev s +:+ String a "".
Proof. unfold String.rev at 1. simpl. apply string_rev_app_spec. Qed.

Lemma string_rev_snoc a (s : string) :
  String.rev (s +:+ String a "") = String a (String.rev s).
Proof.
  induction s as [|b s IH]; [done|].
  by rewrite string_app_cons, !string_rev_cons, IH, string_app_cons.
Qed.

Lemma string_rev_involutive (s : string) : String.rev (String.rev s) = s.
Proof.
  induction s as [|a s IH]; [done|].
  by rewrite string_rev_cons, string_rev_snoc, IH.
Qed.

Lemma lstrip_shape (s : string) :
  lstrip s = "" ∨ ∃ a s', lstrip s = String a s' ∧ py_isspace a = false.
Proof.
  induction s as [|a s IH]; simpl; [by left|].
  destruct (py_isspace a) eqn:Ha; [done|]. right. eauto.
Qed.

Lemma lstrip_nonspace a (s : string) :
  py_isspace a = false → lstrip (String a s) = String a s.
Proof. intros Ha. simpl. by rewrite Ha. Qed.

Lemma lstrip_idemp (s : string) : lstrip (lstrip s) = lstrip s.
Proof.
  destruct (lstrip_shape s) as [->|(a & s' & -> & Ha)]; [done|].
  by apply lstrip_nonspace.
Qed.

Lemma lstrip_snoc_nonspace a (s : string) :
  py_isspace a = false → ∃ u, lstrip (s +:+ String a "") = u +:+ String a "".
Proof.
  intros Ha. induction s as [|b s IH].
  - rewrite string_app_nil_l. simpl. rewrite Ha. by exists "".
  - rewrite string_app_cons. simpl.
    destruct (py_isspace b); [done|]. by exists (String b s).
Qed.

Lemma rstrip_idemp (s : string) : rstrip (rstrip s) = rstrip s.
Proof. unfold rstrip. by rewrite string_rev_involutive, lstrip_idemp. Qed.

Lemma lstrip_rstrip_lstrip (s : string) :
  lstrip (rstrip (lstrip s)) = rstrip (lstrip s).
Proof.
  destruct (lstrip_shape s) as [->|(a & s' & -> & Ha)]; [done|].
  unfold rstrip. rewrite string_rev_cons.
  destruct (lstrip_snoc_nonspace a (String.rev s') Ha) as [u ->].
  rewrite string_rev_snoc. by apply lstrip_nonspace.
Qed.

Lemma strip_idemp (s : string) : strip (strip s) = strip s.
Proof. unfold strip. by rewrite lstrip_rstrip_lstrip, rstrip_idemp. Qed.

Lemma strip_value_idemp (v : value) : strip_value (strip_value v) = strip_value v.
Proof. destruct v; simpl; [|done]. by rewrite strip_idemp. Qed.

Lemma dict_elem_of_setitem (d : Dict.t) k v kv :
  kv ∈ Dict.setitem d k v → kv ∈ d ∨ kv = (k, v).
Proof.
  induction d as [|[k' v'] d IH]; simpl.
  { intros ->%list_elem_of_singleton. by right. }
  destruct (decide (k' = k)) as [->|Hne].
  - intros [->|Hin]%elem_of_cons; [by right|]. left. by apply list_elem_of_further.
  - intros [->|Hin]%elem_of_cons; [left; apply list_elem_of_here|].
    destruct (IH Hin) as [?|?]; [left; by apply list_elem_of_further | by right].
Qed.

Lemma dict_elem_of_foldl (items : list (string * value)) (d : Dict.t) kv :
  kv ∈ foldl (λ d kv, Dict.setitem d kv.1 kv.2) d items → kv ∈ d ∨ kv ∈ items.
Proof.
  revert d. induction items as [|[k v] items IH]; intros d Hin; simpl in Hin; [by left|].
  destruct (IH _ Hin) as [Hd|Hitems]; [|right; by apply list_elem_of_further].
  apply dict_elem_of_setitem in Hd as [?| ->]; [by left|].
  right. apply list_elem_of_here.
Qed.

Lemma strip_row_idemp (r : dict_row) : strip_row (strip_row r) = strip_row r.
Proof.
  unfold strip_row. simpl. f_equal.
  set (g := λ kv : string * value, (strip kv.1, strip_value kv.2)).
  set (d := Dict.of_items (g <$> cells r)).
  assert (g <$> d = d) as ->.
  { rewrite <- (list_fmap_id d) at 2. apply list_fmap_ext.
    intros i kv Hkv. apply list_elem_of_lookup_2 in Hkv.
    apply dict_elem_of_foldl in Hkv as [Hkv|Hkv].
    { by apply not_elem_of_nil in Hkv. }
    apply list_elem_of_fmap in Hkv as ([k v] & -> & _). unfold g. simpl.
    by rewrite strip_idemp, strip_value_idemp. }
  apply dict_of_items_NoDup_id. unfold d, Dict.of_items.
  apply dict_keys_foldl_NoDup. apply NoDup_nil_2.
Qed.

(** X24. [strip_whitespace] is idempotent: a second call leaves the rows,
    the column list and the key column as the first call left them. *)
Theorem strip_whitespace_idempotent self :
  strip_whitespace (strip_whitespace self) = strip_whitespace self.
Proof.
  unfold strip_whitespace. destruct (class_of self) eqn:Hcls; simpl.
  2:{ by rewrite Hcls. }
  f_equal.
  - rewrite <- list_fmap_compose. apply list_fmap_ext. intros i r _. simpl.
    apply strip_row_idemp.
  - rewrite <- list_fmap_compose. apply list_fmap_ext. intros i c _. simpl.
    apply strip_idemp.
  - apply strip_idemp.
Qed.

(** ** Dropping columns before comparing *)

(** X25. After [CSVComparer.drop_columns], a dropped column cannot be the
    key of a comparison, and a comparison that returns does not report a
    dropped column, neither as an extra column nor in a mismatch. *)
Theorem compare_after_drop_columns self names index_column :
  class_of (first_file self) = CSVParser_class →
  class_of (second_file self) = CSVParser_class →
  (index_column ∈ names →
     ∃ msg, compare (comparer_drop_columns self names) index_column
            = Raise (ValueError msg))
  ∧ (∀ r self',
       compare (comparer_drop_columns self names) index_column = Ok (r, self') →
       ∀ c, c ∈ names →
         (c ∉ CSVCompareOutput.extra_cols_in_first_file r)
         ∧ (c ∉ CSVCompareOutput.extra_cols_in_second_file r)
         ∧ ∀ m, m ∈ CSVCompareOutput.mismatched_rows r →
                CSVCompareOutput.column m ≠ c).
Proof.
  intros Hcls1 Hcls2.
  assert (∀ p c, class_of p = CSVParser_class →
            c ∈ column_names (drop_columns p names) → c ∉ names) as Hdropped.
  { intros p c Hcls. unfold drop_columns. rewrite Hcls. simpl.
    by intros [? _]%list_elem_of_filter. }
  split.
  - intros Hin. unfold compare. simpl.
    destruct (decide (index_column ∉ column_names (drop_columns (first_file self) names)))
      as [|Hhas]; [eauto|].
    apply dec_stable in Hhas. by apply Hdropped in Hhas.
  - intros r self' Hrun c Hc.
    apply compare_Ok_inv in Hrun
      as (_ & _ & first & second & mm & Hset1 & Hset2 & _ & Hec1 & Hec2 & _ & _
          & Hmm & Hfor & _).
    simpl in Hset1, Hset2.
    destruct (set_index_column_frame _ _ _ Hset1) as (_ & Hcols1 & _).
    destruct (set_index_column_frame _ _ _ Hset2) as (_ & Hcols2 & _).
    split_and!.
    + rewrite Hec1, elem_of_elements, elem_of_difference, elem_of_list_to_set, Hcols1.
      intros [Hx _]. by apply Hdropped in Hx.
    + rewrite Hec2, elem_of_elements, elem_of_difference, elem_of_list_to_set, Hcols2.
      intros [Hx _]. by apply Hdropped in Hx.
    + intros m Hm <-. rewrite Hmm in Hm.
      apply compare_rows_spec in Hfor as (added & -> & Hadded).
      apply Hadded in Hm as (_ & Hcol & _).
      rewrite elem_of_elements, elem_of_intersection, elem_of_list_to_set, Hcols1
        in Hcol.
      destruct Hcol as [Hx _]. by apply Hdropped in Hx.
Qed.

(** ** Reading a file *)

(** X26. [from_file] on a path that is not a file raises
    [FileNotFoundError] naming the path. An exception of encoding
    detection that is neither an [OSError] nor a [LookupError] (subclasses
    included) leaves [from_file] as it is; one that is either is caught,
    and the file is read as ["utf-8"]. When [from_file] returns, the path
    is a file, the parser records the path and an encoding that is never
    empty, and reading the file under that encoding gives the recorded
    text; the encoding is the detected one, or ["utf-8"] when detection
    gives nothing or fails with a caught exception. *)
Theorem from_file_records_path_and_encoding path supplied :
  (os_path_isfile path = false →
     from_file path supplied = Raise (FileNotFoundError ("File not found: " +:+ path)))
  ∧ (∀ e, os_path_isfile path = true → get_encoding path = Raise e →
       is_OSError e || is_LookupError e = false →
       from_file path supplied = Raise e)
  ∧ (∀ e text, os_path_isfile path = true → get_encoding path = Raise e →
       is_OSError e || is_LookupError e = true →
       read_text path "utf-8" = Ok text →
       from_file path supplied
       = (csv_parser ← from_csv_text text supplied;
          Ok (with_origin csv_parser path "utf-8")))
  ∧ ∀ d, from_file path supplied = Ok d →
      os_path_isfile path = true
      ∧ file_path d = path
      ∧ _encoding d ≠ ""
      ∧ read_text path (_encoding d) = Ok (file_text d)
      ∧ (∀ e, get_encoding path = Ok (Some e) → e ≠ "" → _encoding d = e)
      ∧ ((get_encoding path = Ok None) ∨ (get_encoding path = Ok (Some ""))
         ∨ (∃ e, get_encoding path = Raise e
                 ∧ is_OSError e || is_LookupError e = true) →
         _encoding d = "utf-8").
Proof.
  unfold from_file. split_and!.
  { by intros ->. }
  { intros e -> He Hnot. simpl. by rewrite He, Hnot. }
  { intros e text -> He Hcaught Hread. simpl. rewrite He, Hcaught. simpl.
    by rewrite Hread. }
  intros d Hrun. destruct (os_path_isfile path); [|done]. simpl in Hrun.
  apply bind_Ok_inv in Hrun as (encoding & Henc & Hrun).
  apply bind_Ok_inv in Hrun as (text & Htext & Hrun).
  apply bind_Ok_inv in Hrun as (d0 & Hd0 & [= <-]).
  destruct (from_csv_text_fresh _ _ _ Hd0) as (_ & _ & Htxt & _). simpl.
  rewrite Htxt.
  assert (read_text path encoding = Ok text) as Hread.
  { destruct (read_text path encoding) as [t|[]|]; done. }
  split_and!; [done | done | | done | |].
  - destruct (get_encoding path) as [[e|]|e|]; simpl in Henc; try done.
    + injection Henc as <-. by destruct (decide (e = "")).
    + by injection Henc as <-.
    + destruct (is_OSError e || is_LookupError e); [by injection Henc as <-|done].
  - intros e He Hne. rewrite He in Henc. injection Henc as <-.
    by destruct (decide (e = "")).
  - intros [He|[He|(e & He & Hcaught)]]; rewrite He in Henc.
    + by injection Henc as <-.
    + by injection Henc as <-.
    + rewrite Hcaught in Henc. by injection Henc as <-.
Qed.

(** ** Building a comparer *)

Lemma from_lines_ok csv_lines :
  stream_error (csv_reader (String.concat newline csv_lines)) = None →
  ∃ d, from_lines csv_lines None = Ok d
    ∧ class_of d = CSVParser_class
    ∧ file_path d = "init from lines"
    ∧ file_text d = String.concat newline csv_lines
    ∧ _index_column d = ""
    ∧ NoDup (column_names d).
Proof.
  intros Hnone. unfold from_lines.
  destruct (from_csv_text_ok (String.concat newline csv_lines) None) as [d0 Hd0];
    [by intros names [=] | done |].
  rewrite Hd0. simpl. eexists. split; [done|]. simpl.
  destruct (from_csv_text_fresh _ _ _ Hd0) as (? & ? & ? & _).
  split_and!; try done.
  destruct (from_csv_text_columns _ _ _ Hd0) as [Hnd _]. apply Hnd. by left.
Qed.

Lemma from_lines_tokenizer_raises csv_lines msg :
  stream_error (csv_reader (String.concat newline csv_lines)) = Some msg →
  from_lines csv_lines None = Raise (CsvError msg).
Proof.
  intros Herr. unfold from_lines.
  rewrite (from_csv_text_tokenizer_raises _ None msg); [done | | done].
  by intros names [=].
Qed.

(** X27. [CSVComparer.from_lines] returns when the tokenizer raises on
    neither joined text: both sides are then parsers of the joined lines,
    with the origin ["init from lines"], no key column set and column names
    without duplicates. When the tokenizer raises on the first text, or
    on the second one only, the call raises that [csv.Error]. *)
Theorem comparer_from_lines_returns_unless_tokenizer_raises
    first_file_lines second_file_lines :
  (stream_error (csv_reader (String.concat newline first_file_lines)) = None →
   stream_error (csv_reader (String.concat newline second_file_lines)) = None →
   ∃ c, comparer_from_lines first_file_lines second_file_lines = Ok c
     ∧ ∀ side csv_lines,
         (side, csv_lines) ∈ [(first_file c, first_file_lines);
                              (second_file c, second_file_lines)] →
         class_of side = CSVParser_class
         ∧ file_path side = "init from lines"
         ∧ file_text side = String.concat newline csv_lines
         ∧ _index_column side = ""
         ∧ NoDup (column_names side))
  ∧ (∀ msg,
       stream_error (csv_reader (String.concat newline first_file_lines)) = Some msg →
       comparer_from_lines first_file_lines second_file_lines = Raise (CsvError msg))
  ∧ (∀ msg,
       stream_error (csv_reader (String.concat newline first_file_lines)) = None →
       stream_error (csv_reader (String.concat newline second_file_lines)) = Some msg →
       comparer_from_lines first_file_lines second_file_lines = Raise (CsvError msg)).
Proof.
  unfold comparer_from_lines. split_and!.
  - intros Hfirst Hsecond.
    destruct (from_lines_ok first_file_lines Hfirst) as (a & -> & Ha).
    destruct (from_lines_ok second_file_lines Hsecond) as (b & -> & Hb). simpl.
    eexists. split; [done|]. simpl. intros side csv_lines Hin.
    apply elem_of_cons in Hin as [[= -> ->]|Hin]; [done|].
    apply list_elem_of_singleton in Hin as [= -> ->]. done.
  - intros msg Herr. by rewrite (from_lines_tokenizer_raises _ msg Herr).
  - intros msg Hfirst Herr.
    destruct (from_lines_ok first_file_lines Hfirst) as (a & -> & _). simpl.
    by rewrite (from_lines_tokenizer_raises _ msg Herr).
Qed.

(** ** The key values after the setter *)

(** X4. When the name passed to the setter is the name the getter then
    returns (any non-empty name, or the first column), the values the
    setter leaves in that column are the result of [_unique_vals] on the
    values it held before, position by position, and so pairwise
    distinct. *)
Theorem set_index_column_key_values_are_unique_vals self value self' :
  class_of self = CSVParser_class →
  value ≠ "" ∨ head (column_names self) = Some value →
  set_index_column self value = Ok self' →
  ∃ out,
    _unique_vals (row_values_in_column self value) = Ok out
    ∧ row_values_in_column self' value = out
    ∧ length out = length (list_of_dicts self)
    ∧ NoDup out.
Proof.
  intros Hcls Hname Hrun.
  destruct (set_index_column_rows _ _ _ Hcls Hname Hrun)
    as (Hin & row_vals & Huv & Hnd & Hlen & ->).
  exists row_vals. split_and!; [done | | done | done].
  unfold row_values_in_column. simpl. rewrite Hcls, decide_True by done.
  apply list_eq. intros n. rewrite list_lookup_fmap, lookup_zip_with.
  destruct (list_of_dicts self !! n) as [r|] eqn:Hr; simpl.
  - destruct (row_vals !! n) as [v|] eqn:Hv; simpl.
    + unfold row_get_default. simpl. by rewrite dict_get_setitem_eq.
    + apply lookup_ge_None in Hv. apply lookup_lt_Some in Hr. lia.
  - symmetry. apply lookup_ge_None. apply lookup_ge_None in Hr. lia.
Qed.

End World.

(** * Writing back at a later time

    The file system when [write_to_file] runs need not be the one the
    factory saw: the statement below has one world for each call. *)

(** X23. Writing back, by origin. For a parser [from_file] returned,
    [write_to_file] at any later state of the file system raises
    [ValueError] when the path is not a file then; otherwise it attempts
    the write to that path with the parser's columns as header, returns
    when the write returns and raises what the write raises. For a parser
    [from_lines] or [from_csv_text] returned it raises [ValueError],
    unless a file then carries the name of the origin sentinel. *)
Theorem write_back_needs_file_origin
    (csv_reader : string → csv_stream) (os_path_isfile : string → bool)
    (get_encoding : string → outcome (option string))
    (read_text : string → string → outcome string)
    (os_path_isfile_later : string → bool)
    (write_csv_later : file_write → outcome unit) :
  (∀ path supplied d,
     from_file csv_reader os_path_isfile get_encoding read_text path supplied = Ok d →
     (os_path_isfile_later path = false →
        ∃ msg, write_to_file os_path_isfile_later write_csv_later d
               = Raise (ValueError msg))
     ∧ (os_path_isfile_later path = true →
        ∃ w, fw_path w = path ∧ fw_fieldnames w = column_names d
          ∧ (write_csv_later w = Ok tt →
             write_to_file os_path_isfile_later write_csv_later d = Ok (Some w))
          ∧ (∀ e, write_csv_later w = Raise e →
                  write_to_file os_path_isfile_later write_csv_later d = Raise e)))
  ∧ (∀ csv_lines supplied d, from_lines csv_reader csv_lines supplied = Ok d →
       os_path_isfile_later "init from lines" = false →
       ∃ msg, write_to_file os_path_isfile_later write_csv_later d
              = Raise (ValueError msg))
  ∧ (∀ text supplied d, from_csv_text csv_reader text supplied = Ok d →
       os_path_isfile_later "init from text" = false →
       ∃ msg, write_to_file os_path_isfile_later write_csv_later d
              = Raise (ValueError msg)).
Proof.
  split_and!.
  - intros path supplied d Hrun.
    destruct (from_file_fresh _ _ _ _ _ _ _ Hrun) as (Hcls & Hpath & _).
    destruct (write_to_file_by_origin os_path_isfile_later write_csv_later d Hcls)
      as [Hno Hyes].
    rewrite Hpath in Hno, Hyes. split; [exact Hno|]. intros Hfile.
    destruct (Hyes Hfile) as [Hok Hraise].
    exists (the_write d). by split_and!.
  - intros csv_lines supplied d Hrun Hfile.
    destruct (from_lines_fresh _ _ _ _ Hrun) as (Hcls & Hpath).
    destruct (write_to_file_by_origin os_path_isfile_later write_csv_later d Hcls)
      as [Hno _].
    rewrite Hpath in Hno. by apply Hno.
  - intros text supplied d Hrun Hfile.
    destruct (from_csv_text_fresh _ _ _ _ Hrun) as (Hcls & _ & _ & Hpath & _).
    destruct (write_to_file_by_origin os_path_isfile_later write_csv_later d Hcls)
      as [Hno _].
    rewrite Hpath in Hno. by apply Hno.
Qed.

(** * Concrete runs

    The runs below use [plain_csv_reader] and [plain_repr_list]; their
    inputs hold no quote and no non-printing character. *)

Lemma conj_then (P Q : Prop) : P → (P → Q) → P ∧ Q.
Proof. intros p f. exact (conj p (f p)). Defined.

(** C1: the claim as stated fails. In [["a","a","a.1"]] the third name
    occurs for the first time, and it is renamed: the second name was
    turned into that very name. *)
Lemma unique_vals_renames_first_occurrence :
  [VStr "a"; VStr "a"; VStr "a.1"] !! 2 = Some (VStr "a.1")
  ∧ (VStr "a.1" ∉ take 2 [VStr "a"; VStr "a"; VStr "a.1"])
  ∧ _unique_vals [VStr "a"; VStr "a"; VStr "a.1"]
      = Ok [VStr "a"; VStr "a.1"; VStr "a.1.1"].
Proof.
  split_and!; [done | | vm_compute; reflexivity].
  simpl. intros Hin. repeat (apply elem_of_cons in Hin as [Hin|Hin]; [done|]).
  by apply not_elem_of_nil in Hin.
Qed.

(** C2 at the rows of the end-to-end example: one cell differs. *)
Lemma compare_match_result_witness :
  ∃ c r c',
    comparer_from_lines plain_csv_reader
      ["c1,c2"; "r1,v1"; "r2,v2"; "r3,MISMATCH"]
      ["c1,c2"; "r1,v1"; "r2,v2"; "r3,v3"] = Ok c
    ∧ compare plain_repr_list c "c1" = Ok (r, c')
    ∧ (CSVCompareOutput.match_result r = true
        ↔ CSVCompareOutput.extra_cols_in_first_file r = []
          ∧ CSVCompareOutput.extra_cols_in_second_file r = []
          ∧ CSVCompareOutput.extra_rows_in_first_file r = []
          ∧ CSVCompareOutput.extra_rows_in_second_file r = []
          ∧ CSVCompareOutput.mismatched_rows r = []).
Proof.
  eexists _, _, _. split; [vm_compute; reflexivity|].
  apply conj_then; [vm_compute; reflexivity|].
  apply compare_match_result_iff_all_empty.
Defined.

(** C4 at two files that each have a column the other lacks. *)
Lemma compare_extra_cols_witness :
  ∃ c r c',
    comparer_from_lines plain_csv_reader
      ["column 1,column 4"; "row 1,row 1:2"; "row 2,row 2:2"]
      ["column 1,column 2"; "row 1,row 1:2"; "row 2,row 2:2"] = Ok c
    ∧ compare plain_repr_list c "column 1" = Ok (r, c')
    ∧ CSVCompareOutput.extra_cols_in_first_file r = ["column 4"]
    ∧ CSVCompareOutput.extra_cols_in_second_file r = ["column 2"]
    ∧ ((∀ x, x ∈ CSVCompareOutput.extra_cols_in_first_file r
             ↔ x ∈ column_names (first_file c) ∧ x ∉ column_names (second_file c))
       ∧ (∀ x, x ∈ CSVCompareOutput.extra_cols_in_second_file r
             ↔ x ∈ column_names (second_file c) ∧ x ∉ column_names (first_file c))
       ∧ NoDup (CSVCompareOutput.extra_cols_in_first_file r)
       ∧ NoDup (CSVCompareOutput.extra_cols_in_second_file r)
       ∧ (∀ x, x ∈ CSVCompareOutput.extra_cols_in_first_file r →
               x ∉ CSVCompareOutput.extra_cols_in_second_file r)).
Proof.
  eexists _, _, _. split; [vm_compute; reflexivity|].
  apply conj_then; [vm_compute; reflexivity|]. intros Hrun.
  split; [reflexivity|]. split; [reflexivity|].
  exact (compare_extra_cols_are_set_differences _ _ _ _ _ Hrun).
Defined.

(** C5: the code at a header whose second column has the empty name. With
    that column as the key, the setter reads the key values from it and
    writes the disambiguated values into the first column: the key column
    keeps its repeated value, and the first column's cells are replaced. *)
Lemma set_index_column_empty_name_rewrites_first_column :
  ∃ d d',
    from_lines plain_csv_reader ["a,"; "1,k"; "2,k"] None = Ok d
    ∧ column_names d = ["a"; ""]
    ∧ row_values_in_column d "a" = [VStr "1"; VStr "2"]
    ∧ row_values_in_column d "" = [VStr "k"; VStr "k"]
    ∧ set_index_column d "" = Ok d'
    ∧ row_values_in_column d' "" = [VStr "k"; VStr "k"]
    ∧ row_values_in_column d' "a" = [VStr "k"; VStr "k.1"].
Proof.
  eexists _, _. split; [vm_compute; reflexivity|].
  split; [reflexivity|]. split; [reflexivity|]. split; [reflexivity|].
  split; [vm_compute; reflexivity|]. split; reflexivity.
Qed.

(** C6: the claim as stated fails. Supplied names are taken as they are,
    repeated names included. *)
Lemma supplied_column_names_keep_duplicates :
  ∃ d,
    from_lines plain_csv_reader ["row 1,row 1:2"] (Some [VStr "a"; VStr "a"]) = Ok d
    ∧ column_names d = ["a"; "a"]
    ∧ ¬ NoDup (column_names d).
Proof.
  eexists. split; [vm_compute; reflexivity|]. split; [reflexivity|].
  simpl. intros Hnd. apply NoDup_cons in Hnd as [Hnotin _].
  apply Hnotin, list_elem_of_here.
Qed.

(** C6 (amended) at a header with a repeated name and no names supplied. *)
Lemma constructed_columns_witness :
  ∃ d,
    construct plain_csv_reader (λ _, false) (λ _, Ok None) (λ _ _, Ok "")
      (FromLines ["column 1,column 2,column 1"; "row 1,row 1:2,row 1:1"]) None = Ok d
    ∧ column_names d = ["column 1"; "column 2"; "column 1.1"]
    ∧ ((@None (list value) = None ∨ @None (list value) = Some [] →
          NoDup (column_names d))
       ∧ (∀ names : list value, None = Some names → names ≠ [] →
            VStr <$> column_names d = names)).
Proof.
  eexists. apply conj_then; [vm_compute; reflexivity|]. intros Hrun.
  split; [reflexivity|].
  exact (constructed_columns_unique_unless_supplied _ _ _ _ _ _ _ Hrun).
Defined.

(** C7 at a file with a repeated key value. *)
Lemma compare_same_input_witness :
  ∃ d1 d2,
    construct plain_csv_reader (λ _, false) (λ _, Ok None) (λ _ _, Ok "")
      (FromLines ["c1,c2"; "r1,v1"; "r1,v2"; "r3,v3"]) None = Ok d1
    ∧ construct plain_csv_reader (λ _, false) (λ _, Ok None) (λ _ _, Ok "")
        (FromLines ["c1,c2"; "r1,v1"; "r1,v2"; "r3,v3"]) None = Ok d2
    ∧ "c1" ∈ column_names d1
    ∧ ∃ r self', compare plain_repr_list (from_csv_parsers d1 d2) "c1" = Ok (r, self')
        ∧ CSVCompareOutput.match_result r = true
        ∧ CSVCompareOutput.extra_cols_in_first_file r = []
        ∧ CSVCompareOutput.extra_cols_in_second_file r = []
        ∧ CSVCompareOutput.extra_rows_in_first_file r = []
        ∧ CSVCompareOutput.extra_rows_in_second_file r = []
        ∧ CSVCompareOutput.mismatched_rows r = [].
Proof.
  eexists _, _.
  apply conj_then; [vm_compute; reflexivity|]. intros H1.
  apply conj_then; [vm_compute; reflexivity|]. intros H2.
  apply conj_then; [apply list_elem_of_here|]. intros Hin.
  exact (compare_same_input_matches _ plain_repr_list _ _ _ _ _ _ _ _ H1 H2 Hin).
Defined.

(** C8: the claim as stated fails. On a parser with no column the read
    raises the getter's [ValueError]. *)
Lemma get_value_raises_without_columns :
  ∃ d,
    from_csv_text plain_csv_reader "" None = Ok d
    ∧ column_names d = []
    ∧ get_value d (VStr "row 1") "column 1"
        = Raise (ValueError "No columns available to set or get the index column").
Proof.
  eexists. split; [vm_compute; reflexivity|]. split; reflexivity.
Qed.

(** C8 (amended) at a key value no row has, and at a parser with no
    column. *)
Lemma get_value_returns_witness :
  (∃ d,
     from_lines plain_csv_reader
       ["column 1,column 2,column 3"; "row 1,row 1:2,row 1:3"] None = Ok d
     ∧ column_names d ≠ []
     ∧ get_value d (VStr "row 1") "column 3" = Ok (VStr "row 1:3")
     ∧ ∃ v, get_value d (VStr "row 9") "column 3" = Ok v
         ∧ (∀ key, index_column d = Ok key →
              (∀ row, row ∈ list_of_dicts d → row_get row key ≠ VStr "row 9") →
              v = VStr "")
         ∧ (∀ key, index_column d = Ok key →
              Dict.get (cells (get_row d key (VStr "row 9"))) "column 3" = None →
              v = VStr ""))
  ∧ (∃ d,
       from_lines plain_csv_reader [] None = Ok d
       ∧ class_of d = CSVParser_class
       ∧ column_names d = []
       ∧ get_value d (VStr "row 9") "column 3"
         = Raise (ValueError "No columns available to set or get the index column")).
Proof.
  split.
  - eexists. split; [vm_compute; reflexivity|].
    apply conj_then; [done|]. intros Hcols.
    split; [reflexivity|].
    exact (proj1 (get_value_returns_when_columns _ (VStr "row 9") "column 3")
             (or_intror Hcols)).
  - eexists. split; [vm_compute; reflexivity|].
    apply conj_then; [reflexivity|]. intros Hcls.
    apply conj_then; [reflexivity|]. intros Hcols.
    exact (proj2 (get_value_returns_when_columns _ (VStr "row 9") "column 3")
             Hcls Hcols).
Defined.

(** C10: the claim as stated fails. With three columns that strip to one
    name, the merged cell of the first two holds the value of the third.
    With a header [ a.1,a,a] the columns [ a.1] and [a.1] differ by a
    leading space only, the rows have no cell for the later one, and the
    cell named [a.1] after stripping holds the earlier column's value. *)
Lemma strip_whitespace_merged_cell_not_of_later_column :
  (∃ d,
     from_lines plain_csv_reader [" a,a,a "; "1,2,3"] None = Ok d
     ∧ column_names d = [" a"; "a"; "a "]
     ∧ list_of_dicts d =
         [DictRow [(" a", VStr "1"); ("a", VStr "2"); ("a ", VStr "3")] None]
     ∧ list_of_dicts (strip_whitespace d) = [DictRow [("a", VStr "3")] None])
  ∧ (∃ d,
       from_lines plain_csv_reader [" a.1,a,a"; "1,2,3"] None = Ok d
       ∧ column_names d = [" a.1"; "a"; "a.1"]
       ∧ list_of_dicts d = [DictRow [(" a.1", VStr "1"); ("a", VStr "3")] None]
       ∧ column_names (strip_whitespace d) = ["a.1"; "a"; "a.1"]
       ∧ list_of_dicts (strip_whitespace d) =
           [DictRow [("a.1", VStr "1"); ("a", VStr "3")] None]).
Proof.
  split.
  - eexists. split; [vm_compute; reflexivity|]. by split_and!.
  - eexists. split; [vm_compute; reflexivity|]. by split_and!.
Qed.

(** C10 (amended) at a header [ a,a]: the row [1,2] keeps one cell, [a],
    holding [2]. *)
Lemma strip_whitespace_merge_witness :
  ∃ d,
    from_lines plain_csv_reader [" a,a"; "1,2"] None = Ok d
    ∧ column_names (strip_whitespace d) = ["a"; "a"]
    ∧ ¬ NoDup (column_names (strip_whitespace d))
    ∧ ∃ r', list_of_dicts (strip_whitespace d) !! 0 = Some r'
        ∧ Dict.get (cells r') "a" = Some (VStr "2")
        ∧ NoDup (Dict.keys (cells r'))
        ∧ length (cells r') < 2.
Proof.
  eexists. split; [vm_compute; reflexivity|]. split; [reflexivity|].
  destruct (strip_whitespace_merges_colliding_columns
              (MkParser CSVParser_class
                 [DictRow [(" a", VStr "1"); ("a", VStr "2")] None]
                 [" a"; "a"] (String.concat newline [" a,a"; "1,2"]) ""
                 "init from lines" "utf-8")
              0 1 " a" "a")
    as (_ & _ & Hdup & Hrows);
    [reflexivity | reflexivity | reflexivity | lia | discriminate | reflexivity |].
  split; [exact Hdup|].
  apply (Hrows 0 (DictRow [(" a", VStr "1"); ("a", VStr "2")] None)
               [(" a", VStr "1")] (VStr "2") []).
  - reflexivity.
  - apply list_elem_of_here.
  - reflexivity.
  - intros kv Hkv. by apply not_elem_of_nil in Hkv.
Defined.

(** ** The repository's tests, on the model *)

(** [test_unique_vals], first case. *)
Example test_unique_vals :
  _unique_vals (VStr <$> ["column1"; "column1"; "column2"; "column2"; "column3"; "column1"])
  = Ok (VStr <$> ["column1"; "column1.1"; "column2"; "column2.1"; "column3"; "column1.2"]).
Proof. vm_compute. reflexivity. Qed.

(** [test_parsing_duplicate_column_names] and
    [test_csv_parser_with_column_names]. *)
Example test_column_names :
  (∃ p, from_lines plain_csv_reader
          ["column 1,column 2,column 1"; "row 1,row 1:2,row 1:1"] None = Ok p
     ∧ column_names p = ["column 1"; "column 2"; "column 1.1"])
  ∧ (∃ p, from_lines plain_csv_reader ["row 1,row 1:2,row 1:3"]
            (Some (VStr <$> ["column 1"; "column 2"; "column 3"])) = Ok p
       ∧ column_names p = ["column 1"; "column 2"; "column 3"]).
Proof. split; eexists; (split; [vm_compute; reflexivity | reflexivity]). Qed.

(** [test_csv_parser_with_invalid_column_name_type]: the second name is
    not a [str]. *)
Example test_invalid_column_name_type :
  from_lines plain_csv_reader ["row 1,row 1:2,row 1:3"]
    (Some [VStr "column 1"; VNone; VStr "column 3"])
  = Raise (TypeError "All column names must be strings").
Proof. reflexivity. Qed.

(** [test_strip_whitespace]. *)
Example test_strip_whitespace :
  ∃ p, from_lines plain_csv_reader
         [" column 1 , column 2 , column 3 ";
          " row 1,row 1:2,row 1:3 ";
          " row 2,row 2:2,row 2:3 "] None = Ok p
    ∧ column_names p = [" column 1 "; " column 2 "; " column 3 "]
    ∧ get_value p (VStr " row 1") " column 3 " = Ok (VStr "row 1:3 ")
    ∧ column_names (strip_whitespace p) = ["column 1"; "column 2"; "column 3"]
    ∧ get_value (strip_whitespace p) (VStr "row 1") "column 3" = Ok (VStr "row 1:3").
Proof. eexists. split; [vm_compute; reflexivity|]. by split_and!. Qed.

(** [test_index]. *)
Example test_index :
  ∃ p p', from_lines plain_csv_reader
            ["column 1,column 2,column 3";
             "row 1,row 1:2,row 1:3";
             "row 2,row 2:2,row 2:3"] None = Ok p
    ∧ set_index_column p "column 2" = Ok p'
    ∧ get_value p' (VStr "row 1:2") "column 3" = Ok (VStr "row 1:3")
    ∧ set_index_column p' "column nonexistent"
        = Raise (ValueError "Column 'column nonexistent' not found in column names").
Proof.
  eexists _, _. split; [vm_compute; reflexivity|].
  split; [vm_compute; reflexivity|]. by split_and!.
Qed.

(** [test_check_empty_file]. *)
Example test_check_empty_file :
  ∃ p, from_lines plain_csv_reader [] (Some []) = Ok p
    ∧ column_names p = []
    ∧ index_column p
        = Raise (ValueError "No columns available to set or get the index column")
    ∧ set_index_column p "any_column"
        = Raise (ValueError "No columns available to set the index column")
    ∧ has_error plain_csv_reader p = Ok false.
Proof. eexists. split; [vm_compute; reflexivity|]. by split_and!. Qed.

(** [test_mismatched_values_with_extra_rows]. *)
Example test_mismatched_values_with_extra_rows :
  ∃ c r c',
    comparer_from_lines plain_csv_reader
      ["column 1,column 2,column 3";
       "row 1,row 1:2,row 1:3";
       "row 2,row 2:2,row 2:3";
       "row 3,row 3:2_mismatch,row 3:3";
       "row 4,row 4:2,row 4:3"]
      ["column 1,column 2"; "row 1,row 1:2"; "row 2,row 2:2"; "row 3,row 3:2"] = Ok c
    ∧ compare plain_repr_list c "column 1" = Ok (r, c')
    ∧ CSVCompareOutput.extra_rows_in_first_file r = [VStr "row 4"]
    ∧ CSVCompareOutput.extra_cols_in_first_file r = ["column 3"]
    ∧ CSVCompareOutput.mismatched_rows r =
        [CSVCompareOutput.Mismatch (VStr "row 3") "column 2"
           (VStr "row 3:2_mismatch") (VStr "row 3:2")]
    ∧ CSVCompareOutput.match_result r = false.
Proof.
  eexists _, _, _. split; [vm_compute; reflexivity|].
  split; [vm_compute; reflexivity|]. by split_and!.
Qed.

(** [test_drop_columns] of the comparer. *)
Example test_comparer_drop_columns :
  ∃ c r c',
    comparer_from_lines plain_csv_reader
      ["column 1,column 2,column 3";
       "row 1,row 1:2,row 1:3";
       "row 2,row 2:2,row 2:3";
       "row 3,row 3:2,row 3:3"]
      ["column 1,column 2"; "row 1,row 1:2"; "row 2,row 2:2"; "row 3,row 3:2"] = Ok c
    ∧ compare plain_repr_list (comparer_drop_columns c ["column 3"]) "column 1"
        = Ok (r, c')
    ∧ CSVCompareOutput.extra_cols_in_first_file r = []
    ∧ CSVCompareOutput.match_result r = true.
Proof.
  eexists _, _, _. split; [vm_compute; reflexivity|].
  split; [vm_compute; reflexivity|]. by split_and!.
Qed.

(** [test_compare_with_invalid_index_column]. *)
Example test_compare_with_invalid_index_column :
  ∃ c,
    comparer_from_lines plain_csv_reader
      ["column 1,column 2"; "row 1,row 1:2"]
      ["column 1,column 2"; "row 1,row 1:2"] = Ok c
    ∧ compare plain_repr_list c "nonexistent"
        = Raise (ValueError
            "Index column 'nonexistent' not found in first file. Available columns: ['column 1', 'column 2']").
Proof.
  eexists. split; [vm_compute; reflexivity|]. vm_compute. reflexivity.
Qed.

(** A tokenizer that raises: [from_lines] raises its [csv.Error], and
    [has_error] raises it only when no line before the failing one has
    another length than the header. *)
Example tokenizer_error_runs :
  from_lines (λ _, CsvStream [["c1"; "c2"]] (Some "field larger than field limit (131072)"))
    ["c1,c2"; "r1,long"] None
  = Raise (CsvError "field larger than field limit (131072)")
  ∧ has_error (λ _, CsvStream [["c1"; "c2"]; ["r1"; "v1"]] (Some "line contains NUL"))
      (MkParser CSVParser_class [] [] "text" "" "init from text" "utf-8")
    = Raise (CsvError "line contains NUL")
  ∧ has_error (λ _, CsvStream [["c1"; "c2"]; ["r1"]] (Some "line contains NUL"))
      (MkParser CSVParser_class [] [] "text" "" "init from text" "utf-8")
    = Ok true.
Proof. split_and!; vm_compute; reflexivity. Qed.

(** Encoding detection that fails with a subclass of [LookupError] or of
    [OSError] is caught by [from_file]; any other exception is not. *)
Example from_file_encoding_detection_runs :
  (∃ d, from_file plain_csv_reader (λ _, true) (λ _, Raise (KeyError "encoding"))
          (λ _ _, Ok "c1,c2") "a.csv" None = Ok d
     ∧ _encoding d = "utf-8" ∧ column_names d = ["c1"; "c2"])
  ∧ (∃ d, from_file plain_csv_reader (λ _, true)
            (λ _, Raise (FileNotFoundError "a.csv"))
            (λ _ _, Ok "c1,c2") "a.csv" None = Ok d
       ∧ _encoding d = "utf-8")
  ∧ from_file plain_csv_reader (λ _, true) (λ _, Raise (TypeError "bytes expected"))
      (λ _ _, Ok "c1,c2") "a.csv" None
    = Raise (TypeError "bytes expected").
Proof.
  split_and!.
  - eexists. split; [vm_compute; reflexivity|]. by split.
  - eexists. split; [vm_compute; reflexivity|]. done.
  - vm_compute. reflexivity.
Qed.

(** [null_csv_parser_test.py]: [test_defaults] and [test_return_values]. *)
Example test_null_defaults :
  list_of_dicts NullCSVParser_init = []
  ∧ column_names NullCSVParser_init = []
  ∧ file_text NullCSVParser_init = ""
  ∧ file_path NullCSVParser_init = "null"
  ∧ index_column NullCSVParser_init = Ok ""
  ∧ row_values_in_column NullCSVParser_init "col" = []
  ∧ get_value NullCSVParser_init (VStr "row") "col" = Ok (VStr "").
Proof. by split_and!. Qed.


(** * Concrete runs of the further properties *)

(** X2 at a list whose third name is renamed. *)
Lemma unique_vals_idempotent_witness :
  _unique_vals [VStr "a"; VStr "a"; VStr "a.1"]
    = Ok [VStr "a"; VStr "a.1"; VStr "a.1.1"]
  ∧ _unique_vals [VStr "a"; VStr "a.1"; VStr "a.1.1"]
    = Ok [VStr "a"; VStr "a.1"; VStr "a.1.1"].
Proof.
  apply conj_then; [vm_compute; reflexivity|]. intros Hrun.
  exact (unique_vals_idempotent _ _ Hrun).
Defined.

(** X3 at a parser with two columns and the second as the key. *)
Lemma set_index_column_returns_iff_column_witness :
  ∃ d,
    from_lines plain_csv_reader ["c1,c2"; "r1,v1"; "r1,v2"; "r3,v3"] None = Ok d
    ∧ class_of d = CSVParser_class
    ∧ ((column_names d = [] →
          set_index_column d "c2"
          = Raise (ValueError "No columns available to set the index column"))
       ∧ (column_names d ≠ [] → "c2" ∉ column_names d →
          set_index_column d "c2"
          = Raise (ValueError ("Column '" +:+ "c2" +:+ "' not found in column names")))
       ∧ ("c2" ∈ column_names d → ∃ self', set_index_column d "c2" = Ok self')
       ∧ ((∃ self', set_index_column d "c2" = Ok self') → "c2" ∈ column_names d)).
Proof.
  eexists. split; [vm_compute; reflexivity|].
  apply conj_then; [reflexivity|]. intros Hcls.
  exact (set_index_column_returns_iff_column _ "c2" Hcls).
Defined.

(** X4 at a key column with a repeated value. *)
Lemma set_index_column_key_values_witness :
  ∃ d d',
    from_lines plain_csv_reader ["c1,c2"; "r1,v1"; "r1,v2"; "r3,v3"] None = Ok d
    ∧ class_of d = CSVParser_class
    ∧ ("c1" ≠ "" ∨ head (column_names d) = Some "c1")
    ∧ set_index_column d "c1" = Ok d'
    ∧ row_values_in_column d' "c1" = [VStr "r1"; VStr "r1.1"; VStr "r3"]
    ∧ ∃ out,
        _unique_vals (row_values_in_column d "c1") = Ok out
        ∧ row_values_in_column d' "c1" = out
        ∧ length out = length (list_of_dicts d)
        ∧ NoDup out.
Proof.
  eexists _, _. split; [vm_compute; reflexivity|].
  apply conj_then; [reflexivity|]. intros Hcls.
  apply conj_then; [by left|]. intros Hname.
  apply conj_then; [vm_compute; reflexivity|]. intros Hrun.
  split; [reflexivity|].
  exact (set_index_column_key_values_are_unique_vals _ _ _ Hcls Hname Hrun).
Defined.

(** X5 at the same parser. *)
Lemma set_index_column_changes_key_cells_only_witness :
  ∃ d d',
    from_lines plain_csv_reader ["c1,c2"; "r1,v1"; "r1,v2"; "r3,v3"] None = Ok d
    ∧ class_of d = CSVParser_class
    ∧ ("c1" ≠ "" ∨ head (column_names d) = Some "c1")
    ∧ set_index_column d "c1" = Ok d'
    ∧ (index_column d' = Ok "c1"
       ∧ column_names d' = column_names d
       ∧ length (list_of_dicts d') = length (list_of_dicts d)
       ∧ ∀ n r', list_of_dicts d' !! n = Some r' →
           ∃ r, list_of_dicts d !! n = Some r
             ∧ restkey r' = restkey r
             ∧ (∀ c, c ≠ "c1" → Dict.get (cells r') c = Dict.get (cells r) c)
             ∧ (row_get_default r' "c1" (VStr "") = row_get_default r "c1" (VStr "")
                ∨ ∃ m, row_get_default r' "c1" (VStr "")
                       = suffixed (row_get_default r "c1" (VStr "")) m)).
Proof.
  eexists _, _. split; [vm_compute; reflexivity|].
  apply conj_then; [reflexivity|]. intros Hcls.
  apply conj_then; [by left|]. intros Hname.
  apply conj_then; [vm_compute; reflexivity|]. intros Hrun.
  exact (set_index_column_changes_key_cells_only _ _ _ Hcls Hname Hrun).
Defined.

(** X6 at a header whose second column has the empty name, with that
    column as the key: the setter writes to the first column, twice the
    same values. *)
Lemma set_index_column_idempotent_witness :
  ∃ d d',
    from_lines plain_csv_reader ["a,"; "1,k"; "2,k"] None = Ok d
    ∧ set_index_column d "" = Ok d'
    ∧ row_values_in_column d' "a" = [VStr "k"; VStr "k.1"]
    ∧ set_index_column d' "" = Ok d'.
Proof.
  eexists _, _. split; [vm_compute; reflexivity|].
  apply conj_then; [vm_compute; reflexivity|]. intros Hrun.
  split; [reflexivity|].
  exact (set_index_column_idempotent _ _ _ Hrun).
Defined.

(** X7 at the last row of the same parser. *)
Lemma set_value_then_get_value_witness :
  ∃ d,
    from_lines plain_csv_reader ["c1,c2"; "r1,v1"; "r1,v2"; "r3,v3"] None = Ok d
    ∧ class_of d = CSVParser_class
    ∧ index_column d = Ok "c1"
    ∧ "c2" ≠ "c1"
    ∧ Dict.get (cells (get_row d "c1" (VStr "r3"))) "c2" = Some (VStr "v3")
    ∧ ∃ self', set_value d (VStr "r3") "c2" (VStr "new") = Ok self'
        ∧ get_value self' (VStr "r3") "c2" = Ok (VStr "new")
        ∧ column_names self' = column_names d
        ∧ length (list_of_dicts self') = length (list_of_dicts d).
Proof.
  eexists. split; [vm_compute; reflexivity|].
  apply conj_then; [reflexivity|]. intros Hcls.
  apply conj_then; [vm_compute; reflexivity|]. intros Hkey.
  apply conj_then; [done|]. intros Hne.
  apply conj_then; [vm_compute; reflexivity|]. intros Hold.
  exact (set_value_then_get_value _ _ _ _ (VStr "new") _ Hcls Hkey Hne Hold).
Defined.

(** X8 at a column name the rows do not have. *)
Lemma set_value_noop_without_cell_witness :
  ∃ d,
    from_lines plain_csv_reader ["c1,c2"; "r1,v1"; "r1,v2"; "r3,v3"] None = Ok d
    ∧ class_of d = CSVParser_class
    ∧ index_column d = Ok "c1"
    ∧ Dict.get (cells (get_row d "c1" (VStr "r3"))) "zz" = None
    ∧ set_value d (VStr "r3") "zz" (VStr "new") = Ok d.
Proof.
  eexists. split; [vm_compute; reflexivity|].
  apply conj_then; [reflexivity|]. intros Hcls.
  apply conj_then; [vm_compute; reflexivity|]. intros Hkey.
  apply conj_then; [vm_compute; reflexivity|]. intros Hnone.
  exact (set_value_noop_without_cell _ _ _ _ (VStr "new") Hcls Hkey Hnone).
Defined.

(** X9 at the same parser, dropping its second column. *)
Lemma drop_columns_removes_named_only_witness :
  ∃ d,
    from_lines plain_csv_reader ["c1,c2"; "r1,v1"; "r1,v2"; "r3,v3"] None = Ok d
    ∧ class_of d = CSVParser_class
    ∧ column_names (drop_columns d ["c2"]) = ["c1"]
    ∧ (column_names (drop_columns d ["c2"])
         = filter (λ c, c ∉ ["c2"]) (column_names d)
       ∧ (∀ c, c ∈ column_names (drop_columns d ["c2"])
               ↔ c ∈ column_names d ∧ c ∉ ["c2"])
       ∧ (NoDup (column_names d) → NoDup (column_names (drop_columns d ["c2"])))
       ∧ length (list_of_dicts (drop_columns d ["c2"])) = length (list_of_dicts d)
       ∧ ∀ n r, list_of_dicts d !! n = Some r → NoDup (Dict.keys (cells r)) →
           ∃ r', list_of_dicts (drop_columns d ["c2"]) !! n = Some r'
             ∧ restkey r' = restkey r
             ∧ NoDup (Dict.keys (cells r'))
             ∧ ∀ c, Dict.get (cells r') c
                    = if decide (c ∈ ["c2"]) then None else Dict.get (cells r) c).
Proof.
  eexists. split; [vm_compute; reflexivity|].
  apply conj_then; [reflexivity|]. intros Hcls.
  split; [vm_compute; reflexivity|].
  exact (drop_columns_removes_named_only _ ["c2"] Hcls).
Defined.

(** X10 at a predicate that selects the rows with key [r1]. *)
Lemma drop_rows_by_keeps_rejected_rows_witness :
  ∃ d,
    from_lines plain_csv_reader ["c1,c2"; "r1,v1"; "r1,v2"; "r3,v3"] None = Ok d
    ∧ class_of d = CSVParser_class
    ∧ ((∀ pred : dict_row → bool,
          (∀ row, row ∈ list_of_dicts d →
             Ok (bool_decide (row_get row "c1" = VStr "r1")) = Ok (pred row)) →
          drop_rows_by d (λ row, Ok (bool_decide (row_get row "c1" = VStr "r1")))
          = Ok (with_rows d (filter (λ row, pred row = false) (list_of_dicts d))))
       ∧ ∀ e,
           (∀ row, row ∈ list_of_dicts d →
              (∃ b, Ok (bool_decide (row_get row "c1" = VStr "r1")) = Ok b)
              ∨ Ok (bool_decide (row_get row "c1" = VStr "r1")) = Raise e) →
           (∃ row, row ∈ list_of_dicts d
                   ∧ Ok (bool_decide (row_get row "c1" = VStr "r1")) = Raise e) →
           drop_rows_by d (λ row, Ok (bool_decide (row_get row "c1" = VStr "r1")))
           = Raise e).
Proof.
  eexists. split; [vm_compute; reflexivity|].
  apply conj_then; [reflexivity|]. intros Hcls.
  exact (drop_rows_by_keeps_rejected_rows _
           (λ row, Ok (bool_decide (row_get row "c1" = VStr "r1"))) Hcls).
Defined.

(** X11 at the same parser and the key value [r1]. *)
Lemma drop_rows_by_value_set_witness :
  ∃ d,
    from_lines plain_csv_reader ["c1,c2"; "r1,v1"; "r1,v2"; "r3,v3"] None = Ok d
    ∧ class_of d = CSVParser_class
    ∧ (("c1" ∉ column_names d → drop_rows d "c1" [VStr "r1"] = Ok d)
       ∧ ("c1" ∈ column_names d →
          (∀ row, row ∈ list_of_dicts d → is_Some (Dict.get (cells row) "c1")) →
          drop_rows d "c1" [VStr "r1"]
          = Ok (with_rows d
                  (filter (λ row, row_get row "c1" ∉ [VStr "r1"]) (list_of_dicts d))))
       ∧ ("c1" ∈ column_names d →
          (∃ row, row ∈ list_of_dicts d ∧ Dict.get (cells row) "c1" = None) →
          drop_rows d "c1" [VStr "r1"] = Raise (KeyError "c1"))).
Proof.
  eexists. split; [vm_compute; reflexivity|].
  apply conj_then; [reflexivity|]. intros Hcls.
  exact (drop_rows_by_value_set _ "c1" [VStr "r1"] Hcls).
Defined.

(** X12 at a transform that copies the first column into a new one. *)
Lemma apply_transform_sets_column_witness :
  ∃ d,
    from_lines plain_csv_reader ["c1,c2"; "r1,v1"; "r1,v2"; "r3,v3"] None = Ok d
    ∧ class_of d = CSVParser_class
    ∧ (∀ row, row ∈ list_of_dicts d →
         (λ row, Ok (row_get row "c1")) row = Ok ((λ row, row_get row "c1") row))
    ∧ ∃ self',
        apply_transform d "c3" (λ row, Ok (row_get row "c1")) = Ok self'
        ∧ length (list_of_dicts self') = length (list_of_dicts d)
        ∧ column_names self'
          = (if decide ("c3" ∈ column_names d) then column_names d
             else column_names d ++ ["c3"])
        ∧ "c3" ∈ column_names self'
        ∧ (NoDup (column_names d) → NoDup (column_names self'))
        ∧ ∀ n r, list_of_dicts d !! n = Some r →
            ∃ r', list_of_dicts self' !! n = Some r'
              ∧ Dict.get (cells r') "c3" = Some ((λ row, row_get row "c1") r)
              ∧ restkey r' = restkey r
              ∧ ∀ c, c ≠ "c3" → Dict.get (cells r') c = Dict.get (cells r) c.
Proof.
  eexists. split; [vm_compute; reflexivity|].
  apply conj_then; [reflexivity|]. intros Hcls.
  apply conj_then; [intros row _; reflexivity|]. intros Hfunc.
  exact (apply_transform_sets_column _ "c3" (λ row, Ok (row_get row "c1"))
           (λ row, row_get row "c1") Hcls Hfunc).
Defined.


(** X14 at the rows of the end-to-end example. *)
Lemma compare_mismatches_witness :
  ∃ c r c',
    comparer_from_lines plain_csv_reader
      ["c1,c2"; "r1,v1"; "r2,v2"; "r3,MISMATCH"]
      ["c1,c2"; "r1,v1"; "r2,v2"; "r3,v3"] = Ok c
    ∧ compare plain_repr_list c "c1" = Ok (r, c')
    ∧ CSVCompareOutput.mismatched_rows r
      = [CSVCompareOutput.Mismatch (VStr "r3") "c2" (VStr "MISMATCH") (VStr "v3")]
    ∧ ∀ m, m ∈ CSVCompareOutput.mismatched_rows r
        ↔ CSVCompareOutput.row m ∈ row_values_in_column (first_file c') "c1"
          ∧ CSVCompareOutput.row m ∈ row_values_in_column (second_file c') "c1"
          ∧ CSVCompareOutput.column m ∈ column_names (first_file c')
          ∧ CSVCompareOutput.column m ∈ column_names (second_file c')
          ∧ get_value (first_file c') (CSVCompareOutput.row m)
              (CSVCompareOutput.column m) = Ok (CSVCompareOutput.first m)
          ∧ get_value (second_file c') (CSVCompareOutput.row m)
              (CSVCompareOutput.column m) = Ok (CSVCompareOutput.second m)
          ∧ CSVCompareOutput.first m ≠ CSVCompareOutput.second m.
Proof.
  eexists _, _, _. split; [vm_compute; reflexivity|].
  apply conj_then; [vm_compute; reflexivity|]. intros Hrun.
  split; [reflexivity|].
  exact (compare_mismatches_are_differing_cells _ _ _ _ _ Hrun).
Defined.

(** X15 at two files that differ in a column, a row and a cell. *)
Lemma compare_swapped_files_witness :
  ∃ a b r a' b',
    from_lines plain_csv_reader ["c1,c2,c3"; "r1,v1,x"; "r2,v2,x"] None = Ok a
    ∧ from_lines plain_csv_reader ["c1,c2"; "r1,w1"; "r3,v3"] None = Ok b
    ∧ compare plain_repr_list (MkComparer a b) "c1" = Ok (r, MkComparer a' b')
    ∧ ∃ r',
        compare plain_repr_list (MkComparer b a) "c1" = Ok (r', MkComparer b' a')
        ∧ CSVCompareOutput.match_result r' = CSVCompareOutput.match_result r
        ∧ CSVCompareOutput.first_file r' = CSVCompareOutput.second_file r
        ∧ CSVCompareOutput.second_file r' = CSVCompareOutput.first_file r
        ∧ CSVCompareOutput.extra_cols_in_first_file r'
          ≡ₚ CSVCompareOutput.extra_cols_in_second_file r
        ∧ CSVCompareOutput.extra_cols_in_second_file r'
          ≡ₚ CSVCompareOutput.extra_cols_in_first_file r
        ∧ CSVCompareOutput.extra_rows_in_first_file r'
          ≡ₚ CSVCompareOutput.extra_rows_in_second_file r
        ∧ CSVCompareOutput.extra_rows_in_second_file r'
          ≡ₚ CSVCompareOutput.extra_rows_in_first_file r
        ∧ CSVCompareOutput.mismatched_rows r'
          ≡ₚ (λ m, CSVCompareOutput.Mismatch (CSVCompareOutput.row m)
                     (CSVCompareOutput.column m) (CSVCompareOutput.second m)
                     (CSVCompareOutput.first m))
             <$> CSVCompareOutput.mismatched_rows r.
Proof.
  eexists _, _, _, _, _. split; [vm_compute; reflexivity|].
  split; [vm_compute; reflexivity|].
  apply conj_then; [vm_compute; reflexivity|]. intros Hrun.
  exact (compare_swapped_files _ _ _ _ _ _ _ Hrun).
Defined.

(** X16 at two files with a repeated key value. *)
Lemma compare_again_same_report_witness :
  ∃ c r c',
    comparer_from_lines plain_csv_reader
      ["c1,c2"; "r1,v1"; "r1,v2"; "r3,MISMATCH"]
      ["c1,c2"; "r1,v1"; "r1,v2"; "r3,v3"] = Ok c
    ∧ "c1" ≠ ""
    ∧ compare plain_repr_list c "c1" = Ok (r, c')
    ∧ compare plain_repr_list c' "c1" = Ok (r, c').
Proof.
  eexists _, _, _. split; [vm_compute; reflexivity|].
  apply conj_then; [done|]. intros Hne.
  apply conj_then; [vm_compute; reflexivity|]. intros Hrun.
  exact (compare_again_same_report _ _ _ _ _ Hne Hrun).
Defined.

(** X18 at a parser built from lines. *)
Lemma constructed_parser_keyed_by_first_column_witness :
  ∃ d,
    construct plain_csv_reader (λ _, false) (λ _, Ok None) (λ _ _, Ok "")
      (FromLines ["c1,c2"; "r1,v1"; "r3,v3"]) None = Ok d
    ∧ column_names d = "c1" :: ["c2"]
    ∧ (index_column d = Ok "c1"
       ∧ ∀ k column_name,
           get_value d k column_name
           = Ok (row_get_default (get_row d "c1" k) column_name (VStr ""))).
Proof.
  eexists. apply conj_then; [vm_compute; reflexivity|]. intros Hrun.
  apply conj_then; [reflexivity|]. intros Hcols.
  exact (constructed_parser_keyed_by_first_column _ _ _ _ _ _ _ _ _ Hrun Hcols).
Defined.



(** X21 at a parser whose origin is taken to be a file, in a file system
    whose files are read-only. *)
Lemma write_to_file_witness :
  ∃ d,
    from_lines plain_csv_reader ["c1,c2"; "r1,v1"; "r2,v2,x"] None = Ok d
    ∧ class_of d = CSVParser_class
    ∧ write_to_file (λ _, true) read_only_write d
      = Raise (PermissionError "[Errno 13] Permission denied: 'init from lines'")
    ∧ (((λ _ : string, true) (file_path d) = false →
          ∃ msg, write_to_file (λ _, true) read_only_write d = Raise (ValueError msg))
       ∧ ((λ _ : string, true) (file_path d) = true →
          ∃ w, (read_only_write w = Ok tt →
                write_to_file (λ _, true) read_only_write d = Ok (Some w))
            ∧ (∀ e, read_only_write w = Raise e →
                    write_to_file (λ _, true) read_only_write d = Raise e)
            ∧ fw_path w = file_path d
            ∧ fw_encoding w = _encoding d
            ∧ fw_fieldnames w = column_names d
            ∧ length (fw_rows w) = length (list_of_dicts d)
            ∧ ∀ n r, list_of_dicts d !! n = Some r →
                ∃ row, fw_rows w !! n = Some row
                  ∧ (∀ c, c ∈ Dict.keys row → c ∈ column_names d)
                  ∧ (NoDup (Dict.keys (cells r)) →
                     ∀ c, c ∈ column_names d →
                          Dict.get row c = Dict.get (cells r) c))).
Proof.
  eexists. split; [vm_compute; reflexivity|].
  apply conj_then; [reflexivity|]. intros Hcls.
  split; [reflexivity|].
  exact (write_to_file_writes_header_columns_only (λ _, true) read_only_write _ Hcls).
Defined.

(** X22 at the rows of the end-to-end example. *)
Lemma compare_report_lines_witness :
  ∃ c r c',
    comparer_from_lines plain_csv_reader
      ["c1,c2"; "r1,v1"; "r2,v2"; "r3,MISMATCH"]
      ["c1,c2"; "r1,v1"; "r2,v2"; "r3,v3"] = Ok c
    ∧ compare plain_repr_list c "c1" = Ok (r, c')
    ∧ report_lines r
      = ["First file: init from lines";
         "Second file: init from lines";
         "Match result: False";
         "Mismatched rows";
         tab +:+ "row: r3, column: c2, first: MISMATCH, second: v3"]
    ∧ ((CSVCompareOutput.match_result r = true →
          report_lines r
          = ["First file: " +:+ file_path (first_file c');
             "Second file: " +:+ file_path (second_file c');
             "Match result: True"]
          ∧ __str__ r
            = "First file: " +:+ file_path (first_file c') +:+ newline
              +:+ "Second file: " +:+ file_path (second_file c') +:+ newline
              +:+ "Match result: True")
       ∧ (CSVCompareOutput.match_result r = false →
          ∃ more, more ≠ []
            ∧ report_lines r
              = ["First file: " +:+ file_path (first_file c');
                 "Second file: " +:+ file_path (second_file c');
                 "Match result: False"] ++ more)).
Proof.
  eexists _, _, _. split; [vm_compute; reflexivity|].
  apply conj_then; [vm_compute; reflexivity|]. intros Hrun.
  split; [vm_compute; reflexivity|].
  exact (compare_report_lines _ _ _ _ _ Hrun).
Defined.

(** X25 at two files that differ in the dropped column only. *)
Lemma compare_after_drop_columns_witness :
  ∃ c r c',
    comparer_from_lines plain_csv_reader
      ["c1,c2,c3"; "r1,v1,x"; "r2,v2,y"]
      ["c1,c2"; "r1,v1"; "r2,MISMATCH"] = Ok c
    ∧ class_of (first_file c) = CSVParser_class
    ∧ class_of (second_file c) = CSVParser_class
    ∧ compare plain_repr_list (comparer_drop_columns c ["c2"; "c3"]) "c1" = Ok (r, c')
    ∧ CSVCompareOutput.match_result r = true
    ∧ (("c1" ∈ ["c2"; "c3"] →
          ∃ msg, compare plain_repr_list (comparer_drop_columns c ["c2"; "c3"]) "c1"
                 = Raise (ValueError msg))
       ∧ ∀ r self',
           compare plain_repr_list (comparer_drop_columns c ["c2"; "c3"]) "c1"
           = Ok (r, self') →
           ∀ x, x ∈ ["c2"; "c3"] →
             (x ∉ CSVCompareOutput.extra_cols_in_first_file r)
             ∧ (x ∉ CSVCompareOutput.extra_cols_in_second_file r)
             ∧ ∀ m, m ∈ CSVCompareOutput.mismatched_rows r →
                    CSVCompareOutput.column m ≠ x).
Proof.
  eexists _, _, _. split; [vm_compute; reflexivity|].
  apply conj_then; [reflexivity|]. intros Hcls1.
  apply conj_then; [reflexivity|]. intros Hcls2.
  split; [vm_compute; reflexivity|]. split; [reflexivity|].
  exact (compare_after_drop_columns plain_repr_list _ ["c2"; "c3"] "c1" Hcls1 Hcls2).
Defined.
